(** * NWN combat tracker: the parsing and aggregation core

    A shallow embedding of [nwn_combat_tracker_gui.py]: the classes
    [EnemySaves], [EnemyAC], [AttackBonus] and the tracker
    [NWNCombatTracker] with its regular expressions, [parse_line] and
    [reset].

    Conventions of the model.
    - A Python [str] is a [string]; its characters are the code points
      below 256.  Whitespace ([str.strip], [\s]), digits ([\d]) and
      [str.lower] are Python's on that range.
    - A Python [int] is a [Z].
    - A [datetime] is a [Z], the microseconds since an arbitrary origin;
      [timedelta(seconds=n)] is [n * 1000000].
    - [datetime.now()] is an argument of the operation that reads the
      clock.
    - A raised exception is the [Raise] result of the error monad. *)

From Stdlib Require Import ZArith List String Ascii Bool Lia DecimalString.
From stdpp Require Import gmap strings.
Import ListNotations.
Local Open Scope Z_scope.

(* ================================================================== *)
(** ** Exceptions *)

Inductive exn : Set :=
  ValueError | IndexError | KeyError | TypeError | AttributeError.

Inductive result (A : Type) : Type :=
| Ok (a : A)
| Raise (e : exn).
Arguments Ok {A} a.
Arguments Raise {A} e.

Definition rbind {A B : Type} (x : result A) (f : A -> result B) : result B :=
  match x with
  | Ok a => f a
  | Raise e => Raise e
  end.

Notation "'let!' x ':=' c1 'in' c2" := (rbind c1 (fun x => c2))
  (at level 10, x name, c1 at level 100, c2 at level 200).

(* ================================================================== *)
(** ** Python strings *)

Module Py.

Definition chars := list ascii.

Definition code (a : ascii) : N := N_of_ascii a.

(** [str.isspace] of one character, which is also the class [\s]:
    U+0009..U+000D, U+001C..U+0020, U+0085, U+00A0. *)
Definition isspace (a : ascii) : bool :=
  let n := code a in
  ((9 <=? n) && (n <=? 13) || (28 <=? n) && (n <=? 32)
   || (n =? 133) || (n =? 160))%N.

(** The class [\d]. *)
Definition isdigit (a : ascii) : bool :=
  let n := code a in ((48 <=? n) && (n <=? 57))%N.

(** The class [[A-Za-z]] (the same with and without IGNORECASE on this
    range). *)
Definition isalpha (a : ascii) : bool :=
  let n := code a in
  ((65 <=? n) && (n <=? 90) || (97 <=? n) && (n <=? 122))%N.

Definition isupper (a : ascii) : bool :=
  let n := code a in ((65 <=? n) && (n <=? 90))%N.

Definition islower (a : ascii) : bool :=
  let n := code a in ((97 <=? n) && (n <=? 122))%N.

(** [str.lower] of one character: A-Z and U+00C0..U+00DE without U+00D7
    move up by 32. *)
Definition lower_char (a : ascii) : ascii :=
  let n := code a in
  if ((65 <=? n) && (n <=? 90)
      || (192 <=? n) && (n <=? 222) && negb (n =? 215))%N
  then ascii_of_N (n + 32) else a.

Definition upper_char (a : ascii) : ascii :=
  if islower a then ascii_of_N (code a - 32) else a.

Definition lower_l (l : chars) : chars := map lower_char l.

Definition lower (s : string) : string :=
  string_of_list_ascii (lower_l (list_ascii_of_string s)).

Fixpoint lstrip_by (p : ascii -> bool) (l : chars) : chars :=
  match l with
  | a :: l' => if p a then lstrip_by p l' else l
  | [] => []
  end.

Definition rstrip_by (p : ascii -> bool) (l : chars) : chars :=
  rev (lstrip_by p (rev l)).

Definition strip_l (l : chars) : chars :=
  lstrip_by isspace (rstrip_by isspace l).

(** [s.strip()] *)
Definition strip (s : string) : string :=
  string_of_list_ascii (strip_l (list_ascii_of_string s)).

Definition mem_char (cs : chars) (a : ascii) : bool :=
  existsb (Ascii.eqb a) cs.

(** [s.rstrip(cs)] *)
Definition rstrip (cs : string) (s : string) : string :=
  string_of_list_ascii
    (rstrip_by (mem_char (list_ascii_of_string cs)) (list_ascii_of_string s)).

Fixpoint is_prefix (p l : chars) : bool :=
  match p, l with
  | [], _ => true
  | a :: p', b :: l' => Ascii.eqb a b && is_prefix p' l'
  | _ :: _, [] => false
  end.

Fixpoint contains_l (p l : chars) : bool :=
  is_prefix p l ||
  match l with
  | [] => false
  | _ :: l' => contains_l p l'
  end.

(** [sub in s] *)
Definition contains (sub s : string) : bool :=
  contains_l (list_ascii_of_string sub) (list_ascii_of_string s).

(** The truth value of a string: non-empty. *)
Definition truthy (s : string) : bool :=
  match s with
  | EmptyString => false
  | String _ _ => true
  end.

(** [s.title()] on the strings it is applied to here, which hold only
    A-Z, a-z and whitespace: a letter that follows a letter is lowered,
    any other letter is raised. *)
Fixpoint title_l (prev_cased : bool) (l : chars) : chars :=
  match l with
  | [] => []
  | a :: l' =>
      (if prev_cased then lower_char a else upper_char a)
        :: title_l (isalpha a) l'
  end.

Definition title (s : string) : string :=
  string_of_list_ascii (title_l false (list_ascii_of_string s)).

Fixpoint digits_val (acc : Z) (l : chars) : option Z :=
  match l with
  | [] => Some acc
  | a :: l' =>
      if isdigit a
      then digits_val (10 * acc + (Z.of_N (code a) - 48)) l'
      else None
  end.

(** [int(s)] for an optional minus sign followed by one digit or more,
    the only strings the patterns capture for it; it raises [ValueError]
    on any other string. *)
Definition int_l (l : chars) : result Z :=
  match l with
  | [] => Raise ValueError
  | a :: l' =>
      if Ascii.eqb a "-"
      then match l' with
           | [] => Raise ValueError
           | _ :: _ =>
               match digits_val 0 l' with
               | Some n => Ok (- n)
               | None => Raise ValueError
               end
           end
      else match digits_val 0 l with
           | Some n => Ok n
           | None => Raise ValueError
           end
  end.

Definition int (s : string) : result Z := int_l (list_ascii_of_string s).

(** [str(n)] *)
Definition str (n : Z) : string := NilZero.string_of_int (Z.to_int n).

(** [max(l)] raises [ValueError] on an empty sequence. *)
Definition max (l : list Z) : result Z :=
  match l with
  | [] => Raise ValueError
  | x :: l' => Ok (fold_left Z.max l' x)
  end.

End Py.


(* ================================================================== *)
(** ** Regular expressions

    The part of Python's [re] the tracker uses: a backtracking matcher
    with ordered alternatives, greedy and lazy repetition of a character
    class, named groups and [$].  All patterns of the tracker are
    compiled with IGNORECASE, so a literal is compared after
    [lower_char]. *)

Module Re.

Import Py.

Inductive re : Type :=
| Eps
| Lit (s : string)
| Cls (p : ascii -> bool)
| Seq (r1 r2 : re)
| Alt (r1 r2 : re)
| Rep (greedy : bool) (lo : nat) (p : ascii -> bool)
| Grp (g : string) (r : re)
| Eos.

(** The captured groups, most recent first. *)
Definition caps := list (string * string).

Fixpoint lookup_cap (g : string) (c : caps) : option string :=
  match c with
  | [] => None
  | (g', w) :: c' => if String.eqb g g' then Some w else lookup_cap g c'
  end.

Definition cont := chars -> caps -> option (caps * chars).

Fixpoint lit_match (l s : chars) : option chars :=
  match l, s with
  | [], _ => Some s
  | a :: l', b :: s' =>
      if Ascii.eqb (lower_char a) (lower_char b) then lit_match l' s'
      else None
  | _ :: _, [] => None
  end.

(** [p{lo,}] (greedy) and [p{lo,}?] (lazy) before the continuation [k]. *)
Fixpoint rep (greedy : bool) (p : ascii -> bool) (lo : nat) (s : chars)
    (k : chars -> option (caps * chars)) {struct s} : option (caps * chars) :=
  match lo with
  | S lo' =>
      match s with
      | a :: s' => if p a then rep greedy p lo' s' k else None
      | [] => None
      end
  | O =>
      if greedy then
        match s with
        | a :: s' =>
            if p a then
              match rep greedy p O s' k with
              | Some x => Some x
              | None => k s
              end
            else k s
        | [] => k s
        end
      else
        match k s with
        | Some x => Some x
        | None =>
            match s with
            | a :: s' => if p a then rep greedy p O s' k else None
            | [] => None
            end
        end
  end.

(** [$] without MULTILINE: the end of the string, or just before a
    newline that ends the string. *)
Definition at_end (s : chars) : bool :=
  match s with
  | [] => true
  | [a] => Ascii.eqb a "010"
  | _ => false
  end.

(** [run r s c k]: match [r] at the head of [s], then go on with [k];
    the first success in backtracking order wins. *)
Fixpoint run (r : re) (s : chars) (c : caps) (k : cont) : option (caps * chars) :=
  match r with
  | Eps => k s c
  | Lit l =>
      match lit_match (list_ascii_of_string l) s with
      | Some s' => k s' c
      | None => None
      end
  | Cls p =>
      match s with
      | a :: s' => if p a then k s' c else None
      | [] => None
      end
  | Seq r1 r2 => run r1 s c (fun s' c' => run r2 s' c' k)
  | Alt r1 r2 =>
      match run r1 s c k with
      | Some x => Some x
      | None => run r2 s c k
      end
  | Rep g lo p => rep g p lo s (fun s' => k s' c)
  | Grp g r' =>
      run r' s c
        (fun s' c' =>
           k s' ((g, string_of_list_ascii
                       (firstn (length s - length s') s)) :: c'))
  | Eos => if at_end s then k s c else None
  end.

Definition accept : cont := fun s c => Some (c, s).

(** [pattern.match]: at the head of [s] only. *)
Definition match_here (r : re) (s : chars) : option (caps * chars) :=
  run r s [] accept.

Fixpoint names (r : re) : list string :=
  match r with
  | Seq r1 r2 | Alt r1 r2 => names r1 ++ names r2
  | Grp g r' => g :: names r'
  | _ => []
  end.

(** A match object: the captures, the group names of its pattern, and
    the text after the match. *)
Record rmatch : Type := {
  m_caps : caps;
  m_names : list string;
  m_rest : chars
}.

Definition mk_match (r : re) (x : caps * chars) : rmatch :=
  {| m_caps := fst x; m_names := names r; m_rest := snd x |}.

Definition has_group (g : string) (m : rmatch) : bool :=
  existsb (String.eqb g) (m_names m).

(** [m.group(g)]: [None] for a group that took no part in the match,
    [IndexError] for a name the pattern does not have. *)
Definition group (m : rmatch) (g : string) : result (option string) :=
  if has_group g m then Ok (lookup_cap g (m_caps m)) else Raise IndexError.

Fixpoint search_l (r : re) (s : chars) : option (caps * chars) :=
  match match_here r s with
  | Some x => Some x
  | None =>
      match s with
      | [] => None
      | _ :: s' => search_l r s'
      end
  end.

(** [pattern.search(s)]: the leftmost match. *)
Definition search (r : re) (s : string) : option rmatch :=
  option_map (mk_match r) (search_l r (list_ascii_of_string s)).

(** [pattern.finditer(s)]: the matches from left to right, each search
    starting where the previous match ended; [skip] counts the characters
    of the previous match still to pass.  (After an empty match the scan
    moves on by one character; no pattern used with it matches the empty
    string.) *)
Fixpoint finditer_l (r : re) (skip : nat) (s : chars) {struct s} : list caps :=
  match skip with
  | S n =>
      match s with
      | [] => []
      | _ :: s' => finditer_l r n s'
      end
  | O =>
      match match_here r s with
      | Some (c, rest) =>
          c :: match s with
               | [] => []
               | _ :: s' => finditer_l r (length s - length rest - 1) s'
               end
      | None =>
          match s with
          | [] => []
          | _ :: s' => finditer_l r O s'
          end
      end
  end.

Definition finditer (r : re) (s : string) : list rmatch :=
  map (fun c => mk_match r (c, [])) (finditer_l r O (list_ascii_of_string s)).

(** [pattern.sub('', s)] for a pattern that starts with [^] ([r] is the
    pattern after the [^]): without MULTILINE such a pattern matches at
    position 0 only, so at most one occurrence is removed. *)
Definition sub_anchored (r : re) (s : string) : string :=
  match match_here r (list_ascii_of_string s) with
  | Some (_, rest) => string_of_list_ascii rest
  | None => s
  end.

Definition opt (r : re) : re := Alt r Eps.
Definition star (p : ascii -> bool) : re := Rep true 0 p.
Definition plus (p : ascii -> bool) : re := Rep true 1 p.
Definition lazy_plus (p : ascii -> bool) : re := Rep false 1 p.

(** [.] without DOTALL, and [[^c]]. *)
Definition dot (a : ascii) : bool := negb (Ascii.eqb a "010").
Definition other_than (c : ascii) (a : ascii) : bool := negb (Ascii.eqb a c).

End Re.

Declare Scope re_scope.
Delimit Scope re_scope with re.
Bind Scope re_scope with Re.re.
Notation "r1 >> r2" := (Re.Seq r1 r2)
  (at level 60, right associativity) : re_scope.

(* ================================================================== *)
(** ** The patterns of [_compile_patterns] *)

Section Patterns.

Import Re.
Local Open Scope re_scope.
Local Open Scope string_scope.

(** The patterns are quoted with a space between their tokens.
    [ws] is [\s*], [ws1] is [\s+], [num] is [\d+], [snum] is [-? \d+]. *)
Definition ws : re := star Py.isspace.
Definition ws1 : re := plus Py.isspace.
Definition num : re := plus Py.isdigit.
Definition snum : re := opt (Lit "-") >> num.

(** [(?: Attack Of Opportunity \s* : \s* )?] *)
Definition aoo : re := opt (Lit "Attack Of Opportunity" >> ws >> Lit ":" >> ws).

(** [(?P<outcome> hit|miss|critical hit|parried|resisted )] *)
Definition outcomes : re :=
  Grp "outcome"
    (Alt (Lit "hit") (Alt (Lit "miss") (Alt (Lit "critical hit")
       (Alt (Lit "parried") (Lit "resisted"))))).

(** [\( (?P<roll> \d+ ) \s* \+ \s* (?P<bonus> -? \d+ ) \s* = \s*
     (?P<total> \d+ ) \)] *)
Definition rolls : re :=
  Lit "(" >> Grp "roll" num >> ws >> Lit "+" >> ws >> Grp "bonus" snum
    >> ws >> Lit "=" >> ws >> Grp "total" num >> Lit ")".

(** [(?P<attacker> .+? ) \s+ attacks \s+ (?P<target> .+? ) \s* : \s*] *)
Definition attacks : re :=
  Grp "attacker" (lazy_plus dot) >> ws1 >> Lit "attacks" >> ws1
    >> Grp "target" (lazy_plus dot) >> ws >> Lit ":" >> ws.

(** [\* target concealed: \s* (?P<conceal> \d+ ) % \*] *)
Definition concealed : re :=
  Lit "*target concealed:" >> ws >> Grp "conceal" num >> Lit "%*".

Definition pat_prefix : re :=
  Lit "[CHAT WINDOW TEXT]" >> ws >> Lit "[" >> plus (other_than "]")
    >> Lit "]" >> ws.

Definition pat_attack : re :=
  aoo >> attacks >> Lit "*" >> outcomes >> Lit "*" >> ws
    >> opt (Lit ":" >> ws >> rolls).

Definition pat_attack_conceal : re :=
  aoo >> attacks >> concealed >> ws >> Lit ":" >> ws >> rolls >> ws
    >> Lit ":" >> ws >> Lit "*" >> outcomes >> Lit "*".

Definition pat_attack_conceal_pending : re :=
  aoo >> attacks >> concealed >> ws >> Lit ":" >> ws >> rolls >> ws >> Eos.

Definition pat_conceal_miss : re :=
  attacks >> concealed >> ws >> Eos.

Definition pat_save : re :=
  opt (Lit "SAVE:" >> ws) >> Grp "target" (lazy_plus dot) >> ws >> Lit ":"
    >> ws
    >> Grp "save_type"
         (Alt (Lit "Fort") (Alt (Lit "Fortitude")
            (Alt (Lit "Reflex") (Lit "Will"))))
    >> ws1 >> Lit "Save"
    >> opt (ws1 >> Lit "vs." >> ws >> lazy_plus (other_than ":"))
    >> ws >> Lit ":" >> ws
    >> Lit "*" >> Grp "outcome" (Alt (Lit "success") (Lit "failed"))
    >> Lit "*" >> ws >> Lit ":" >> ws
    >> Lit "(" >> Grp "roll" num >> ws >> Lit "+" >> ws >> Grp "bonus" snum
    >> ws >> opt (Lit "=" >> ws >> num >> ws) >> Lit "vs." >> ws
    >> Lit "DC:" >> ws >> Grp "dc" num >> Lit ")".

Definition pat_damage : re :=
  Grp "attacker" (lazy_plus dot) >> ws1 >> Lit "damages" >> ws1
    >> Grp "target" (lazy_plus dot) >> Lit ":" >> ws >> Grp "amount" num
    >> opt (ws >> Lit "(" >> Grp "breakdown" (plus (other_than ")"))
            >> Lit ")").

(** The two groups of [pat_damage_type] are numbered, not named. *)
Definition pat_damage_type : re :=
  Grp "1" num >> ws1
    >> Grp "2" (plus Py.isalpha >> opt (ws1 >> plus Py.isalpha)).

Definition pat_potion : re :=
  Grp "user" (lazy_plus dot) >> ws1 >> Lit "uses" >> ws1
    >> Grp "potion" (Lit "Potion of Heal" >> star dot).

Definition pat_undead_heal : re :=
  Grp "caster" (lazy_plus dot) >> ws1 >> Lit "casts" >> ws1
    >> Lit "Harm Self (Undead)".

Definition pat_kill : re :=
  Grp "killer" (lazy_plus dot) >> ws1 >> Lit "killed" >> ws1
    >> Grp "target" (plus dot).

End Patterns.

(* ================================================================== *)
(** ** [EnemySaves] *)

Module EnemySaves.

Record t : Type := mk {
  name : string;
  fortitude : option Z;
  reflex : option Z;
  will : option Z
}.

Definition init (n : string) : t := mk n None None None.

(** [old is None or bonus > old] *)
Definition improves (old : option Z) (bonus : Z) : bool :=
  match old with
  | None => true
  | Some v => bonus >? v
  end.

Definition update_save (save_type : string) (bonus : Z) (self : t) : t :=
  if String.eqb save_type "fort" then
    if improves (fortitude self) bonus
    then mk (name self) (Some bonus) (reflex self) (will self) else self
  else if String.eqb save_type "ref" then
    if improves (reflex self) bonus
    then mk (name self) (fortitude self) (Some bonus) (will self) else self
  else if String.eqb save_type "will" then
    if improves (will self) bonus
    then mk (name self) (fortitude self) (reflex self) (Some bonus) else self
  else self.

End EnemySaves.

(* ================================================================== *)
(** ** [EnemyAC] *)

Module EnemyAC.

Record t : Type := mk {
  name : string;
  min_hit : option Z;
  max_miss : option Z
}.

Definition init (n : string) : t := mk n None None.

Definition record_hit (total : Z) (self : t) : t :=
  match min_hit self with
  | None => mk (name self) (Some total) (max_miss self)
  | Some h =>
      if total <? h then mk (name self) (Some total) (max_miss self) else self
  end.

Definition record_miss (total : Z) (was_nat1 : bool) (self : t) : t :=
  if negb was_nat1 then
    match max_miss self with
    | None => mk (name self) (min_hit self) (Some total)
    | Some m =>
        if total >? m then mk (name self) (min_hit self) (Some total)
        else self
    end
  else self.

(** The sign of the fourth form is U+2264, written here as its UTF-8
    bytes. *)
Definition get_ac_estimate (self : t) : string :=
  match min_hit self, max_miss self with
  | Some h, Some m =>
      if m + 1 =? h then Py.str h
      else if m <? h then (Py.str (m + 1) ++ "-" ++ Py.str h)%string
      else ("~" ++ Py.str h)%string
  | Some h, None => ("≤" ++ Py.str h)%string
  | None, Some m => (">" ++ Py.str m)%string
  | None, None => "?"%string
  end.

End EnemyAC.

(* ================================================================== *)
(** ** [AttackBonus] *)

Module AttackBonus.

Record t : Type := mk {
  current : Z;
  max_observed : Z;
  last_updated : Z;
  recent_attacks : list (Z * Z);
  window_seconds : Z
}.

(** [AttackBonus()] built at time [now]. *)
Definition init (now : Z) : t := mk 0 0 now [] 30.

Definition timedelta_seconds (n : Z) : Z := n * 1000000.

Definition set_recent_attacks (l : list (Z * Z)) (self : t) : t :=
  mk (current self) (max_observed self) (last_updated self) l
     (window_seconds self).

Definition set_max_observed (v : Z) (self : t) : t :=
  mk (current self) v (last_updated self) (recent_attacks self)
     (window_seconds self).

Definition _prune_old (now : Z) (self : t) : t :=
  let cutoff := now - timedelta_seconds (window_seconds self) in
  set_recent_attacks
    (List.filter (fun x => fst x >? cutoff) (recent_attacks self)) self.

(** [max(ab for _, ab in self.recent_attacks)] *)
Definition max_recent (self : t) : result Z :=
  Py.max (map snd (recent_attacks self)).

(** [update] reads the clock twice: [now] on entry, and [now'] inside
    [_prune_old]. *)
Definition update (now now' : Z) (bonus : Z) (self : t) : result t :=
  let self := mk bonus (max_observed self) (last_updated self)
                 (recent_attacks self ++ [(now, bonus)])
                 (window_seconds self) in
  let self := _prune_old now' self in
  let! m := match recent_attacks self with
            | [] => Ok bonus
            | _ :: _ => max_recent self
            end in
  Ok (mk (current self) m now (recent_attacks self) (window_seconds self)).

Definition refresh (now : Z) (self : t) : result t :=
  let self := _prune_old now self in
  match recent_attacks self with
  | [] => Ok self
  | _ :: _ => let! m := max_recent self in Ok (set_max_observed m self)
  end.

End AttackBonus.

(* ================================================================== *)
(** ** [NWNCombatTracker] *)

Module NWNCombatTracker.

Record t : Type := mk {
  player_name : string;
  target_filter : string;
  exact_match : bool;
  reset_interval : Z;
  auto_track : bool;
  target_saves : option EnemySaves.t;
  target_ac : option EnemyAC.t;
  target_name : string;
  target_ab : option Z;
  attack_bonus : AttackBonus.t;
  hits : Z;
  misses : Z;
  crits : Z;
  conceals : Z;
  target_conceal_pct : option Z;
  damage_dealt : Z;
  damage_dealt_crits : list Z;
  damage_dealt_normal : list Z;
  shield_damage_by_type : gmap string Z;
  shield_damage_total : Z;
  weapon_buff_damage_by_type : gmap string Z;
  weapon_buff_damage_total : Z;
  last_attack_was_player : bool;
  damage_taken : list Z;
  damage_taken_by_type : gmap string (list Z);
  player_pots : Z;
  target_pots : Z;
  last_player_hit_was_crit : bool;
  last_target_hit_was_crit : bool;
  encounter_start : option Z;
  encounter_last : option Z;
  target_dead : bool;
  kill_time : option Z
}.

(** Assignment to one attribute. *)
Definition set_target_filter (v : string) (self : t) : t :=
  mk (player_name self) v (exact_match self) (reset_interval self)
    (auto_track self) (target_saves self) (target_ac self)
    (target_name self) (target_ab self) (attack_bonus self) (hits self)
    (misses self) (crits self) (conceals self) (target_conceal_pct self)
    (damage_dealt self) (damage_dealt_crits self) (damage_dealt_normal self)
    (shield_damage_by_type self) (shield_damage_total self)
    (weapon_buff_damage_by_type self) (weapon_buff_damage_total self)
    (last_attack_was_player self) (damage_taken self)
    (damage_taken_by_type self) (player_pots self) (target_pots self)
    (last_player_hit_was_crit self) (last_target_hit_was_crit self)
    (encounter_start self) (encounter_last self) (target_dead self)
    (kill_time self).

Definition set_exact_match (v : bool) (self : t) : t :=
  mk (player_name self) (target_filter self) v (reset_interval self)
    (auto_track self) (target_saves self) (target_ac self)
    (target_name self) (target_ab self) (attack_bonus self) (hits self)
    (misses self) (crits self) (conceals self) (target_conceal_pct self)
    (damage_dealt self) (damage_dealt_crits self) (damage_dealt_normal self)
    (shield_damage_by_type self) (shield_damage_total self)
    (weapon_buff_damage_by_type self) (weapon_buff_damage_total self)
    (last_attack_was_player self) (damage_taken self)
    (damage_taken_by_type self) (player_pots self) (target_pots self)
    (last_player_hit_was_crit self) (last_target_hit_was_crit self)
    (encounter_start self) (encounter_last self) (target_dead self)
    (kill_time self).

Definition set_auto_track (v : bool) (self : t) : t :=
  mk (player_name self) (target_filter self) (exact_match self)
    (reset_interval self) v (target_saves self) (target_ac self)
    (target_name self) (target_ab self) (attack_bonus self) (hits self)
    (misses self) (crits self) (conceals self) (target_conceal_pct self)
    (damage_dealt self) (damage_dealt_crits self) (damage_dealt_normal self)
    (shield_damage_by_type self) (shield_damage_total self)
    (weapon_buff_damage_by_type self) (weapon_buff_damage_total self)
    (last_attack_was_player self) (damage_taken self)
    (damage_taken_by_type self) (player_pots self) (target_pots self)
    (last_player_hit_was_crit self) (last_target_hit_was_crit self)
    (encounter_start self) (encounter_last self) (target_dead self)
    (kill_time self).

Definition set_target_saves (v : option EnemySaves.t) (self : t) : t :=
  mk (player_name self) (target_filter self) (exact_match self)
    (reset_interval self) (auto_track self) v (target_ac self)
    (target_name self) (target_ab self) (attack_bonus self) (hits self)
    (misses self) (crits self) (conceals self) (target_conceal_pct self)
    (damage_dealt self) (damage_dealt_crits self) (damage_dealt_normal self)
    (shield_damage_by_type self) (shield_damage_total self)
    (weapon_buff_damage_by_type self) (weapon_buff_damage_total self)
    (last_attack_was_player self) (damage_taken self)
    (damage_taken_by_type self) (player_pots self) (target_pots self)
    (last_player_hit_was_crit self) (last_target_hit_was_crit self)
    (encounter_start self) (encounter_last self) (target_dead self)
    (kill_time self).

Definition set_target_ac (v : option EnemyAC.t) (self : t) : t :=
  mk (player_name self) (target_filter self) (exact_match self)
    (reset_interval self) (auto_track self) (target_saves self) v
    (target_name self) (target_ab self) (attack_bonus self) (hits self)
    (misses self) (crits self) (conceals self) (target_conceal_pct self)
    (damage_dealt self) (damage_dealt_crits self) (damage_dealt_normal self)
    (shield_damage_by_type self) (shield_damage_total self)
    (weapon_buff_damage_by_type self) (weapon_buff_damage_total self)
    (last_attack_was_player self) (damage_taken self)
    (damage_taken_by_type self) (player_pots self) (target_pots self)
    (last_player_hit_was_crit self) (last_target_hit_was_crit self)
    (encounter_start self) (encounter_last self) (target_dead self)
    (kill_time self).

Definition set_target_name (v : string) (self : t) : t :=
  mk (player_name self) (target_filter self) (exact_match self)
    (reset_interval self) (auto_track self) (target_saves self)
    (target_ac self) v (target_ab self) (attack_bonus self) (hits self)
    (misses self) (crits self) (conceals self) (target_conceal_pct self)
    (damage_dealt self) (damage_dealt_crits self) (damage_dealt_normal self)
    (shield_damage_by_type self) (shield_damage_total self)
    (weapon_buff_damage_by_type self) (weapon_buff_damage_total self)
    (last_attack_was_player self) (damage_taken self)
    (damage_taken_by_type self) (player_pots self) (target_pots self)
    (last_player_hit_was_crit self) (last_target_hit_was_crit self)
    (encounter_start self) (encounter_last self) (target_dead self)
    (kill_time self).

Definition set_target_ab (v : option Z) (self : t) : t :=
  mk (player_name self) (target_filter self) (exact_match self)
    (reset_interval self) (auto_track self) (target_saves self)
    (target_ac self) (target_name self) v (attack_bonus self) (hits self)
    (misses self) (crits self) (conceals self) (target_conceal_pct self)
    (damage_dealt self) (damage_dealt_crits self) (damage_dealt_normal self)
    (shield_damage_by_type self) (shield_damage_total self)
    (weapon_buff_damage_by_type self) (weapon_buff_damage_total self)
    (last_attack_was_player self) (damage_taken self)
    (damage_taken_by_type self) (player_pots self) (target_pots self)
    (last_player_hit_was_crit self) (last_target_hit_was_crit self)
    (encounter_start self) (encounter_last self) (target_dead self)
    (kill_time self).

Definition set_attack_bonus (v : AttackBonus.t) (self : t) : t :=
  mk (player_name self) (target_filter self) (exact_match self)
    (reset_interval self) (auto_track self) (target_saves self)
    (target_ac self) (target_name self) (target_ab self) v (hits self)
    (misses self) (crits self) (conceals self) (target_conceal_pct self)
    (damage_dealt self) (damage_dealt_crits self) (damage_dealt_normal self)
    (shield_damage_by_type self) (shield_damage_total self)
    (weapon_buff_damage_by_type self) (weapon_buff_damage_total self)
    (last_attack_was_player self) (damage_taken self)
    (damage_taken_by_type self) (player_pots self) (target_pots self)
    (last_player_hit_was_crit self) (last_target_hit_was_crit self)
    (encounter_start self) (encounter_last self) (target_dead self)
    (kill_time self).

Definition set_hits (v : Z) (self : t) : t :=
  mk (player_name self) (target_filter self) (exact_match self)
    (reset_interval self) (auto_track self) (target_saves self)
    (target_ac self) (target_name self) (target_ab self) (attack_bonus self)
    v (misses self) (crits self) (conceals self) (target_conceal_pct self)
    (damage_dealt self) (damage_dealt_crits self) (damage_dealt_normal self)
    (shield_damage_by_type self) (shield_damage_total self)
    (weapon_buff_damage_by_type self) (weapon_buff_damage_total self)
    (last_attack_was_player self) (damage_taken self)
    (damage_taken_by_type self) (player_pots self) (target_pots self)
    (last_player_hit_was_crit self) (last_target_hit_was_crit self)
    (encounter_start self) (encounter_last self) (target_dead self)
    (kill_time self).

Definition set_misses (v : Z) (self : t) : t :=
  mk (player_name self) (target_filter self) (exact_match self)
    (reset_interval self) (auto_track self) (target_saves self)
    (target_ac self) (target_name self) (target_ab self) (attack_bonus self)
    (hits self) v (crits self) (conceals self) (target_conceal_pct self)
    (damage_dealt self) (damage_dealt_crits self) (damage_dealt_normal self)
    (shield_damage_by_type self) (shield_damage_total self)
    (weapon_buff_damage_by_type self) (weapon_buff_damage_total self)
    (last_attack_was_player self) (damage_taken self)
    (damage_taken_by_type self) (player_pots self) (target_pots self)
    (last_player_hit_was_crit self) (last_target_hit_was_crit self)
    (encounter_start self) (encounter_last self) (target_dead self)
    (kill_time self).

Definition set_crits (v : Z) (self : t) : t :=
  mk (player_name self) (target_filter self) (exact_match self)
    (reset_interval self) (auto_track self) (target_saves self)
    (target_ac self) (target_name self) (target_ab self) (attack_bonus self)
    (hits self) (misses self) v (conceals self) (target_conceal_pct self)
    (damage_dealt self) (damage_dealt_crits self) (damage_dealt_normal self)
    (shield_damage_by_type self) (shield_damage_total self)
    (weapon_buff_damage_by_type self) (weapon_buff_damage_total self)
    (last_attack_was_player self) (damage_taken self)
    (damage_taken_by_type self) (player_pots self) (target_pots self)
    (last_player_hit_was_crit self) (last_target_hit_was_crit self)
    (encounter_start self) (encounter_last self) (target_dead self)
    (kill_time self).

Definition set_conceals (v : Z) (self : t) : t :=
  mk (player_name self) (target_filter self) (exact_match self)
    (reset_interval self) (auto_track self) (target_saves self)
    (target_ac self) (target_name self) (target_ab self) (attack_bonus self)
    (hits self) (misses self) (crits self) v (target_conceal_pct self)
    (damage_dealt self) (damage_dealt_crits self) (damage_dealt_normal self)
    (shield_damage_by_type self) (shield_damage_total self)
    (weapon_buff_damage_by_type self) (weapon_buff_damage_total self)
    (last_attack_was_player self) (damage_taken self)
    (damage_taken_by_type self) (player_pots self) (target_pots self)
    (last_player_hit_was_crit self) (last_target_hit_was_crit self)
    (encounter_start self) (encounter_last self) (target_dead self)
    (kill_time self).

Definition set_target_conceal_pct (v : option Z) (self : t) : t :=
  mk (player_name self) (target_filter self) (exact_match self)
    (reset_interval self) (auto_track self) (target_saves self)
    (target_ac self) (target_name self) (target_ab self) (attack_bonus self)
    (hits self) (misses self) (crits self) (conceals self) v
    (damage_dealt self) (damage_dealt_crits self) (damage_dealt_normal self)
    (shield_damage_by_type self) (shield_damage_total self)
    (weapon_buff_damage_by_type self) (weapon_buff_damage_total self)
    (last_attack_was_player self) (damage_taken self)
    (damage_taken_by_type self) (player_pots self) (target_pots self)
    (last_player_hit_was_crit self) (last_target_hit_was_crit self)
    (encounter_start self) (encounter_last self) (target_dead self)
    (kill_time self).

Definition set_damage_dealt (v : Z) (self : t) : t :=
  mk (player_name self) (target_filter self) (exact_match self)
    (reset_interval self) (auto_track self) (target_saves self)
    (target_ac self) (target_name self) (target_ab self) (attack_bonus self)
    (hits self) (misses self) (crits self) (conceals self)
    (target_conceal_pct self) v (damage_dealt_crits self)
    (damage_dealt_normal self) (shield_damage_by_type self)
    (shield_damage_total self) (weapon_buff_damage_by_type self)
    (weapon_buff_damage_total self) (last_attack_was_player self)
    (damage_taken self) (damage_taken_by_type self) (player_pots self)
    (target_pots self) (last_player_hit_was_crit self)
    (last_target_hit_was_crit self) (encounter_start self)
    (encounter_last self) (target_dead self) (kill_time self).

Definition set_damage_dealt_crits (v : list Z) (self : t) : t :=
  mk (player_name self) (target_filter self) (exact_match self)
    (reset_interval self) (auto_track self) (target_saves self)
    (target_ac self) (target_name self) (target_ab self) (attack_bonus self)
    (hits self) (misses self) (crits self) (conceals self)
    (target_conceal_pct self) (damage_dealt self) v
    (damage_dealt_normal self) (shield_damage_by_type self)
    (shield_damage_total self) (weapon_buff_damage_by_type self)
    (weapon_buff_damage_total self) (last_attack_was_player self)
    (damage_taken self) (damage_taken_by_type self) (player_pots self)
    (target_pots self) (last_player_hit_was_crit self)
    (last_target_hit_was_crit self) (encounter_start self)
    (encounter_last self) (target_dead self) (kill_time self).

Definition set_damage_dealt_normal (v : list Z) (self : t) : t :=
  mk (player_name self) (target_filter self) (exact_match self)
    (reset_interval self) (auto_track self) (target_saves self)
    (target_ac self) (target_name self) (target_ab self) (attack_bonus self)
    (hits self) (misses self) (crits self) (conceals self)
    (target_conceal_pct self) (damage_dealt self) (damage_dealt_crits self)
    v (shield_damage_by_type self) (shield_damage_total self)
    (weapon_buff_damage_by_type self) (weapon_buff_damage_total self)
    (last_attack_was_player self) (damage_taken self)
    (damage_taken_by_type self) (player_pots self) (target_pots self)
    (last_player_hit_was_crit self) (last_target_hit_was_crit self)
    (encounter_start self) (encounter_last self) (target_dead self)
    (kill_time self).

Definition set_shield_damage_by_type (v : gmap string Z) (self : t) : t :=
  mk (player_name self) (target_filter self) (exact_match self)
    (reset_interval self) (auto_track self) (target_saves self)
    (target_ac self) (target_name self) (target_ab self) (attack_bonus self)
    (hits self) (misses self) (crits self) (conceals self)
    (target_conceal_pct self) (damage_dealt self) (damage_dealt_crits self)
    (damage_dealt_normal self) v (shield_damage_total self)
    (weapon_buff_damage_by_type self) (weapon_buff_damage_total self)
    (last_attack_was_player self) (damage_taken self)
    (damage_taken_by_type self) (player_pots self) (target_pots self)
    (last_player_hit_was_crit self) (last_target_hit_was_crit self)
    (encounter_start self) (encounter_last self) (target_dead self)
    (kill_time self).

Definition set_shield_damage_total (v : Z) (self : t) : t :=
  mk (player_name self) (target_filter self) (exact_match self)
    (reset_interval self) (auto_track self) (target_saves self)
    (target_ac self) (target_name self) (target_ab self) (attack_bonus self)
    (hits self) (misses self) (crits self) (conceals self)
    (target_conceal_pct self) (damage_dealt self) (damage_dealt_crits self)
    (damage_dealt_normal self) (shield_damage_by_type self) v
    (weapon_buff_damage_by_type self) (weapon_buff_damage_total self)
    (last_attack_was_player self) (damage_taken self)
    (damage_taken_by_type self) (player_pots self) (target_pots self)
    (last_player_hit_was_crit self) (last_target_hit_was_crit self)
    (encounter_start self) (encounter_last self) (target_dead self)
    (kill_time self).

Definition set_weapon_buff_damage_by_type (v : gmap string Z) (self : t) : t :=
  mk (player_name self) (target_filter self) (exact_match self)
    (reset_interval self) (auto_track self) (target_saves self)
    (target_ac self) (target_name self) (target_ab self) (attack_bonus self)
    (hits self) (misses self) (crits self) (conceals self)
    (target_conceal_pct self) (damage_dealt self) (damage_dealt_crits self)
    (damage_dealt_normal self) (shield_damage_by_type self)
    (shield_damage_total self) v (weapon_buff_damage_total self)
    (last_attack_was_player self) (damage_taken self)
    (damage_taken_by_type self) (player_pots self) (target_pots self)
    (last_player_hit_was_crit self) (last_target_hit_was_crit self)
    (encounter_start self) (encounter_last self) (target_dead self)
    (kill_time self).

Definition set_weapon_buff_damage_total (v : Z) (self : t) : t :=
  mk (player_name self) (target_filter self) (exact_match self)
    (reset_interval self) (auto_track self) (target_saves self)
    (target_ac self) (target_name self) (target_ab self) (attack_bonus self)
    (hits self) (misses self) (crits self) (conceals self)
    (target_conceal_pct self) (damage_dealt self) (damage_dealt_crits self)
    (damage_dealt_normal self) (shield_damage_by_type self)
    (shield_damage_total self) (weapon_buff_damage_by_type self) v
    (last_attack_was_player self) (damage_taken self)
    (damage_taken_by_type self) (player_pots self) (target_pots self)
    (last_player_hit_was_crit self) (last_target_hit_was_crit self)
    (encounter_start self) (encounter_last self) (target_dead self)
    (kill_time self).

Definition set_last_attack_was_player (v : bool) (self : t) : t :=
  mk (player_name self) (target_filter self) (exact_match self)
    (reset_interval self) (auto_track self) (target_saves self)
    (target_ac self) (target_name self) (target_ab self) (attack_bonus self)
    (hits self) (misses self) (crits self) (conceals self)
    (target_conceal_pct self) (damage_dealt self) (damage_dealt_crits self)
    (damage_dealt_normal self) (shield_damage_by_type self)
    (shield_damage_total self) (weapon_buff_damage_by_type self)
    (weapon_buff_damage_total self) v (damage_taken self)
    (damage_taken_by_type self) (player_pots self) (target_pots self)
    (last_player_hit_was_crit self) (last_target_hit_was_crit self)
    (encounter_start self) (encounter_last self) (target_dead self)
    (kill_time self).

Definition set_damage_taken (v : list Z) (self : t) : t :=
  mk (player_name self) (target_filter self) (exact_match self)
    (reset_interval self) (auto_track self) (target_saves self)
    (target_ac self) (target_name self) (target_ab self) (attack_bonus self)
    (hits self) (misses self) (crits self) (conceals self)
    (target_conceal_pct self) (damage_dealt self) (damage_dealt_crits self)
    (damage_dealt_normal self) (shield_damage_by_type self)
    (shield_damage_total self) (weapon_buff_damage_by_type self)
    (weapon_buff_damage_total self) (last_attack_was_player self) v
    (damage_taken_by_type self) (player_pots self) (target_pots self)
    (last_player_hit_was_crit self) (last_target_hit_was_crit self)
    (encounter_start self) (encounter_last self) (target_dead self)
    (kill_time self).

Definition set_damage_taken_by_type (v : gmap string (list Z)) (self : t) : t :=
  mk (player_name self) (target_filter self) (exact_match self)
    (reset_interval self) (auto_track self) (target_saves self)
    (target_ac self) (target_name self) (target_ab self) (attack_bonus self)
    (hits self) (misses self) (crits self) (conceals self)
    (target_conceal_pct self) (damage_dealt self) (damage_dealt_crits self)
    (damage_dealt_normal self) (shield_damage_by_type self)
    (shield_damage_total self) (weapon_buff_damage_by_type self)
    (weapon_buff_damage_total self) (last_attack_was_player self)
    (damage_taken self) v (player_pots self) (target_pots self)
    (last_player_hit_was_crit self) (last_target_hit_was_crit self)
    (encounter_start self) (encounter_last self) (target_dead self)
    (kill_time self).

Definition set_player_pots (v : Z) (self : t) : t :=
  mk (player_name self) (target_filter self) (exact_match self)
    (reset_interval self) (auto_track self) (target_saves self)
    (target_ac self) (target_name self) (target_ab self) (attack_bonus self)
    (hits self) (misses self) (crits self) (conceals self)
    (target_conceal_pct self) (damage_dealt self) (damage_dealt_crits self)
    (damage_dealt_normal self) (shield_damage_by_type self)
    (shield_damage_total self) (weapon_buff_damage_by_type self)
    (weapon_buff_damage_total self) (last_attack_was_player self)
    (damage_taken self) (damage_taken_by_type self) v (target_pots self)
    (last_player_hit_was_crit self) (last_target_hit_was_crit self)
    (encounter_start self) (encounter_last self) (target_dead self)
    (kill_time self).

Definition set_target_pots (v : Z) (self : t) : t :=
  mk (player_name self) (target_filter self) (exact_match self)
    (reset_interval self) (auto_track self) (target_saves self)
    (target_ac self) (target_name self) (target_ab self) (attack_bonus self)
    (hits self) (misses self) (crits self) (conceals self)
    (target_conceal_pct self) (damage_dealt self) (damage_dealt_crits self)
    (damage_dealt_normal self) (shield_damage_by_type self)
    (shield_damage_total self) (weapon_buff_damage_by_type self)
    (weapon_buff_damage_total self) (last_attack_was_player self)
    (damage_taken self) (damage_taken_by_type self) (player_pots self) v
    (last_player_hit_was_crit self) (last_target_hit_was_crit self)
    (encounter_start self) (encounter_last self) (target_dead self)
    (kill_time self).

Definition set_last_player_hit_was_crit (v : bool) (self : t) : t :=
  mk (player_name self) (target_filter self) (exact_match self)
    (reset_interval self) (auto_track self) (target_saves self)
    (target_ac self) (target_name self) (target_ab self) (attack_bonus self)
    (hits self) (misses self) (crits self) (conceals self)
    (target_conceal_pct self) (damage_dealt self) (damage_dealt_crits self)
    (damage_dealt_normal self) (shield_damage_by_type self)
    (shield_damage_total self) (weapon_buff_damage_by_type self)
    (weapon_buff_damage_total self) (last_attack_was_player self)
    (damage_taken self) (damage_taken_by_type self) (player_pots self)
    (target_pots self) v (last_target_hit_was_crit self)
    (encounter_start self) (encounter_last self) (target_dead self)
    (kill_time self).

Definition set_last_target_hit_was_crit (v : bool) (self : t) : t :=
  mk (player_name self) (target_filter self) (exact_match self)
    (reset_interval self) (auto_track self) (target_saves self)
    (target_ac self) (target_name self) (target_ab self) (attack_bonus self)
    (hits self) (misses self) (crits self) (conceals self)
    (target_conceal_pct self) (damage_dealt self) (damage_dealt_crits self)
    (damage_dealt_normal self) (shield_damage_by_type self)
    (shield_damage_total self) (weapon_buff_damage_by_type self)
    (weapon_buff_damage_total self) (last_attack_was_player self)
    (damage_taken self) (damage_taken_by_type self) (player_pots self)
    (target_pots self) (last_player_hit_was_crit self) v
    (encounter_start self) (encounter_last self) (target_dead self)
    (kill_time self).

Definition set_encounter_start (v : option Z) (self : t) : t :=
  mk (player_name self) (target_filter self) (exact_match self)
    (reset_interval self) (auto_track self) (target_saves self)
    (target_ac self) (target_name self) (target_ab self) (attack_bonus self)
    (hits self) (misses self) (crits self) (conceals self)
    (target_conceal_pct self) (damage_dealt self) (damage_dealt_crits self)
    (damage_dealt_normal self) (shield_damage_by_type self)
    (shield_damage_total self) (weapon_buff_damage_by_type self)
    (weapon_buff_damage_total self) (last_attack_was_player self)
    (damage_taken self) (damage_taken_by_type self) (player_pots self)
    (target_pots self) (last_player_hit_was_crit self)
    (last_target_hit_was_crit self) v (encounter_last self)
    (target_dead self) (kill_time self).

Definition set_encounter_last (v : option Z) (self : t) : t :=
  mk (player_name self) (target_filter self) (exact_match self)
    (reset_interval self) (auto_track self) (target_saves self)
    (target_ac self) (target_name self) (target_ab self) (attack_bonus self)
    (hits self) (misses self) (crits self) (conceals self)
    (target_conceal_pct self) (damage_dealt self) (damage_dealt_crits self)
    (damage_dealt_normal self) (shield_damage_by_type self)
    (shield_damage_total self) (weapon_buff_damage_by_type self)
    (weapon_buff_damage_total self) (last_attack_was_player self)
    (damage_taken self) (damage_taken_by_type self) (player_pots self)
    (target_pots self) (last_player_hit_was_crit self)
    (last_target_hit_was_crit self) (encounter_start self) v
    (target_dead self) (kill_time self).

Definition set_target_dead (v : bool) (self : t) : t :=
  mk (player_name self) (target_filter self) (exact_match self)
    (reset_interval self) (auto_track self) (target_saves self)
    (target_ac self) (target_name self) (target_ab self) (attack_bonus self)
    (hits self) (misses self) (crits self) (conceals self)
    (target_conceal_pct self) (damage_dealt self) (damage_dealt_crits self)
    (damage_dealt_normal self) (shield_damage_by_type self)
    (shield_damage_total self) (weapon_buff_damage_by_type self)
    (weapon_buff_damage_total self) (last_attack_was_player self)
    (damage_taken self) (damage_taken_by_type self) (player_pots self)
    (target_pots self) (last_player_hit_was_crit self)
    (last_target_hit_was_crit self) (encounter_start self)
    (encounter_last self) v (kill_time self).

Definition set_kill_time (v : option Z) (self : t) : t :=
  mk (player_name self) (target_filter self) (exact_match self)
    (reset_interval self) (auto_track self) (target_saves self)
    (target_ac self) (target_name self) (target_ab self) (attack_bonus self)
    (hits self) (misses self) (crits self) (conceals self)
    (target_conceal_pct self) (damage_dealt self) (damage_dealt_crits self)
    (damage_dealt_normal self) (shield_damage_by_type self)
    (shield_damage_total self) (weapon_buff_damage_by_type self)
    (weapon_buff_damage_total self) (last_attack_was_player self)
    (damage_taken self) (damage_taken_by_type self) (player_pots self)
    (target_pots self) (last_player_hit_was_crit self)
    (last_target_hit_was_crit self) (encounter_start self)
    (encounter_last self) (target_dead self) v.

(** [__init__]; the attack-bonus window is built at time [now]. *)
Definition init (now : Z) (player_name target_filter : string)
    (exact_match : bool) (reset_interval : Z) (auto_track : bool) : t :=
  {| player_name := player_name;
     target_filter := Py.lower target_filter;
     exact_match := exact_match;
     reset_interval := reset_interval;
     auto_track := auto_track;
     target_saves := None;
     target_ac := None;
     target_name := "";
     target_ab := None;
     attack_bonus := AttackBonus.init now;
     hits := 0;
     misses := 0;
     crits := 0;
     conceals := 0;
     target_conceal_pct := None;
     damage_dealt := 0;
     damage_dealt_crits := [];
     damage_dealt_normal := [];
     shield_damage_by_type := ∅;
     shield_damage_total := 0;
     weapon_buff_damage_by_type := ∅;
     weapon_buff_damage_total := 0;
     last_attack_was_player := false;
     damage_taken := [];
     damage_taken_by_type := ∅;
     player_pots := 0;
     target_pots := 0;
     last_player_hit_was_crit := false;
     last_target_hit_was_crit := false;
     encounter_start := None;
     encounter_last := None;
     target_dead := false;
     kill_time := None |}.

Definition _strip_prefix (line : string) : string :=
  Py.strip (Re.sub_anchored pat_prefix line).

Definition _is_player (self : t) (name : string) : bool :=
  Py.truthy (player_name self)
  && Py.contains (Py.lower (player_name self)) (Py.lower name).

Definition _matches_target (self : t) (name : string) : bool :=
  let name := Py.lower (Py.rstrip ".!," (Py.strip name)) in
  if auto_track self then
    if _is_player self name then false
    else if Py.truthy (target_name self)
    then String.eqb (Py.lower (target_name self)) name
    else true
  else if negb (Py.truthy (target_filter self)) then false
  else if exact_match self then String.eqb (target_filter self) name
  else Py.contains (target_filter self) name.

Definition _set_target (name : string) (self : t) : t :=
  if negb (Py.truthy (target_name self)) then
    let n := Py.rstrip ".!," (Py.strip name) in
    set_target_ac (Some (EnemyAC.init n))
      (set_target_saves (Some (EnemySaves.init n))
         (set_target_name n self))
  else self.

Definition _update_encounter_time (now : Z) (self : t) : t :=
  let self :=
    match encounter_start self with
    | None => set_encounter_start (Some now) self
    | Some _ => self
    end in
  set_encounter_last (Some now) self.

Definition reset (self : t) : t :=
  {| player_name := player_name self;
     target_filter := target_filter self;
     exact_match := exact_match self;
     reset_interval := reset_interval self;
     auto_track := auto_track self;
     target_saves := None;
     target_ac := None;
     target_name := "";
     target_ab := None;
     attack_bonus := attack_bonus self;
     hits := 0;
     misses := 0;
     crits := 0;
     conceals := 0;
     target_conceal_pct := None;
     damage_dealt := 0;
     damage_dealt_crits := [];
     damage_dealt_normal := [];
     shield_damage_by_type := ∅;
     shield_damage_total := 0;
     weapon_buff_damage_by_type := ∅;
     weapon_buff_damage_total := 0;
     last_attack_was_player := false;
     damage_taken := [];
     damage_taken_by_type := ∅;
     player_pots := 0;
     target_pots := 0;
     last_player_hit_was_crit := false;
     last_target_hit_was_crit := false;
     encounter_start := None;
     encounter_last := None;
     target_dead := false;
     kill_time := None |}.

(** [m.group(g)] used as a string, and [int(m.group(g))]. *)
Definition group_str (m : Re.rmatch) (g : string) : result string :=
  let! o := Re.group m g in
  match o with
  | Some w => Ok w
  | None => Raise AttributeError
  end.

Definition group_int (m : Re.rmatch) (g : string) : result Z :=
  let! o := Re.group m g in
  match o with
  | Some w => Py.int w
  | None => Raise TypeError
  end.

(** [int(x) if x else None] *)
Definition int_if (o : option string) : result (option Z) :=
  match o with
  | Some w => if Py.truthy w then let! n := Py.int w in Ok (Some n)
              else Ok None
  | None => Ok None
  end.

Fixpoint mapM {A B : Type} (f : A -> result B) (l : list A) : result (list B) :=
  match l with
  | [] => Ok []
  | x :: l' => let! y := f x in let! ys := mapM f l' in Ok (y :: ys)
  end.

(** [if k not in d: d[k] = 0] and then [d[k] += amount] *)
Definition dict_add (k : string) (amount : Z) (d : gmap string Z)
    : result (gmap string Z) :=
  let d := match d !! k with
           | None => <[k := 0]> d
           | Some _ => d
           end in
  match d !! k with
  | Some v => Ok (<[k := v + amount]> d)
  | None => Raise KeyError
  end.

(** [if k not in d: d[k] = []] and then [d[k].append(x)] *)
Definition dict_append (k : string) (x : Z) (d : gmap string (list Z))
    : result (gmap string (list Z)) :=
  let d := match d !! k with
           | None => <[k := []]> d
           | Some _ => d
           end in
  match d !! k with
  | Some l => Ok (<[k := l ++ [x]]> d)
  | None => Raise KeyError
  end.

(** *** [parse_line], lines 286 to 298: the three attack forms in order.
    The result is [match], [conceal] and [is_conceal_pending]. *)
Definition find_attack (line : string)
    : result (option Re.rmatch * option Z * bool) :=
  match Re.search pat_attack_conceal line with
  | Some m => let! c := group_int m "conceal" in Ok (Some m, Some c, false)
  | None =>
      match Re.search pat_attack_conceal_pending line with
      | Some m => let! c := group_int m "conceal" in Ok (Some m, Some c, true)
      | None => Ok (Re.search pat_attack line, None, false)
      end
  end.

(** *** Lines 301 to 315: what is read from an attack match. *)
Record attack : Type := {
  attacker : string;
  target : string;
  outcome : string;
  roll : option Z;
  bonus : option Z;
  total : option Z
}.

Definition read_attack (m : Re.rmatch) : result attack :=
  let! a := group_str m "attacker" in
  let! tg := group_str m "target" in
  let! oc :=
    if Re.has_group "outcome" m then
      let! o := Re.group m "outcome" in
      Ok (match o with
          | Some w => if Py.truthy w then w else ""
          | None => ""
          end)
    else Ok "" in
  let! roll_str := Re.group m "roll" in
  let! bonus_str := Re.group m "bonus" in
  let! total_str := Re.group m "total" in
  let! r := int_if roll_str in
  let! b := int_if bonus_str in
  let! tot := int_if total_str in
  Ok {| attacker := Py.strip a; target := Py.strip tg;
        outcome := Py.lower oc; roll := r; bonus := b; total := tot |}.

Definition is_hit (a : attack) : bool :=
  Py.contains "hit" (outcome a) && negb (Py.contains "miss" (outcome a)).

Definition is_crit (a : attack) : bool := Py.contains "critical" (outcome a).

Definition is_miss (a : attack) : bool :=
  String.eqb (outcome a) "miss" || String.eqb (outcome a) "parried"
  || String.eqb (outcome a) "resisted".

(** [roll == 1 if roll else False] *)
Definition was_nat1 (a : attack) : bool :=
  match roll a with
  | Some r => if r =? 0 then false else r =? 1
  | None => false
  end.

(** *** Lines 317 to 341: the player attacks the target. *)
Definition player_attack (now : Z) (a : attack) (conceal : option Z)
    (is_conceal_pending : bool) (self : t) : result t :=
  let self := _set_target (target a) self in
  let self := _update_encounter_time now self in
  let self := match conceal with
              | Some c => set_target_conceal_pct (Some c) self
              | None => self
              end in
  let! self :=
    match bonus a with
    | Some b =>
        let! ab := AttackBonus.update now now b (attack_bonus self) in
        Ok (set_attack_bonus ab self)
    | None => Ok self
    end in
  if negb is_conceal_pending then
    if is_hit a then
      let self := set_hits (hits self + 1) self in
      let self := set_last_attack_was_player true self in
      let self :=
        if is_crit a
        then set_last_player_hit_was_crit true
               (set_crits (crits self + 1) self)
        else set_last_player_hit_was_crit false self in
      match total a, target_ac self with
      | Some tot, Some ac =>
          Ok (set_target_ac (Some (EnemyAC.record_hit tot ac)) self)
      | _, _ => Ok self
      end
    else if is_miss a then
      let self := set_misses (misses self + 1) self in
      match total a, target_ac self with
      | Some tot, Some ac =>
          Ok (set_target_ac
                (Some (EnemyAC.record_miss tot (was_nat1 a) ac)) self)
      | _, _ => Ok self
      end
    else Ok self
  else Ok self.

(** *** Lines 343 to 354: the target attacks the player. *)
Definition target_attack (now : Z) (a : attack) (self : t) : t :=
  let self := _set_target (attacker a) self in
  let self := _update_encounter_time now self in
  let self :=
    if is_hit a then
      let self := set_last_attack_was_player false self in
      match bonus a with
      | Some b =>
          match target_ab self with
          | None => set_target_ab (Some b) self
          | Some old =>
              if b >? old then set_target_ab (Some b) self else self
          end
      | None => self
      end
    else self in
  if is_crit a then set_last_target_hit_was_crit true self
  else if is_hit a then set_last_target_hit_was_crit false self
  else self.

(** *** Lines 300 to 354 *)
Definition parse_attack (now : Z) (m : Re.rmatch) (conceal : option Z)
    (is_conceal_pending : bool) (self : t) : result t :=
  let! a := read_attack m in
  if _is_player self (attacker a) && _matches_target self (target a)
  then player_attack now a conceal is_conceal_pending self
  else if _matches_target self (attacker a) && _is_player self (target a)
  then Ok (target_attack now a self)
  else Ok self.

(** *** Lines 357 to 367: concealment reported without a roll. *)
Definition parse_conceal_miss (now : Z) (line : string) (self : t) : result t :=
  match Re.search pat_conceal_miss line with
  | Some cmatch =>
      let! a := group_str cmatch "attacker" in
      let! tg := group_str cmatch "target" in
      let! conceal := group_int cmatch "conceal" in
      if _is_player self (Py.strip a) && _matches_target self (Py.strip tg)
      then
        let self := _set_target (Py.strip tg) self in
        let self := _update_encounter_time now self in
        let self := set_target_conceal_pct (Some conceal) self in
        Ok (set_conceals (conceals self + 1) self)
      else Ok self
  | None => Ok self
  end.

(** *** Lines 369 to 386: a saving throw. *)
Definition parse_save (now : Z) (line : string) (self : t) : result t :=
  match Re.search pat_save line with
  | Some m =>
      let! tg := group_str m "target" in
      let! st := group_str m "save_type" in
      let save_type := Py.lower st in
      let! b := group_int m "bonus" in
      let save_key :=
        if String.eqb save_type "fort" || String.eqb save_type "fortitude"
        then "fort"
        else if String.eqb save_type "reflex" then "ref" else "will" in
      if _matches_target self (Py.strip tg) then
        let self := _set_target (Py.strip tg) self in
        let self := _update_encounter_time now self in
        match target_saves self with
        | Some s =>
            Ok (set_target_saves
                  (Some (EnemySaves.update_save save_key b s)) self)
        | None => Ok self
        end
      else Ok self
  | None => Ok self
  end.

(** *** Lines 403 to 407 and 438 to 440: the components of a breakdown,
    each a type name in title case and an amount. *)
Definition damage_components (breakdown : string) : result (list (string * Z)) :=
  mapM (fun dmg_match =>
          let! dmg_amount := group_int dmg_match "1" in
          let! ty := group_str dmg_match "2" in
          Ok (Py.title ty, dmg_amount))
       (Re.finditer pat_damage_type breakdown).

(** Lines 399 to 411: [single_type_info], or [None] when
    [is_single_type] is false. *)
Definition single_type (breakdown : option string)
    : result (option (string * Z)) :=
  match breakdown with
  | Some bd =>
      if Py.truthy bd then
        let! comps := damage_components bd in
        let damage_types := List.filter (fun x => snd x >? 0) comps in
        if Nat.eqb (length damage_types) 1 then
          match damage_types with
          | x :: _ => Ok (Some x)
          | [] => Raise IndexError
          end
        else Ok None
      else Ok None
  | None => Ok None
  end.

(** *** Lines 395 to 430: damage dealt by the player. *)
Definition damage_dealt_by_player (now : Z) (tg : string) (amount : Z)
    (breakdown : option string) (self : t) : result t :=
  let self := _set_target tg self in
  let self := _update_encounter_time now self in
  let! single_type_info := single_type breakdown in
  match single_type_info with
  | Some (dtype, _) =>
      if last_attack_was_player self then
        let self := set_weapon_buff_damage_total
                      (weapon_buff_damage_total self + amount) self in
        let! d := dict_add dtype amount (weapon_buff_damage_by_type self) in
        Ok (set_weapon_buff_damage_by_type d self)
      else
        let self := set_shield_damage_total
                      (shield_damage_total self + amount) self in
        let! d := dict_add dtype amount (shield_damage_by_type self) in
        Ok (set_shield_damage_by_type d self)
  | None =>
      let self := set_damage_dealt (damage_dealt self + amount) self in
      if last_player_hit_was_crit self
      then Ok (set_damage_dealt_crits (damage_dealt_crits self ++ [amount]) self)
      else Ok (set_damage_dealt_normal
                 (damage_dealt_normal self ++ [amount]) self)
  end.

Fixpoint append_all (l : list (string * Z)) (d : gmap string (list Z))
    : result (gmap string (list Z)) :=
  match l with
  | [] => Ok d
  | (dmg_type, dmg_amount) :: l' =>
      let! d := dict_append dmg_type dmg_amount d in append_all l' d
  end.

(** *** Lines 432 to 444: damage taken from the target. *)
Definition damage_taken_by_player (now : Z) (att : string) (amount : Z)
    (breakdown : option string) (self : t) : result t :=
  let self := _set_target att self in
  let self := _update_encounter_time now self in
  let self := set_damage_taken (damage_taken self ++ [amount]) self in
  match breakdown with
  | Some bd =>
      if Py.truthy bd then
        let! comps := damage_components bd in
        let! d := append_all comps (damage_taken_by_type self) in
        Ok (set_damage_taken_by_type d self)
      else Ok self
  | None => Ok self
  end.

(** *** Lines 388 to 444 *)
Definition parse_damage (now : Z) (line : string) (self : t) : result t :=
  match Re.search pat_damage line with
  | Some m =>
      let! a := group_str m "attacker" in
      let! tg := group_str m "target" in
      let! amount := group_int m "amount" in
      let! breakdown := Re.group m "breakdown" in
      if _is_player self (Py.strip a) && _matches_target self (Py.strip tg)
      then damage_dealt_by_player now (Py.strip tg) amount breakdown self
      else if _matches_target self (Py.strip a)
              && _is_player self (Py.strip tg)
      then damage_taken_by_player now (Py.strip a) amount breakdown self
      else Ok self
  | None => Ok self
  end.

(** *** Lines 446 to 454 *)
Definition parse_potion (now : Z) (line : string) (self : t) : result t :=
  match Re.search pat_potion line with
  | Some m =>
      let! u := group_str m "user" in
      let user := Py.strip u in
      if _is_player self user
      then Ok (set_player_pots (player_pots self + 1) self)
      else if _matches_target self user then
        let self := _set_target user self in
        let self := _update_encounter_time now self in
        Ok (set_target_pots (target_pots self + 1) self)
      else Ok self
  | None => Ok self
  end.

(** *** Lines 456 to 462 *)
Definition parse_undead_heal (now : Z) (line : string) (self : t) : result t :=
  match Re.search pat_undead_heal line with
  | Some m =>
      let! c := group_str m "caster" in
      let caster := Py.strip c in
      if _matches_target self caster then
        let self := _set_target caster self in
        let self := _update_encounter_time now self in
        Ok (set_target_pots (target_pots self + 1) self)
      else Ok self
  | None => Ok self
  end.

(** *** Lines 464 to 470 *)
Definition parse_kill (now : Z) (line : string) (self : t) : result t :=
  match Re.search pat_kill line with
  | Some m =>
      let! k := group_str m "killer" in
      let! tg := group_str m "target" in
      let killer := Py.strip k in
      let tg := Py.rstrip ".!," (Py.strip tg) in
      if _is_player self killer && _matches_target self tg
      then Ok (set_kill_time (Some now) (set_target_dead true self))
      else Ok self
  | None => Ok self
  end.

(** The text the patterns are tried on: line 282. *)
Definition normalize (line : string) : string :=
  _strip_prefix (Py.strip line).

(** Lines 286 to 354: the attack forms. *)
Definition attack_step (now : Z) (line : string) (self : t) : result t :=
  let! found := find_attack line in
  match found with
  | (Some m, conceal, is_conceal_pending) =>
      parse_attack now m conceal is_conceal_pending self
  | (None, _, _) => parse_conceal_miss now line self
  end.

(** [parse_line] at clock reading [now]; the result is the tracker after
    the call. *)
Definition parse_line (now : Z) (line : string) (self : t) : result t :=
  let line := normalize line in
  if negb (Py.truthy line) then Ok self
  else
    let! self := attack_step now line self in
    let! self := parse_save now line self in
    let! self := parse_damage now line self in
    let! self := parse_potion now line self in
    let! self := parse_undead_heal now line self in
    parse_kill now line self.

(** The lines of a log in order, line [i] read at time [clock i]. *)
Fixpoint parse_lines (lines : list (Z * string)) (self : t) : result t :=
  match lines with
  | [] => Ok self
  | (now, line) :: rest =>
      let! self := parse_line now line self in parse_lines rest self
  end.

End NWNCombatTracker.

(* ================================================================== *)
(** ** Log file names and damage colours *)

Module PyStr.

Import Py.

(** One character of [str.isdigit]: 0 to 9 and the superscripts U+00B2,
    U+00B3 and U+00B9. *)
Definition isdigit_char (a : ascii) : bool :=
  let n := code a in
  ((48 <=? n) && (n <=? 57) || (n =? 178) || (n =? 179) || (n =? 185))%N.

(** [s.isdigit()]: at least one character, all of them digits. *)
Definition isdigit_l (l : chars) : bool :=
  match l with
  | [] => false
  | _ :: _ => forallb isdigit_char l
  end.

Definition isdigit (s : string) : bool := isdigit_l (list_ascii_of_string s).

(** [s.startswith(p)] and [s.endswith(p)] *)
Definition startswith (p s : string) : bool :=
  is_prefix (list_ascii_of_string p) (list_ascii_of_string s).

Definition endswith (p s : string) : bool :=
  is_prefix (rev (list_ascii_of_string p)) (rev (list_ascii_of_string s)).

(** [s[n:]] and [s[:-n]] (for [n] above 0) *)
Definition from (n : nat) (s : string) : string :=
  string_of_list_ascii (skipn n (list_ascii_of_string s)).

Definition drop_last (n : nat) (s : string) : string :=
  string_of_list_ascii
    (firstn (length (list_ascii_of_string s) - n) (list_ascii_of_string s)).

(** [len(s)] *)
Definition len (s : string) : nat := length (list_ascii_of_string s).

End PyStr.

Definition is_nwn_log_file (filename : string) : bool :=
  let name_lower := Py.lower filename in
  if PyStr.startswith "nwclientlog" name_lower then
    let remainder := PyStr.from 11 name_lower in
    if String.eqb remainder "" || String.eqb remainder ".txt" then true
    else if PyStr.isdigit remainder then true
    else if Nat.ltb 4 (PyStr.len remainder)
            && PyStr.isdigit (PyStr.drop_last 4 remainder)
            && PyStr.endswith ".txt" remainder
    then true
    else false
  else false.

(** [DAMAGE_TYPE_COLORS], in the order of the source. *)
Definition DAMAGE_TYPE_COLORS : list (string * string) :=
  [("fire", "dmg_fire"); ("cold", "dmg_cold"); ("acid", "dmg_acid");
   ("negative", "dmg_negative"); ("divine", "dmg_divine");
   ("elec", "dmg_electrical"); ("magic", "dmg_magical");
   ("pure", "dmg_pure"); ("sonic", "dmg_sonic"); ("posi", "dmg_positive");
   ("phys", "dmg_physical")]%string.

(** The loop of [_get_dmg_color] over the items of a table. *)
Fixpoint first_color (items : list (string * string)) (dtype_lower : string)
    : string :=
  match items with
  | [] => "value"
  | (key, color) :: rest =>
      if Py.contains key dtype_lower then color
      else first_color rest dtype_lower
  end.

Definition _get_dmg_color (dtype : string) : string :=
  first_color DAMAGE_TYPE_COLORS (Py.lower dtype).

(* ================================================================== *)
(** ** [NWNTrackerGUI]: what the window does to the tracker *)

Module NWNTrackerGUI.

Import NWNCombatTracker.

(** Lines 952 to 959 of [_update_display], the lock handoff: the
    assignments to the tracker; [target_var] is the text of the target
    field. *)
Definition _update_display (target_var : string) (self : t) : t :=
  if auto_track self && Py.truthy (target_name self)
     && negb (Py.truthy target_var)
  then
    let self := set_auto_track false self in
    let self := set_exact_match true self in
    set_target_filter (Py.lower (target_name self)) self
  else self.

(** Lines 918 and 919 of [_new_target]. *)
Definition _new_target (self : t) : t := set_auto_track true (reset self).

End NWNTrackerGUI.

(* ================================================================== *)
(** ** Definitions used to state the properties *)

(** A recorded outcome of a player attack, as the AC estimator sees it. *)
Inductive ac_outcome : Type :=
| AcHit (total : Z)
| AcMiss (total : Z) (was_nat1 : bool).

Definition ac_record (ac : EnemyAC.t) (o : ac_outcome) : EnemyAC.t :=
  match o with
  | AcHit total => EnemyAC.record_hit total ac
  | AcMiss total n1 => EnemyAC.record_miss total n1 ac
  end.

Definition ac_record_all (l : list ac_outcome) (ac : EnemyAC.t) : EnemyAC.t :=
  fold_left ac_record l ac.




Definition is_max_of (l : list Z) (m : option Z) : Prop :=
  match m with
  | None => l = []
  | Some v => In v l /\ Forall (fun x => x <= v) l
  end.

(** A bound tightens: once known it stays known, [min_hit] moves down and
    [max_miss] moves up. *)
Definition min_hit_tightens (before after : option Z) : Prop :=
  match before, after with
  | None, _ => True
  | Some b, Some a => a <= b
  | Some _, None => False
  end.

Definition max_miss_tightens (before after : option Z) : Prop :=
  match before, after with
  | None, _ => True
  | Some b, Some a => b <= a
  | Some _, None => False
  end.

(** The calls made on an [AttackBonus] and the clock readings they take. *)
Inductive ab_call : Type :=
| AbUpdate (now now' : Z) (bonus : Z)
| AbRefresh (now : Z).

Definition ab_apply (ab : AttackBonus.t) (c : ab_call) : result AttackBonus.t :=
  match c with
  | AbUpdate now now' bonus => AttackBonus.update now now' bonus ab
  | AbRefresh now => AttackBonus.refresh now ab
  end.

Fixpoint ab_run (cs : list ab_call) (ab : AttackBonus.t) : result AttackBonus.t :=
  match cs with
  | [] => Ok ab
  | c :: cs' => let! ab := ab_apply ab c in ab_run cs' ab
  end.

(** The observations the calls record, oldest first. *)
Fixpoint observations (cs : list ab_call) : list (Z * Z) :=
  match cs with
  | [] => []
  | AbUpdate now _ bonus :: cs' => (now, bonus) :: observations cs'
  | AbRefresh _ :: cs' => observations cs'
  end.

(** The clock never runs backwards over the calls, starting at [t]. *)
Fixpoint clock_ok (t : Z) (cs : list ab_call) : Prop :=
  match cs with
  | [] => True
  | AbUpdate now now' _ :: cs' => t <= now /\ now <= now' /\ clock_ok now' cs'
  | AbRefresh now :: cs' => t <= now /\ clock_ok now cs'
  end.

(** The last clock reading of the calls ([t] when there is none). *)
Fixpoint last_reading (t : Z) (cs : list ab_call) : Z :=
  match cs with
  | [] => t
  | AbUpdate _ now' _ :: cs' => last_reading now' cs'
  | AbRefresh now :: cs' => last_reading now cs'
  end.

(** The observations newer than [t - window]. *)
Definition in_window (window t : Z) (obs : list (Z * Z)) : list (Z * Z) :=
  List.filter (fun x => fst x >? t - AttackBonus.timedelta_seconds window) obs.

(** *** What a pattern matches and captures *)

(** The texts a pattern matches. *)
Fixpoint lang (r : Re.re) (w : Py.chars) : Prop :=
  match r with
  | Re.Eps => w = []
  | Re.Lit l => Py.lower_l w = Py.lower_l (list_ascii_of_string l)
  | Re.Cls p => exists a, w = [a] /\ p a = true
  | Re.Seq r1 r2 => exists w1 w2, w = w1 ++ w2 /\ lang r1 w1 /\ lang r2 w2
  | Re.Alt r1 r2 => lang r1 w \/ lang r2 w
  | Re.Rep _ lo p => (lo <= length w)%nat /\ forallb p w = true
  | Re.Grp _ r' => lang r' w
  | Re.Eos => w = []
  end.

(** The groups that take part in every match of a pattern: those outside
    any alternative. *)
Fixpoint mandatory (r : Re.re) : list string :=
  match r with
  | Re.Seq r1 r2 => mandatory r1 ++ mandatory r2
  | Re.Grp g r' => g :: mandatory r'
  | _ => []
  end.

(** Every group of [r] captures only texts that satisfy [P]. *)
Fixpoint groups_ok (P : string -> string -> Prop) (r : Re.re) : Prop :=
  match r with
  | Re.Seq r1 r2 | Re.Alt r1 r2 => groups_ok P r1 /\ groups_ok P r2
  | Re.Grp g r' =>
      (forall w, lang r' w -> P g (string_of_list_ascii w)) /\ groups_ok P r'
  | _ => True
  end.

Definition caps_ok (P : string -> string -> Prop) (c : Re.caps) : Prop :=
  Forall (fun gw => P (fst gw) (snd gw)) c.

(** The groups that are read with [int]. *)
Definition numeric_group (g : string) : bool :=
  existsb (String.eqb g) ["roll"; "bonus"; "total"; "conceal"; "amount"; "dc"; "1"]%string.

(** A numeric group holds a text that [int] accepts. *)
Definition cap_shape (g w : string) : Prop :=
  if numeric_group g then exists n, Py.int w = Ok n else True.

(** A match object of pattern [r] as [search] builds it. *)
Definition match_ok (r : Re.re) (m : Re.rmatch) : Prop :=
  Re.m_names m = Re.names r
  /\ caps_ok cap_shape (Re.m_caps m)
  /\ Forall (fun g => Re.lookup_cap g (Re.m_caps m) <> None) (mandatory r).

(** A match object that [find_attack] can return: one of the three
    attack patterns built it. *)
Definition attack_match_ok (m : Re.rmatch) : Prop :=
  match_ok pat_attack_conceal m \/ match_ok pat_attack_conceal_pending m
  \/ match_ok pat_attack m.

(** *** What a line says

    The readings of [parse_line] taken apart from what it does with
    them: for each kind of line, the names and numbers the code reads
    from the text ([None] when the pattern does not match). *)

Section Readings.

Import NWNCombatTracker.

(** Lines 286 to 315: the attack read from the first attack form that
    matches, with [conceal] and [is_conceal_pending]. *)
Definition attack_of (line : string) : option (attack * option Z * bool) :=
  match find_attack line with
  | Ok (Some m, conceal, pending) =>
      match read_attack m with
      | Ok a => Some (a, conceal, pending)
      | Raise _ => None
      end
  | _ => None
  end.

(** Lines 357 to 361: attacker, target and percentage. *)
Definition conceal_miss_of (line : string) : option (string * string * Z) :=
  match Re.search pat_conceal_miss line with
  | Some cmatch =>
      match group_str cmatch "attacker", group_str cmatch "target",
            group_int cmatch "conceal" with
      | Ok a, Ok tg, Ok c => Some (Py.strip a, Py.strip tg, c)
      | _, _, _ => None
      end
  | None => None
  end.

(** Lines 369 to 380: target, save key and bonus. *)
Definition save_of (line : string) : option (string * string * Z) :=
  match Re.search pat_save line with
  | Some m =>
      match group_str m "target", group_str m "save_type",
            group_int m "bonus" with
      | Ok tg, Ok st, Ok b =>
          let save_type := Py.lower st in
          Some (Py.strip tg,
                if String.eqb save_type "fort"
                   || String.eqb save_type "fortitude"
                then "fort"
                else if String.eqb save_type "reflex" then "ref" else "will",
                b)%string
      | _, _, _ => None
      end
  | None => None
  end.

(** Lines 388 to 393: attacker, target, amount and breakdown. *)
Definition damage_of (line : string)
    : option (string * string * Z * option string) :=
  match Re.search pat_damage line with
  | Some m =>
      match group_str m "attacker", group_str m "target",
            group_int m "amount", Re.group m "breakdown" with
      | Ok a, Ok tg, Ok n, Ok bd => Some (Py.strip a, Py.strip tg, n, bd)
      | _, _, _, _ => None
      end
  | None => None
  end.

(** Lines 446 to 448, 456 to 458 and 464 to 467. *)
Definition potion_of (line : string) : option string :=
  match Re.search pat_potion line with
  | Some m =>
      match group_str m "user" with
      | Ok u => Some (Py.strip u)
      | Raise _ => None
      end
  | None => None
  end.

Definition heal_of (line : string) : option string :=
  match Re.search pat_undead_heal line with
  | Some m =>
      match group_str m "caster" with
      | Ok c => Some (Py.strip c)
      | Raise _ => None
      end
  | None => None
  end.

Definition kill_of (line : string) : option (string * string) :=
  match Re.search pat_kill line with
  | Some m =>
      match group_str m "killer", group_str m "target" with
      | Ok k, Ok tg => Some (Py.strip k, Py.rstrip ".!," (Py.strip tg))
      | _, _ => None
      end
  | None => None
  end.

(** The two directions of an exchange, as [parse_line] tests them. *)
Definition player_on_target (self : t) (a tg : string) : bool :=
  _is_player self a && _matches_target self tg.

Definition target_on_player (self : t) (a tg : string) : bool :=
  negb (player_on_target self a tg)
  && (_matches_target self a && _is_player self tg).

(** What the tests of identity depend on. *)
Definition identity (self : t) : string * string * bool * bool * string :=
  (player_name self, target_filter self, exact_match self, auto_track self,
   target_name self).

End Readings.

(** *** What [parse_line] does with a reading *)

Section Effects.

Import NWNCombatTracker.

(** Lines 364 to 367 *)
Definition conceal_miss_effect (now : Z) (tg : string) (conceal : Z)
    (self : t) : t :=
  let self := _set_target tg self in
  let self := _update_encounter_time now self in
  let self := set_target_conceal_pct (Some conceal) self in
  set_conceals (conceals self + 1) self.

(** Lines 383 to 386 *)
Definition save_effect (now : Z) (tg save_key : string) (b : Z) (self : t) : t :=
  let self := _set_target tg self in
  let self := _update_encounter_time now self in
  match target_saves self with
  | Some s => set_target_saves (Some (EnemySaves.update_save save_key b s)) self
  | None => self
  end.

(** Lines 452 to 454 and 460 to 462 *)
Definition target_heal_effect (now : Z) (who : string) (self : t) : t :=
  let self := _set_target who self in
  let self := _update_encounter_time now self in
  set_target_pots (target_pots self + 1) self.

(** Line 450 *)
Definition player_potion_effect (self : t) : t :=
  set_player_pots (player_pots self + 1) self.

(** Lines 469 and 470 *)
Definition kill_effect (now : Z) (self : t) : t :=
  set_kill_time (Some now) (set_target_dead true self).

End Effects.

(** *** Views of the tracker: the attributes one kind of line writes *)

Section Views.

Import NWNCombatTracker.

(** Written by the attack forms only. *)
Definition attack_view (self : t) :=
  (hits self, misses self, crits self, conceals self,
   target_conceal_pct self, attack_bonus self, target_ab self,
   last_attack_was_player self, last_player_hit_was_crit self,
   last_target_hit_was_crit self).

(** Written by damage lines only. *)
Definition ledger_view (self : t) :=
  (damage_dealt self, damage_dealt_crits self, damage_dealt_normal self,
   shield_damage_by_type self, shield_damage_total self,
   weapon_buff_damage_by_type self, weapon_buff_damage_total self,
   damage_taken self, damage_taken_by_type self).

(** Written by kill lines only. *)
Definition kill_view (self : t) := (target_dead self, kill_time self).

Definition timing (self : t) := (encounter_start self, encounter_last self).

End Views.

(** *** The lines that touch the encounter clock *)

Section Firing.

Import NWNCombatTracker.

(** An attack line, or a concealment-only miss, between the player and
    the target. *)
Definition attack_fires (self : t) (line : string) : bool :=
  match attack_of line with
  | Some (a, _, _) =>
      player_on_target self (attacker a) (target a)
      || (_matches_target self (attacker a) && _is_player self (target a))
  | None =>
      match conceal_miss_of line with
      | Some (a, tg, _) => player_on_target self a tg
      | None => false
      end
  end.

Definition save_fires (self : t) (line : string) : bool :=
  match save_of line with
  | Some (tg, _, _) => _matches_target self tg
  | None => false
  end.

Definition damage_fires (self : t) (line : string) : bool :=
  match damage_of line with
  | Some (a, tg, _, _) =>
      player_on_target self a tg
      || (_matches_target self a && _is_player self tg)
  | None => false
  end.

(** A potion used by the target (not by the player). *)
Definition potion_fires (self : t) (line : string) : bool :=
  match potion_of line with
  | Some user => negb (_is_player self user) && _matches_target self user
  | None => false
  end.

Definition heal_fires (self : t) (line : string) : bool :=
  match heal_of line with
  | Some caster => _matches_target self caster
  | None => false
  end.


(** The lines on which [parse_line] calls [_update_encounter_time]. *)
Definition touches_time (self : t) (line : string) : bool :=
  attack_fires self line || save_fires self line || damage_fires self line
  || potion_fires self line || heal_fires self line.

(** [_update_encounter_time] on the pair of the two times. *)
Definition touch (now : Z) (tm : option Z * option Z) : option Z * option Z :=
  (match fst tm with
   | None => Some now
   | Some start => Some start
   end, Some now).

(** The opponent is bound: [target_name] is set. *)
Definition bound (self : t) : Prop := Py.truthy (target_name self) = true.

End Firing.

(** The clock after some steps of [parse_line] from [s] to [sk]: touched
    when a step has fired; when none has, neither the clock nor the
    identity has moved. *)
Definition clock_after (now : Z) (s sk : NWNCombatTracker.t) (fired : bool)
    : Prop :=
  if fired then timing sk = touch now (timing s)
  else identity sk = identity s /\ timing sk = timing s.

(** The AC estimator of the tracker tightens, or there is none before
    and after. *)
Definition ac_tightens (before after : option EnemyAC.t) : Prop :=
  match before, after with
  | Some b, Some a =>
      min_hit_tightens (EnemyAC.min_hit b) (EnemyAC.min_hit a)
      /\ max_miss_tightens (EnemyAC.max_miss b) (EnemyAC.max_miss a)
  | None, None => True
  | _, _ => False
  end.

(** The components of a breakdown with an amount above zero; none
    without a breakdown. *)
Definition nonzero_components (breakdown : option string) : list (string * Z) :=
  match breakdown with
  | Some bd =>
      if Py.truthy bd then
        match NWNCombatTracker.damage_components bd with
        | Ok comps => List.filter (fun x => snd x >? 0) comps
        | Raise _ => []
        end
      else []
  | None => []
  end.

(** [d[k]] after [d[k] += amount], [d[k]] starting at 0. *)
Definition added (k : string) (amount : Z) (d : gmap string Z) : gmap string Z :=
  <[k := default 0 (d !! k) + amount]> d.

Section Routing.

Import NWNCombatTracker.

(** Where the amount of a damage line of the player goes, from the
    tracker [s] before to [s'] after: one nonzero component sends it to
    the weapon-buff ledger when [last_attack_was_player] holds and to
    the shield ledger otherwise; any other breakdown sends it to plain
    weapon damage, on the crit list when [last_player_hit_was_crit]
    holds and on the normal list otherwise. *)
Definition damage_routed (amount : Z) (breakdown : option string) (s s' : t)
    : Prop :=
  match nonzero_components breakdown with
  | [(dtype, _)] =>
      damage_dealt s' = damage_dealt s
      /\ damage_dealt_crits s' = damage_dealt_crits s
      /\ damage_dealt_normal s' = damage_dealt_normal s
      /\ if last_attack_was_player s then
           weapon_buff_damage_total s' = weapon_buff_damage_total s + amount
           /\ weapon_buff_damage_by_type s'
              = added dtype amount (weapon_buff_damage_by_type s)
           /\ shield_damage_total s' = shield_damage_total s
           /\ shield_damage_by_type s' = shield_damage_by_type s
         else
           shield_damage_total s' = shield_damage_total s + amount
           /\ shield_damage_by_type s'
              = added dtype amount (shield_damage_by_type s)
           /\ weapon_buff_damage_total s' = weapon_buff_damage_total s
           /\ weapon_buff_damage_by_type s' = weapon_buff_damage_by_type s
  | _ =>
      damage_dealt s' = damage_dealt s + amount
      /\ weapon_buff_damage_total s' = weapon_buff_damage_total s
      /\ weapon_buff_damage_by_type s' = weapon_buff_damage_by_type s
      /\ shield_damage_total s' = shield_damage_total s
      /\ shield_damage_by_type s' = shield_damage_by_type s
      /\ if last_player_hit_was_crit s then
           damage_dealt_crits s' = damage_dealt_crits s ++ [amount]
           /\ damage_dealt_normal s' = damage_dealt_normal s
         else
           damage_dealt_normal s' = damage_dealt_normal s ++ [amount]
           /\ damage_dealt_crits s' = damage_dealt_crits s
  end.

(** The two flags that classify the next damage line. *)
Definition exchange_flags (s : t) : bool * bool :=
  (last_attack_was_player s, last_player_hit_was_crit s).

(** A line that an attack form reads as a miss, a parry or a resist. *)
Definition miss_line (line : string) : Prop :=
  exists a c p, attack_of (normalize line) = Some (a, c, p) /\ is_miss a = true.

End Routing.

(** The identity and the AC estimator together: what the steps other
    than the attack forms leave alone once the opponent is bound. *)
Definition quiet (s : NWNCombatTracker.t) :=
  (identity s, NWNCombatTracker.target_ac s).

(** An attribute of the tracker after a call ([None] when it raised). *)
Definition observe {A : Type} (f : NWNCombatTracker.t -> A)
    (r : result NWNCombatTracker.t) : option A :=
  match r with
  | Ok s => Some (f s)
  | Raise _ => None
  end.

(** The text that [pat_prefix] matches at the head of a line, if any. *)
Definition leading_prefix (line : string) : option (Re.caps * Py.chars) :=
  Re.match_here pat_prefix (list_ascii_of_string line).

(** *** The two halves of a player attack *)

Section PlayerAttack.

Import NWNCombatTracker.

(** Lines 318 to 322: binding, clock and concealment. *)
Definition attack_prep (now : Z) (a : attack) (conceal : option Z) (self : t) : t :=
  let self := _set_target (target a) self in
  let self := _update_encounter_time now self in
  match conceal with
  | Some c => set_target_conceal_pct (Some c) self
  | None => self
  end.

(** Lines 327 to 341: the counters, the flags and the AC estimator. *)
Definition attack_resolve (a : attack) (is_conceal_pending : bool) (self : t) : t :=
  if negb is_conceal_pending then
    if is_hit a then
      let self := set_hits (hits self + 1) self in
      let self := set_last_attack_was_player true self in
      let self :=
        if is_crit a
        then set_last_player_hit_was_crit true
               (set_crits (crits self + 1) self)
        else set_last_player_hit_was_crit false self in
      match total a, target_ac self with
      | Some tot, Some ac =>
          set_target_ac (Some (EnemyAC.record_hit tot ac)) self
      | _, _ => self
      end
    else if is_miss a then
      let self := set_misses (misses self + 1) self in
      match total a, target_ac self with
      | Some tot, Some ac =>
          set_target_ac (Some (EnemyAC.record_miss tot (was_nat1 a) ac)) self
      | _, _ => self
      end
    else self
  else self.

End PlayerAttack.

(** *** Two trackers for the examples *)

(** A tracker in lock mode for the player Azoni Stout, built at time 0. *)
Definition lock_tracker : NWNCombatTracker.t :=
  NWNCombatTracker.init 0 "Azoni Stout" "" false 18 true.

(** The same tracker after the player has hit Korgan at time 5. *)
Definition engaged_tracker : NWNCombatTracker.t :=
  match NWNCombatTracker.parse_line 5
          "Azoni Stout attacks Korgan: *hit*: (15 + 20 = 35)" lock_tracker with
  | Ok s => s
  | Raise _ => lock_tracker
  end.


(* ================================================================== *)
(** ** Further definitions used to state properties *)

Section MoreViews.

Import NWNCombatTracker.

(** The configuration of a tracker. *)
Definition config (s : t) :=
  (player_name s, target_filter s, exact_match s, auto_track s,
   reset_interval s).

(** The attack attempts that the display totals. *)
Definition attempts (s : t) : Z := hits s + misses s + conceals s.

Definition counters_ok (s : t) : Prop :=
  0 <= crits s <= hits s /\ 0 <= misses s /\ 0 <= conceals s.

(** [sum(l)] *)
Definition sum_list (l : list Z) : Z := fold_right Z.add 0 l.

(** The sum of the amounts of a per-type ledger. *)
Definition map_total (d : gmap string Z) : Z :=
  map_fold (fun _ v acc => v + acc) 0 d.

(** Each total of damage dealt is the sum of its parts. *)
Definition ledger_ok (s : t) : Prop :=
  damage_dealt s = sum_list (damage_dealt_crits s)
                   + sum_list (damage_dealt_normal s)
  /\ weapon_buff_damage_total s = map_total (weapon_buff_damage_by_type s)
  /\ shield_damage_total s = map_total (shield_damage_by_type s).

(** A best-observed value: once known it stays known and does not go
    down. *)
Definition rises (before after : option Z) : Prop :=
  match before, after with
  | None, _ => True
  | Some b, Some a => b <= a
  | Some _, None => False
  end.

Definition saves_rise (before after : option EnemySaves.t) : Prop :=
  match before, after with
  | Some b, Some a =>
      EnemySaves.name a = EnemySaves.name b
      /\ rises (EnemySaves.fortitude b) (EnemySaves.fortitude a)
      /\ rises (EnemySaves.reflex b) (EnemySaves.reflex a)
      /\ rises (EnemySaves.will b) (EnemySaves.will a)
  | None, None => True
  | _, _ => False
  end.

(** The calls of [update_save] with one key, and their bonuses. *)
Fixpoint bonuses_of (key : string) (calls : list (string * Z)) : list Z :=
  match calls with
  | [] => []
  | (k, b) :: rest =>
      if String.eqb k key then b :: bonuses_of key rest
      else bonuses_of key rest
  end.

Definition update_saves (calls : list (string * Z)) (sv : EnemySaves.t)
    : EnemySaves.t :=
  fold_left (fun sv c => EnemySaves.update_save (fst c) (snd c) sv) calls sv.

(** A tracker just built, or just reset. *)
Definition fresh (s : t) : Prop :=
  (exists now p f e r a, s = init now p f e r a) \/ (exists s0, s = reset s0).

(** The clock readings of the lines never run backwards, starting at
    [t0]; and the last of them. *)
Fixpoint readings_ok (t0 : Z) (lines : list (Z * string)) : Prop :=
  match lines with
  | [] => True
  | (now, _) :: rest => t0 <= now /\ readings_ok now rest
  end.

Fixpoint final_reading (t0 : Z) (lines : list (Z * string)) : Z :=
  match lines with
  | [] => t0
  | (now, _) :: rest => final_reading now rest
  end.

(** The two times of the encounter are set together, in order, and not
    after [upper]. *)
Definition timing_ok (upper : Z) (s : t) : Prop :=
  match encounter_start s, encounter_last s with
  | None, None => True
  | Some a, Some b => a <= b /\ b <= upper
  | _, _ => False
  end.

(** The opponent bound is not the player. *)
Definition lock_inv (s : t) : Prop := _is_player s (target_name s) = false.

(** The name as [_matches_target] compares it. *)
Definition match_key (name : string) : string :=
  Py.lower (Py.rstrip ".!," (Py.strip name)).

End MoreViews.

(** The groups that hold digits only. *)
Definition unsigned_group (g : string) : bool :=
  numeric_group g && negb (String.eqb g "bonus").

Definition digit_shape (g w : string) : Prop :=
  if unsigned_group g
  then forallb Py.isdigit (list_ascii_of_string w) = true
  else True.

(** The outcomes agree with an armour class [ac]: every hit reaches it,
    every miss with a roll other than 1 stays below it. *)
Definition consistent (ac : Z) (l : list ac_outcome) : Prop :=
  Forall (fun o => match o with
                   | AcHit total => ac <= total
                   | AcMiss total n1 => n1 = true \/ total < ac
                   end) l.

(** What the rolling window keeps true of itself at clock reading [t]:
    [current] does not exceed [max_observed], no observation is later
    than [t], and the latest observation kept holds [current]. *)
Definition ab_inv (t : Z) (ab : AttackBonus.t) : Prop :=
  AttackBonus.current ab <= AttackBonus.max_observed ab
  /\ Forall (fun x => fst x <= t) (AttackBonus.recent_attacks ab)
  /\ (AttackBonus.recent_attacks ab = []
      \/ exists tl, In (tl, AttackBonus.current ab) (AttackBonus.recent_attacks ab)
                    /\ Forall (fun x => fst x <= tl)
                         (AttackBonus.recent_attacks ab)).

(** A file name that [is_nwn_log_file] describes: the stem, digits or
    none, and the extension or none. *)
Definition log_name_shape (name_lower : string) : Prop :=
  exists digits ext,
    name_lower = ("nwclientlog" ++ digits ++ ext)%string
    /\ (digits = ""%string \/ PyStr.isdigit digits = true)
    /\ (ext = ""%string \/ ext = ".txt"%string).

Section MoreViews2.

Import NWNCombatTracker.

(** The totals of damage dealt do not fall, and damage taken is only
    added to, with amounts that are not negative. *)
Definition ledger_grows (s s' : t) : Prop :=
  damage_dealt s <= damage_dealt s'
  /\ weapon_buff_damage_total s <= weapon_buff_damage_total s'
  /\ shield_damage_total s <= shield_damage_total s'
  /\ exists l, damage_taken s' = damage_taken s ++ l
               /\ Forall (fun x => 0 <= x) l.

End MoreViews2.

(* ================================================================== *)
(** ** The AC estimator *)

Section EnemyACFacts.

Import EnemyAC.

Lemma record_hit_name total ac : name (record_hit total ac) = name ac.
Proof. unfold record_hit. destruct (min_hit ac); [destruct (_ <? _)|]; reflexivity. Qed.

Lemma record_hit_max_miss total ac : max_miss (record_hit total ac) = max_miss ac.
Proof. unfold record_hit. destruct (min_hit ac); [destruct (_ <? _)|]; reflexivity. Qed.

Lemma record_miss_min_hit total n1 ac :
  min_hit (record_miss total n1 ac) = min_hit ac.
Proof.
  unfold record_miss. destruct n1; simpl; [reflexivity|].
  destruct (max_miss ac); [destruct (_ >? _)|]; reflexivity.
Qed.

Lemma record_hit_min_hit total ac :
  min_hit (record_hit total ac) =
    Some (match min_hit ac with None => total | Some h => Z.min total h end).
Proof.
  unfold record_hit. destruct (min_hit ac) as [h|] eqn:E; [|reflexivity].
  destruct (total <? h) eqn:L; simpl.
  - apply Z.ltb_lt in L. f_equal. lia.
  - apply Z.ltb_ge in L. rewrite E. f_equal. lia.
Qed.

Lemma record_miss_max_miss total ac :
  max_miss (record_miss total false ac) =
    Some (match max_miss ac with None => total | Some m => Z.max total m end).
Proof.
  unfold record_miss. simpl. destruct (max_miss ac) as [m|] eqn:E; [|reflexivity].
  destruct (total >? m) eqn:L; simpl.
  - apply Z.gtb_lt in L. f_equal. lia.
  - rewrite Z.gtb_ltb in L. apply Z.ltb_ge in L. rewrite E. f_equal. lia.
Qed.

Lemma record_miss_nat1 total ac : record_miss total true ac = ac.
Proof. reflexivity. Qed.

Lemma record_hit_tightens total ac :
  min_hit_tightens (min_hit ac) (min_hit (record_hit total ac))
  /\ max_miss_tightens (max_miss ac) (max_miss (record_hit total ac)).
Proof.
  rewrite record_hit_min_hit, record_hit_max_miss. split.
  - unfold min_hit_tightens. destruct (min_hit ac); [lia | exact I].
  - unfold max_miss_tightens. destruct (max_miss ac); [lia | exact I].
Qed.

Lemma record_miss_tightens total n1 ac :
  min_hit_tightens (min_hit ac) (min_hit (record_miss total n1 ac))
  /\ max_miss_tightens (max_miss ac) (max_miss (record_miss total n1 ac)).
Proof.
  rewrite record_miss_min_hit. split.
  - unfold min_hit_tightens. destruct (min_hit ac); [lia | exact I].
  - destruct n1.
    + rewrite record_miss_nat1. unfold max_miss_tightens.
      destruct (max_miss ac); [lia | exact I].
    + rewrite record_miss_max_miss. unfold max_miss_tightens.
      destruct (max_miss ac); [lia | exact I].
Qed.

Lemma ac_record_tightens ac o :
  min_hit_tightens (min_hit ac) (min_hit (ac_record ac o))
  /\ max_miss_tightens (max_miss ac) (max_miss (ac_record ac o)).
Proof.
  destruct o; [apply record_hit_tightens | apply record_miss_tightens].
Qed.

Lemma min_hit_tightens_refl o : min_hit_tightens o o.
Proof. destruct o; simpl; [lia | exact I]. Qed.

Lemma max_miss_tightens_refl o : max_miss_tightens o o.
Proof. destruct o; simpl; [lia | exact I]. Qed.

Lemma min_hit_tightens_trans a b c :
  min_hit_tightens a b -> min_hit_tightens b c -> min_hit_tightens a c.
Proof. destruct a, b, c; simpl; try tauto; lia. Qed.

Lemma max_miss_tightens_trans a b c :
  max_miss_tightens a b -> max_miss_tightens b c -> max_miss_tightens a c.
Proof. destruct a, b, c; simpl; try tauto; lia. Qed.


Lemma ac_record_all_tightens l : forall ac,
  min_hit_tightens (min_hit ac) (min_hit (ac_record_all l ac))
  /\ max_miss_tightens (max_miss ac) (max_miss (ac_record_all l ac)).
Proof.
  induction l as [|o l IH]; intros ac; simpl.
  - split; [apply min_hit_tightens_refl | apply max_miss_tightens_refl].
  - destruct (ac_record_tightens ac o) as [H1 H2].
    destruct (IH (ac_record ac o)) as [H3 H4]. split.
    + eapply min_hit_tightens_trans; eassumption.
    + eapply max_miss_tightens_trans; eassumption.
Qed.

End EnemyACFacts.

(* ================================================================== *)
(** ** The rolling attack-bonus window *)

Section AttackBonusFacts.

Import AttackBonus.

Lemma fold_max_ge l : forall x, x <= fold_left Z.max l x.
Proof.
  induction l as [|y l IH]; intros x; simpl; [lia|].
  specialize (IH (Z.max x y)). lia.
Qed.

Lemma fold_max_upper l : forall x, Forall (fun y => y <= fold_left Z.max l x) l.
Proof.
  induction l as [|y l IH]; intros x; simpl; constructor.
  - pose proof (fold_max_ge l (Z.max x y)). lia.
  - apply IH.
Qed.

Lemma fold_max_in l : forall x, fold_left Z.max l x = x \/ In (fold_left Z.max l x) l.
Proof.
  induction l as [|y l IH]; intros x; simpl; [left; reflexivity|].
  destruct (IH (Z.max x y)) as [E | Hin].
  - rewrite E. destruct (Z.max_spec x y) as [[_ ->] | [_ ->]]; auto.
  - right. right. assumption.
Qed.

(** [Py.max] of a non-empty list returns its greatest element. *)
Lemma py_max_spec l :
  l <> [] -> exists m, Py.max l = Ok m /\ is_max_of l (Some m).
Proof.
  destruct l as [|x l]; [congruence|]. intros _. simpl.
  eexists. split; [reflexivity|]. simpl. split.
  - destruct (fold_max_in l x) as [-> | H]; auto.
  - constructor; [apply fold_max_ge | apply fold_max_upper].
Qed.

Lemma filter_filter_implies {A} (p q : A -> bool) l :
  (forall x, q x = true -> p x = true) ->
  List.filter q (List.filter p l) = List.filter q l.
Proof.
  intros H. induction l as [|x l IH]; simpl; [reflexivity|].
  destruct (p x) eqn:P; simpl.
  - rewrite IH. reflexivity.
  - destruct (q x) eqn:Q; [|assumption].
    apply H in Q. congruence.
Qed.

Lemma in_window_later w t t' obs :
  t <= t' -> in_window w t' (in_window w t obs) = in_window w t' obs.
Proof.
  intros Ht. unfold in_window. apply filter_filter_implies.
  intros x Hx. apply Z.gtb_lt in Hx. apply Z.gtb_lt. lia.
Qed.

Lemma in_window_app w t a b :
  in_window w t (a ++ b) = in_window w t a ++ in_window w t b.
Proof. unfold in_window. apply List.filter_app. Qed.

Lemma prune_window now ab :
  window_seconds (_prune_old now ab) = window_seconds ab.
Proof. reflexivity. Qed.

Lemma prune_recent now ab :
  recent_attacks (_prune_old now ab)
  = in_window (window_seconds ab) now (recent_attacks ab).
Proof. reflexivity. Qed.

(** [update] never raises; what it leaves behind. *)
Lemma update_spec now now' bonus ab :
  let kept := in_window (window_seconds ab) now'
                (recent_attacks ab ++ [(now, bonus)]) in
  exists ab', update now now' bonus ab = Ok ab'
    /\ recent_attacks ab' = kept
    /\ window_seconds ab' = window_seconds ab
    /\ current ab' = bonus
    /\ last_updated ab' = now
    /\ (kept <> [] -> is_max_of (map snd kept) (Some (max_observed ab')))
    /\ (kept = [] -> max_observed ab' = bonus).
Proof.
  intros kept. unfold update, max_recent.
  set (ab1 := _prune_old now' _).
  assert (E : recent_attacks ab1 = kept) by reflexivity.
  assert (W : window_seconds ab1 = window_seconds ab) by reflexivity.
  assert (C : current ab1 = bonus) by reflexivity.
  clearbody ab1 kept. rewrite E, W, C. clear E W C.
  destruct kept as [|x k].
  - eexists. split; [reflexivity|].
    repeat (split; [reflexivity|]).
    split; [intros H; exfalso; apply H; reflexivity | reflexivity].
  - destruct (py_max_spec (map snd (x :: k))) as [m [Hm Hmax]]; [discriminate|].
    rewrite Hm. eexists. split; [reflexivity|].
    repeat (split; [reflexivity|]).
    split; [intros _; exact Hmax | discriminate].
Qed.

(** [refresh] never raises; what it leaves behind. *)
Lemma refresh_spec now ab :
  let kept := in_window (window_seconds ab) now (recent_attacks ab) in
  exists ab', refresh now ab = Ok ab'
    /\ recent_attacks ab' = kept
    /\ window_seconds ab' = window_seconds ab
    /\ current ab' = current ab
    /\ (kept <> [] -> is_max_of (map snd kept) (Some (max_observed ab')))
    /\ (kept = [] -> max_observed ab' = max_observed ab).
Proof.
  intros kept. unfold refresh, max_recent.
  set (ab1 := _prune_old now ab).
  assert (E : recent_attacks ab1 = kept) by reflexivity.
  assert (W : window_seconds ab1 = window_seconds ab) by reflexivity.
  assert (C : current ab1 = current ab) by reflexivity.
  assert (M : max_observed ab1 = max_observed ab) by reflexivity.
  clearbody ab1 kept. rewrite E.
  destruct kept as [|x k].
  - eexists. split; [reflexivity|].
    repeat (split; [assumption|]).
    split; [intros H; exfalso; apply H; reflexivity | intros _; assumption].
  - destruct (py_max_spec (map snd (x :: k))) as [m [Hm Hmax]]; [discriminate|].
    rewrite Hm. eexists. split; [reflexivity|].
    repeat (split; [assumption|]).
    split; [intros _; exact Hmax | discriminate].
Qed.

Lemma ab_run_app cs1 : forall cs2 ab,
  ab_run (cs1 ++ cs2) ab = (let! ab1 := ab_run cs1 ab in ab_run cs2 ab1).
Proof.
  induction cs1 as [|c cs1 IH]; intros cs2 ab; simpl; [reflexivity|].
  destruct (ab_apply ab c); simpl; [apply IH | reflexivity].
Qed.

Lemma observations_app cs1 cs2 :
  observations (cs1 ++ cs2) = observations cs1 ++ observations cs2.
Proof.
  induction cs1 as [|[now now' b|now] cs1 IH]; simpl; congruence.
Qed.

Lemma last_reading_app cs1 : forall cs2 t,
  last_reading t (cs1 ++ cs2) = last_reading (last_reading t cs1) cs2.
Proof.
  induction cs1 as [|[now now' b|now] cs1 IH]; intros; simpl; auto.
Qed.

Lemma clock_ok_app cs1 : forall cs2 t,
  clock_ok t (cs1 ++ cs2) <->
  clock_ok t cs1 /\ clock_ok (last_reading t cs1) cs2.
Proof.
  induction cs1 as [|[now now' b|now] cs1 IH]; intros; simpl.
  - tauto.
  - rewrite IH. tauto.
  - rewrite IH. tauto.
Qed.

(** The calls never raise, and the list kept is the window of all the
    observations at the last clock reading. *)
Lemma ab_run_window cs : forall ab obs t,
  recent_attacks ab = in_window (window_seconds ab) t obs ->
  clock_ok t cs ->
  exists ab', ab_run cs ab = Ok ab'
    /\ window_seconds ab' = window_seconds ab
    /\ recent_attacks ab'
       = in_window (window_seconds ab) (last_reading t cs)
           (obs ++ observations cs).
Proof.
  induction cs as [|c cs IH]; intros ab obs t Hinv Hclk; simpl.
  - exists ab. rewrite app_nil_r. auto.
  - destruct c as [now now' b | now]; simpl in Hclk |- *.
    + destruct Hclk as (H1 & H2 & H3).
      destruct (update_spec now now' b ab) as (ab1 & E & R & W & _).
      rewrite E. simpl.
      destruct (IH ab1 (obs ++ [(now, b)]) now') as (ab' & E' & W' & R');
        [| assumption |].
      * rewrite R, W, Hinv, !in_window_app, in_window_later by lia.
        reflexivity.
      * exists ab'. rewrite E', W', R', W, <- app_assoc. auto.
    + destruct Hclk as (H1 & H2).
      destruct (refresh_spec now ab) as (ab1 & E & R & W & _).
      rewrite E. simpl.
      destruct (IH ab1 obs now) as (ab' & E' & W' & R'); [| assumption |].
      * rewrite R, W, Hinv, in_window_later by lia. reflexivity.
      * exists ab'. rewrite E', W', R', W. auto.
Qed.

End AttackBonusFacts.

(* ================================================================== *)
(** ** Python strings: facts *)

Section PyFacts.

Import Py.

Lemma to_list_of_list l :
  list_ascii_of_string (string_of_list_ascii l) = l.
Proof. apply list_ascii_of_string_of_list_ascii. Qed.

Lemma lstrip_by_length p l : (length (lstrip_by p l) <= length l)%nat.
Proof.
  induction l as [|a l IH]; simpl; [lia|].
  destruct (p a); simpl; lia.
Qed.

(** A list that [lstrip_by] leaves alone is empty or starts outside [p]. *)
Lemma lstrip_by_fixed p l :
  lstrip_by p l = l <-> match l with [] => True | a :: _ => p a = false end.
Proof.
  destruct l as [|a l]; simpl; [tauto|].
  destruct (p a) eqn:E; split; intros H; try congruence.
  pose proof (lstrip_by_length p l) as L. rewrite H in L. simpl in L. lia.
Qed.

Lemma lstrip_by_idem p l : lstrip_by p (lstrip_by p l) = lstrip_by p l.
Proof.
  induction l as [|a l IH]; simpl; [reflexivity|].
  destruct (p a) eqn:E; [assumption|]. simpl. rewrite E. reflexivity.
Qed.

Lemma rstrip_by_idem p l : rstrip_by p (rstrip_by p l) = rstrip_by p l.
Proof.
  unfold rstrip_by. rewrite rev_involutive, lstrip_by_idem. reflexivity.
Qed.

(** What [lstrip_by] removes is a prefix. *)
Lemma lstrip_by_suffix p l : exists pre, l = pre ++ lstrip_by p l.
Proof.
  induction l as [|a l [pre IH]]; simpl.
  - exists []. reflexivity.
  - destruct (p a).
    + exists (a :: pre). simpl. congruence.
    + exists []. reflexivity.
Qed.

Lemma rstrip_by_fixed p l :
  rstrip_by p l = l <-> lstrip_by p (rev l) = rev l.
Proof.
  unfold rstrip_by. split; intros H.
  - rewrite <- H at 2. rewrite rev_involutive. reflexivity.
  - rewrite H. apply rev_involutive.
Qed.

(** Stripping on the left keeps a stripped right end. *)
Lemma rstrip_lstrip_fixed p l :
  rstrip_by p l = l -> rstrip_by p (lstrip_by p l) = lstrip_by p l.
Proof.
  intros H. apply rstrip_by_fixed in H. apply rstrip_by_fixed.
  destruct (lstrip_by_suffix p l) as [pre E].
  remember (lstrip_by p l) as y eqn:Y. clear Y. subst l.
  destruct (rev y) as [|a z] eqn:R; [reflexivity|].
  apply lstrip_by_fixed.
  rewrite rev_app_distr, R in H.
  apply (proj1 (lstrip_by_fixed p _)) in H. exact H.
Qed.

Lemma strip_l_idem l : strip_l (strip_l l) = strip_l l.
Proof.
  unfold strip_l.
  rewrite (rstrip_lstrip_fixed isspace (rstrip_by isspace l))
    by apply rstrip_by_idem.
  apply lstrip_by_idem.
Qed.

(** [s.strip().strip() == s.strip()] *)
Lemma strip_idem s : strip (strip s) = strip s.
Proof.
  unfold strip. rewrite to_list_of_list, strip_l_idem. reflexivity.
Qed.

End PyFacts.

(* ================================================================== *)
(** ** Regular expressions: what a match captures *)

Section ReFacts.

Import Re.

Lemma lit_match_sound l : forall s s',
  lit_match l s = Some s' ->
  exists w, s = w ++ s' /\ Py.lower_l w = Py.lower_l l.
Proof.
  induction l as [|a l IH]; intros s s' H; simpl in H.
  - inversion H. exists []. split; reflexivity.
  - destruct s as [|b s]; [discriminate|].
    destruct (Ascii.eqb _ _) eqn:E; [|discriminate].
    apply Ascii.eqb_eq in E.
    destruct (IH _ _ H) as (w & -> & Hw).
    exists (b :: w). split; [reflexivity|]. simpl. congruence.
Qed.

Lemma rep_sound g p s : forall lo k res,
  rep g p lo s k = Some res ->
  exists w s', s = w ++ s' /\ (lo <= length w)%nat /\ forallb p w = true
               /\ k s' = Some res.
Proof.
  induction s as [|a s IH]; intros lo k res H.
  - destruct lo as [|lo]; simpl in H; [|discriminate].
    exists [], []. repeat split; auto.
    destruct g; [assumption|]. destruct (k []); [assumption | discriminate].
  - destruct lo as [|lo]; simpl in H.
    + assert (Hk : k (a :: s) = Some res ->
                   exists w s', a :: s = w ++ s' /\ (0 <= length w)%nat
                                /\ forallb p w = true /\ k s' = Some res).
      { intros Hk. exists [], (a :: s). repeat split; auto. }
      assert (Hr : p a = true -> rep g p 0 s k = Some res ->
                   exists w s', a :: s = w ++ s' /\ (0 <= length w)%nat
                                /\ forallb p w = true /\ k s' = Some res).
      { intros Hp Hr. destruct (IH _ _ _ Hr) as (w & s' & -> & _ & Hw & Hk').
        exists (a :: w), s'. simpl. rewrite Hp, Hw. repeat split; auto. lia. }
      destruct g.
      * destruct (p a) eqn:Hp; [|auto].
        destruct (rep true p 0 s k) eqn:Hrep; [|auto].
        apply Hr; congruence.
      * destruct (k (a :: s)) eqn:Hk0; [auto|].
        destruct (p a) eqn:Hp; [|discriminate]. auto.
    + destruct (p a) eqn:Hp; [|discriminate].
      destruct (IH _ _ _ H) as (w & s' & -> & Hlo & Hw & Hk').
      exists (a :: w), s'. simpl. rewrite Hp, Hw. repeat split; auto. lia.
Qed.

Lemma lookup_cap_app g (a b : caps) :
  lookup_cap g (a ++ b)
  = match lookup_cap g a with Some w => Some w | None => lookup_cap g b end.
Proof.
  induction a as [|[g' w] a IH]; simpl; [reflexivity|].
  destruct (String.eqb g g'); [reflexivity | assumption].
Qed.

Lemma firstn_consumed (w s' : Py.chars) :
  firstn (length (w ++ s') - length s') (w ++ s') = w.
Proof.
  rewrite length_app.
  replace (length w + length s' - length s')%nat with (length w) by lia.
  rewrite firstn_app, Nat.sub_diag, firstn_all. simpl. apply app_nil_r.
Qed.

(** The cases of [run_sound] that capture nothing. *)
Local Ltac leaf :=
  split; [reflexivity|];
  split; [try reflexivity; try assumption|];
  [.. | split; [apply List.Forall_nil|];
        split; [apply List.Forall_nil | assumption]].

Section Sound.

Variable P : string -> string -> Prop.

(** A successful run of [r] before [k] has matched a text of [r], has
    captured every mandatory group, each capture satisfying [P], and
    has gone on with [k]. *)
Lemma run_sound r : groups_ok P r -> forall s c k res,
  run r s c k = Some res ->
  exists w s' d,
    s = w ++ s' /\ lang r w /\ caps_ok P d
    /\ Forall (fun g => lookup_cap g d <> None) (mandatory r)
    /\ k s' (d ++ c) = Some res.
Proof.
  induction r as [| l | p | r1 IH1 r2 IH2 | r1 IH1 r2 IH2 | g lo p | g r IH | ];
    intros Hok s c k res H; simpl in H.
  - exists [], s, []. leaf.
  - destruct (lit_match _ s) as [s'|] eqn:E; [|discriminate].
    destruct (lit_match_sound _ _ _ E) as (w & -> & Hw).
    exists w, s', []. leaf.
  - destruct s as [|a s]; [discriminate|].
    destruct (p a) eqn:Hp; [|discriminate].
    exists [a], s, []. leaf. exists a. auto.
  - destruct Hok as [Hok1 Hok2].
    destruct (IH1 Hok1 _ _ _ _ H) as (w1 & s1 & d1 & -> & L1 & C1 & M1 & H1).
    destruct (IH2 Hok2 _ _ _ _ H1) as (w2 & s2 & d2 & -> & L2 & C2 & M2 & H2).
    exists (w1 ++ w2), s2, (d2 ++ d1).
    split; [rewrite <- app_assoc; reflexivity|].
    split; [simpl; eauto|].
    split; [apply List.Forall_app; split; assumption|].
    split; [|rewrite <- app_assoc; assumption].
    simpl. apply List.Forall_app. split.
    + eapply List.Forall_impl; [|exact M1]. simpl. intros x Hx.
      rewrite lookup_cap_app. destruct (lookup_cap x d2); [discriminate | assumption].
    + eapply List.Forall_impl; [|exact M2]. simpl. intros x Hx.
      rewrite lookup_cap_app. destruct (lookup_cap x d2); [discriminate | congruence].
  - destruct Hok as [Hok1 Hok2].
    destruct (run r1 s c k) eqn:E1.
    + destruct (IH1 Hok1 _ _ _ _ E1) as (w & s' & d & -> & L & C & M & H1).
      exists w, s', d. split; [reflexivity|]. split; [left; exact L|].
      split; [exact C|]. split; [apply List.Forall_nil | congruence].
    + destruct (IH2 Hok2 _ _ _ _ H) as (w & s' & d & -> & L & C & M & H1).
      exists w, s', d. split; [reflexivity|]. split; [right; exact L|].
      split; [exact C|]. split; [apply List.Forall_nil | exact H1].
  - destruct (rep_sound _ _ _ _ _ _ H) as (w & s' & -> & Hlo & Hw & Hk).
    exists w, s', []. leaf. split; assumption.
  - destruct Hok as [Hg Hok].
    destruct (IH Hok _ _ _ _ H) as (w & s' & d & -> & L & C & M & H1).
    rewrite firstn_consumed in H1.
    exists w, s', ((g, string_of_list_ascii w) :: d).
    split; [reflexivity|]. split; [exact L|].
    split; [constructor; [apply Hg; exact L | exact C]|].
    split; [|exact H1].
    simpl. constructor.
    + simpl. rewrite String.eqb_refl. discriminate.
    + eapply List.Forall_impl; [|exact M]. simpl. intros x Hx.
      destruct (String.eqb x g); [discriminate | assumption].
  - destruct (at_end s); [|discriminate].
    exists [], s, []. leaf.
Qed.

Lemma match_here_sound r s c rest :
  groups_ok P r -> match_here r s = Some (c, rest) ->
  caps_ok P c /\ Forall (fun g => lookup_cap g c <> None) (mandatory r).
Proof.
  intros Hok H. unfold match_here in H.
  destruct (run_sound r Hok _ _ _ _ H) as (w & s' & d & _ & _ & C & M & A).
  unfold accept in A. rewrite app_nil_r in A. inversion A. subst. auto.
Qed.

Lemma search_l_sound r s : forall c rest,
  groups_ok P r -> search_l r s = Some (c, rest) ->
  caps_ok P c /\ Forall (fun g => lookup_cap g c <> None) (mandatory r).
Proof.
  induction s as [|a s IH]; intros c rest Hok H; simpl in H.
  - destruct (match_here r []) as [x|] eqn:E; [|discriminate].
    inversion H. subst. eapply match_here_sound; eassumption.
  - destruct (match_here r (a :: s)) as [x|] eqn:E.
    + inversion H. subst. eapply match_here_sound; eassumption.
    + eapply IH; eassumption.
Qed.

Lemma finditer_l_sound r s : forall skip,
  groups_ok P r ->
  Forall (fun c => caps_ok P c
                   /\ Forall (fun g => lookup_cap g c <> None) (mandatory r))
         (finditer_l r skip s).
Proof.
  induction s as [|a s IH]; intros skip Hok.
  - destruct skip; simpl; [|constructor].
    destruct (match_here r []) as [[c rest]|] eqn:E; constructor.
    + eapply match_here_sound; eassumption.
    + constructor.
  - destruct skip; simpl; [|apply IH; assumption].
    destruct (match_here r (a :: s)) as [[c rest]|] eqn:E.
    + constructor; [eapply match_here_sound; eassumption | apply IH; assumption].
    + apply IH; assumption.
Qed.

End Sound.

Lemma digits_val_ok l : forall acc,
  forallb Py.isdigit l = true -> exists n, Py.digits_val acc l = Some n.
Proof.
  induction l as [|a l IH]; intros acc H; simpl in *.
  - eauto.
  - apply andb_prop in H. destruct H as [Ha Hl]. rewrite Ha. apply IH, Hl.
Qed.

Lemma isdigit_not_minus a : Py.isdigit a = true -> Ascii.eqb a "-" = false.
Proof.
  intros H. destruct (Ascii.eqb a "-") eqn:E; [|reflexivity].
  apply Ascii.eqb_eq in E. subst a. discriminate.
Qed.

(** [int] accepts what [\d+] matches. *)
Lemma int_l_digits w :
  (1 <= length w)%nat -> forallb Py.isdigit w = true ->
  exists n, Py.int_l w = Ok n.
Proof.
  intros Hlen Hd. destruct w as [|a w]; [simpl in Hlen; lia|].
  unfold Py.int_l.
  assert (Ha : Py.isdigit a = true) by (simpl in Hd; apply andb_prop in Hd; tauto).
  rewrite (isdigit_not_minus a Ha).
  destruct (digits_val_ok (a :: w) 0 Hd) as [n ->]. eauto.
Qed.

Lemma lower_char_minus a : Py.lower_char a = "-"%char -> a = "-"%char.
Proof.
  destruct a as [[] [] [] [] [] [] [] []]; vm_compute; congruence.
Qed.

(** [int] accepts what [-?\d+] matches. *)
Lemma int_l_signed w1 w2 :
  (w1 = [] \/ Py.lower_l w1 = ["-"%char]) ->
  (1 <= length w2)%nat -> forallb Py.isdigit w2 = true ->
  exists n, Py.int_l (w1 ++ w2) = Ok n.
Proof.
  intros [-> | H1] Hlen Hd.
  - apply int_l_digits; assumption.
  - destruct w1 as [|a [|b w1]]; try discriminate.
    simpl in H1. inversion H1 as [Ha]. apply lower_char_minus in Ha. subst a.
    simpl. destruct w2 as [|c w2]; [simpl in Hlen; lia|].
    destruct (digits_val_ok (c :: w2) 0 Hd) as [n ->]. eauto.
Qed.

Lemma lang_num w : lang num w -> exists n, Py.int (string_of_list_ascii w) = Ok n.
Proof.
  intros [Hlen Hd]. unfold Py.int. rewrite to_list_of_list.
  apply int_l_digits; assumption.
Qed.

Lemma lang_snum w : lang snum w -> exists n, Py.int (string_of_list_ascii w) = Ok n.
Proof.
  intros (w1 & w2 & -> & H1 & Hlen & Hd). unfold Py.int.
  rewrite to_list_of_list. apply int_l_signed; try assumption.
  destruct H1 as [H1 | H1]; [right; exact H1 | left; exact H1].
Qed.

(** The groups of the tracker's patterns capture what their readers
    expect. *)
Local Ltac groups :=
  repeat match goal with
    | |- _ /\ _ => split
    | |- True => exact I
    | |- forall w, lang num w -> cap_shape _ _ => exact lang_num
    | |- forall w, lang snum w -> cap_shape _ _ => exact lang_snum
    | |- forall w, _ -> cap_shape _ _ => intros ? ?; exact I
    | |- _ => exact I
    | |- _ => solve [cbv; tauto]
    end.

Local Ltac expose :=
  cbv [groups_ok pat_attack pat_attack_conceal pat_attack_conceal_pending
       pat_conceal_miss pat_save pat_damage pat_damage_type pat_potion
       pat_undead_heal pat_kill aoo attacks outcomes rolls concealed Re.opt].

Lemma groups_ok_attack : groups_ok cap_shape pat_attack.
Proof. expose. groups. Qed.

Lemma groups_ok_attack_conceal : groups_ok cap_shape pat_attack_conceal.
Proof. expose. groups. Qed.

Lemma groups_ok_attack_conceal_pending :
  groups_ok cap_shape pat_attack_conceal_pending.
Proof. expose. groups. Qed.

Lemma groups_ok_conceal_miss : groups_ok cap_shape pat_conceal_miss.
Proof. expose. groups. Qed.

Lemma groups_ok_save : groups_ok cap_shape pat_save.
Proof. expose. groups. Qed.

Lemma groups_ok_damage : groups_ok cap_shape pat_damage.
Proof. expose. groups. Qed.

Lemma groups_ok_damage_type : groups_ok cap_shape pat_damage_type.
Proof. expose. groups. Qed.

Lemma groups_ok_potion : groups_ok cap_shape pat_potion.
Proof. expose. groups. Qed.

Lemma groups_ok_undead_heal : groups_ok cap_shape pat_undead_heal.
Proof. expose. groups. Qed.

Lemma groups_ok_kill : groups_ok cap_shape pat_kill.
Proof. expose. groups. Qed.

(** What [search] returns for a pattern whose groups are in order. *)
Lemma search_ok r line m :
  groups_ok cap_shape r -> Re.search r line = Some m -> match_ok r m.
Proof.
  intros Hok H. unfold search in H.
  destruct (search_l r _) as [[c rest]|] eqn:E; [|discriminate].
  simpl in H. inversion H. subst m.
  destruct (search_l_sound cap_shape _ _ _ _ Hok E) as [C M].
  split; [reflexivity|]. split; assumption.
Qed.

Lemma finditer_ok r s :
  groups_ok cap_shape r -> Forall (match_ok r) (Re.finditer r s).
Proof.
  intros Hok. unfold finditer. apply List.Forall_map.
  eapply List.Forall_impl; [|apply (finditer_l_sound cap_shape); exact Hok].
  intros c [C M]. split; [reflexivity|]. split; assumption.
Qed.

End ReFacts.

(* ================================================================== *)
(** ** Reading a match object *)

Section Readers.

Import Re NWNCombatTracker.

Lemma lookup_cap_ok P c g w :
  caps_ok P c -> lookup_cap g c = Some w -> P g w.
Proof.
  induction c as [|[g' w'] c IH]; simpl; intros C H; [discriminate|].
  inversion C as [|? ? Hx Hc]; subst. simpl in Hx.
  destruct (String.eqb g g') eqn:E.
  - apply String.eqb_eq in E. inversion H. subst. exact Hx.
  - apply IH; assumption.
Qed.

Lemma mandatory_present (l : list string) (c : caps) g :
  Forall (fun g => lookup_cap g c <> None) l ->
  existsb (String.eqb g) l = true -> lookup_cap g c <> None.
Proof.
  intros F H. apply existsb_exists in H. destruct H as (x & Hin & E).
  apply String.eqb_eq in E. subst x.
  rewrite List.Forall_forall in F. apply F, Hin.
Qed.

Variables (r : re) (m : rmatch).
Hypothesis MO : match_ok r m.

Lemma group_any g :
  existsb (String.eqb g) (names r) = true ->
  exists o, group m g = Ok o /\ forall w, o = Some w -> cap_shape g w.
Proof.
  intros Hn. destruct MO as (N & C & M). unfold group, has_group.
  rewrite N, Hn. eexists. split; [reflexivity|].
  intros w Hw. eapply lookup_cap_ok; eassumption.
Qed.

Lemma group_present g :
  existsb (String.eqb g) (names r) = true ->
  existsb (String.eqb g) (mandatory r) = true ->
  exists w, group m g = Ok (Some w) /\ cap_shape g w.
Proof.
  intros Hn Hm. destruct MO as (N & C & M).
  pose proof (mandatory_present _ _ _ M Hm) as Hp.
  unfold group, has_group. rewrite N, Hn.
  destruct (lookup_cap g (m_caps m)) as [w|] eqn:E; [|congruence].
  exists w. split; [reflexivity|]. eapply lookup_cap_ok; eassumption.
Qed.

Lemma group_str_ok g :
  existsb (String.eqb g) (names r) = true ->
  existsb (String.eqb g) (mandatory r) = true ->
  exists w, group_str m g = Ok w.
Proof.
  intros Hn Hm. destruct (group_present g Hn Hm) as (w & E & _).
  unfold group_str. rewrite E. simpl. eauto.
Qed.

Lemma group_int_ok g :
  existsb (String.eqb g) (names r) = true ->
  existsb (String.eqb g) (mandatory r) = true ->
  numeric_group g = true ->
  exists n, group_int m g = Ok n.
Proof.
  intros Hn Hm Hg. destruct (group_present g Hn Hm) as (w & E & S).
  unfold group_int. rewrite E. simpl. unfold cap_shape in S.
  rewrite Hg in S. exact S.
Qed.

Lemma group_int_if_ok g :
  existsb (String.eqb g) (names r) = true ->
  numeric_group g = true ->
  exists o v, group m g = Ok o /\ int_if o = Ok v.
Proof.
  intros Hn Hg. destruct (group_any g Hn) as (o & E & S).
  exists o. destruct o as [w|]; simpl.
  - specialize (S w eq_refl). unfold cap_shape in S. rewrite Hg in S.
    destruct S as [n Hn']. destruct (Py.truthy w).
    + rewrite Hn'. simpl. eauto.
    + eauto.
  - eauto.
Qed.

End Readers.

(* ================================================================== *)
(** ** [parse_line] returns normally *)

Section Totality.

Import Re NWNCombatTracker.

Lemma update_ok now now' bonus ab :
  exists ab', AttackBonus.update now now' bonus ab = Ok ab'.
Proof. destruct (update_spec now now' bonus ab) as (ab' & E & _). eauto. Qed.


Lemma read_attack_ok r m :
  match_ok r m ->
  existsb (String.eqb "attacker") (mandatory r) = true ->
  existsb (String.eqb "target") (mandatory r) = true ->
  forallb (fun g => existsb (String.eqb g) (names r))
    ["attacker"; "target"; "roll"; "bonus"; "total"]%string = true ->
  exists a, read_attack m = Ok a.
Proof.
  intros MO Ma Mt Hn. simpl in Hn.
  repeat (apply andb_prop in Hn; destruct Hn as [? Hn]).
  unfold read_attack.
  destruct (group_str_ok r m MO "attacker") as [a ->]; try assumption.
  destruct (group_str_ok r m MO "target") as [tg ->]; try assumption.
  simpl rbind.
  assert (Ho : exists oc,
             (if has_group "outcome" m
              then let! o := group m "outcome" in
                   Ok match o with
                      | Some w => if Py.truthy w then w else ""%string
                      | None => ""%string
                      end
              else Ok ""%string) = Ok oc).
  { unfold group. destruct (has_group "outcome" m); simpl; eauto. }
  destruct Ho as [oc ->]. simpl rbind.
  destruct (group_int_if_ok r m MO "roll") as (o1 & v1 & -> & E1);
    try assumption; try reflexivity.
  destruct (group_int_if_ok r m MO "bonus") as (o2 & v2 & -> & E2);
    try assumption; try reflexivity.
  destruct (group_int_if_ok r m MO "total") as (o3 & v3 & -> & E3);
    try assumption; try reflexivity.
  simpl rbind. rewrite E1, E2, E3. simpl. eauto.
Qed.

Lemma find_attack_ok line :
  exists om conceal pending,
    find_attack line = Ok (om, conceal, pending)
    /\ forall m, om = Some m -> attack_match_ok m.
Proof.
  unfold find_attack.
  destruct (search pat_attack_conceal line) as [m|] eqn:S1.
  - pose proof (search_ok _ _ _ groups_ok_attack_conceal S1) as MO.
    destruct (group_int_ok _ m MO "conceal") as [c ->]; try reflexivity.
    simpl. do 3 eexists. split; [reflexivity|].
    intros m' E. inversion E. subst. left. exact MO.
  - destruct (search pat_attack_conceal_pending line) as [m|] eqn:S2.
    + pose proof (search_ok _ _ _ groups_ok_attack_conceal_pending S2) as MO.
      destruct (group_int_ok _ m MO "conceal") as [c ->]; try reflexivity.
      simpl. do 3 eexists. split; [reflexivity|].
      intros m' E. inversion E. subst. right. left. exact MO.
    + do 3 eexists. split; [reflexivity|].
      intros m' E.
      pose proof (search_ok _ _ _ groups_ok_attack E) as MO.
      right. right. exact MO.
Qed.

Lemma attack_match_read m : attack_match_ok m -> exists a, read_attack m = Ok a.
Proof.
  intros [MO | [MO | MO]]; eapply read_attack_ok; try exact MO; reflexivity.
Qed.

Lemma player_attack_ok now a conceal pending self :
  exists self', player_attack now a conceal pending self = Ok self'.
Proof.
  unfold player_attack.
  destruct (bonus a) as [b|].
  - match goal with
    | |- context [AttackBonus.update ?n ?n' ?b ?ab] =>
        destruct (update_ok n n' b ab) as [ab' ->]
    end.
    simpl rbind.
    repeat match goal with
           | |- context [if ?x then _ else _] => destruct x
           | |- context [match ?x with _ => _ end] => destruct x
           end; eauto.
  - simpl rbind.
    repeat match goal with
           | |- context [if ?x then _ else _] => destruct x
           | |- context [match ?x with _ => _ end] => destruct x
           end; eauto.
Qed.

Lemma parse_attack_ok now m conceal pending self :
  attack_match_ok m ->
  exists self', parse_attack now m conceal pending self = Ok self'.
Proof.
  intros MO. unfold parse_attack.
  destruct (attack_match_read m MO) as [a ->]. simpl rbind.
  destruct (_ && _); [apply player_attack_ok|].
  destruct (_ && _); eauto.
Qed.

Lemma parse_conceal_miss_ok now line self :
  exists self', parse_conceal_miss now line self = Ok self'.
Proof.
  unfold parse_conceal_miss.
  destruct (search pat_conceal_miss line) as [m|] eqn:S; [|eauto].
  pose proof (search_ok _ _ _ groups_ok_conceal_miss S) as MO.
  destruct (group_str_ok _ m MO "attacker") as [a ->]; try reflexivity.
  destruct (group_str_ok _ m MO "target") as [tg ->]; try reflexivity.
  destruct (group_int_ok _ m MO "conceal") as [c ->]; try reflexivity.
  simpl rbind. destruct (_ && _); eauto.
Qed.

Lemma attack_step_ok now line self :
  exists self', attack_step now line self = Ok self'.
Proof.
  unfold attack_step.
  destruct (find_attack_ok line) as (om & conceal & pending & -> & H).
  simpl rbind. destruct om as [m|].
  - apply parse_attack_ok, H. reflexivity.
  - apply parse_conceal_miss_ok.
Qed.

Lemma parse_save_ok now line self :
  exists self', parse_save now line self = Ok self'.
Proof.
  unfold parse_save.
  destruct (search pat_save line) as [m|] eqn:S; [|eauto].
  pose proof (search_ok _ _ _ groups_ok_save S) as MO.
  destruct (group_str_ok _ m MO "target") as [tg ->]; try reflexivity.
  destruct (group_str_ok _ m MO "save_type") as [st ->]; try reflexivity.
  destruct (group_int_ok _ m MO "bonus") as [b ->]; try reflexivity.
  simpl rbind. destruct (_matches_target self _); [|eauto].
  destruct (target_saves _); eauto.
Qed.

Lemma mapM_ok {A B} (f : A -> result B) (P : A -> Prop) l :
  (forall x, P x -> exists y, f x = Ok y) -> Forall P l ->
  exists ys, mapM f l = Ok ys.
Proof.
  intros Hf. induction 1 as [|x l Hx Hl [ys IH]]; simpl.
  - eauto.
  - destruct (Hf x Hx) as [y ->]. simpl. rewrite IH. simpl. eauto.
Qed.

Lemma damage_components_ok breakdown :
  exists comps, damage_components breakdown = Ok comps.
Proof.
  unfold damage_components.
  eapply mapM_ok; [|apply (finditer_ok pat_damage_type), groups_ok_damage_type].
  intros m MO. simpl in MO.
  destruct (group_int_ok _ m MO "1") as [n ->]; try reflexivity.
  destruct (group_str_ok _ m MO "2") as [ty ->]; try reflexivity.
  simpl. eauto.
Qed.

Lemma single_type_ok breakdown : exists o, single_type breakdown = Ok o.
Proof.
  unfold single_type. destruct breakdown as [bd|]; [|eauto].
  destruct (Py.truthy bd); [|eauto].
  destruct (damage_components_ok bd) as [comps ->]. simpl rbind.
  destruct (List.filter _ comps) as [|x [|y l]]; simpl; eauto.
Qed.

Lemma dict_add_ok k amount (d : gmap string Z) :
  exists d', dict_add k amount d = Ok d'.
Proof.
  unfold dict_add. destruct (d !! k) as [v|] eqn:E.
  - rewrite E. eauto.
  - rewrite lookup_insert_eq. eauto.
Qed.

Lemma dict_append_ok k x (d : gmap string (list Z)) :
  exists d', dict_append k x d = Ok d'.
Proof.
  unfold dict_append. destruct (d !! k) as [v|] eqn:E.
  - rewrite E. eauto.
  - rewrite lookup_insert_eq. eauto.
Qed.

Lemma append_all_ok l : forall d, exists d', append_all l d = Ok d'.
Proof.
  induction l as [|[ty n] l IH]; intros d; simpl; [eauto|].
  destruct (dict_append_ok ty n d) as [d1 ->]. simpl. apply IH.
Qed.

Lemma damage_dealt_by_player_ok now tg amount breakdown self :
  exists self', damage_dealt_by_player now tg amount breakdown self = Ok self'.
Proof.
  unfold damage_dealt_by_player.
  destruct (single_type_ok breakdown) as [o ->]. simpl rbind.
  destruct o as [[dtype damount]|].
  - destruct (last_attack_was_player _).
    + match goal with
      | |- context [dict_add ?k ?a ?d] =>
          destruct (dict_add_ok k a d) as [d' ->]
      end. simpl. eauto.
    + match goal with
      | |- context [dict_add ?k ?a ?d] =>
          destruct (dict_add_ok k a d) as [d' ->]
      end. simpl. eauto.
  - destruct (last_player_hit_was_crit _); eauto.
Qed.

Lemma damage_taken_by_player_ok now att amount breakdown self :
  exists self', damage_taken_by_player now att amount breakdown self = Ok self'.
Proof.
  unfold damage_taken_by_player. destruct breakdown as [bd|]; [|eauto].
  destruct (Py.truthy bd); [|eauto].
  destruct (damage_components_ok bd) as [comps ->]. simpl rbind.
  match goal with
  | |- context [append_all ?l ?d] => destruct (append_all_ok l d) as [d' ->]
  end. simpl. eauto.
Qed.

Lemma parse_damage_ok now line self :
  exists self', parse_damage now line self = Ok self'.
Proof.
  unfold parse_damage.
  destruct (search pat_damage line) as [m|] eqn:S; [|eauto].
  pose proof (search_ok _ _ _ groups_ok_damage S) as MO.
  destruct (group_str_ok _ m MO "attacker") as [a ->]; try reflexivity.
  destruct (group_str_ok _ m MO "target") as [tg ->]; try reflexivity.
  destruct (group_int_ok _ m MO "amount") as [n ->]; try reflexivity.
  destruct (group_any _ m MO "breakdown") as (o & -> & _); try reflexivity.
  simpl rbind.
  destruct (_ && _); [apply damage_dealt_by_player_ok|].
  destruct (_ && _); [apply damage_taken_by_player_ok | eauto].
Qed.

Lemma parse_potion_ok now line self :
  exists self', parse_potion now line self = Ok self'.
Proof.
  unfold parse_potion.
  destruct (search pat_potion line) as [m|] eqn:S; [|eauto].
  pose proof (search_ok _ _ _ groups_ok_potion S) as MO.
  destruct (group_str_ok _ m MO "user") as [u ->]; try reflexivity.
  simpl rbind. destruct (_is_player self _); [eauto|].
  destruct (_matches_target self _); eauto.
Qed.

Lemma parse_undead_heal_ok now line self :
  exists self', parse_undead_heal now line self = Ok self'.
Proof.
  unfold parse_undead_heal.
  destruct (search pat_undead_heal line) as [m|] eqn:S; [|eauto].
  pose proof (search_ok _ _ _ groups_ok_undead_heal S) as MO.
  destruct (group_str_ok _ m MO "caster") as [c ->]; try reflexivity.
  simpl rbind. destruct (_matches_target self _); eauto.
Qed.

Lemma parse_kill_ok now line self :
  exists self', parse_kill now line self = Ok self'.
Proof.
  unfold parse_kill.
  destruct (search pat_kill line) as [m|] eqn:S; [|eauto].
  pose proof (search_ok _ _ _ groups_ok_kill S) as MO.
  destruct (group_str_ok _ m MO "killer") as [k ->]; try reflexivity.
  destruct (group_str_ok _ m MO "target") as [tg ->]; try reflexivity.
  simpl rbind. destruct (_ && _); eauto.
Qed.

Lemma parse_line_ok now line self :
  exists self', parse_line now line self = Ok self'.
Proof.
  unfold parse_line. destruct (negb _); [eauto|].
  destruct (attack_step_ok now (normalize line) self) as [s1 ->]. simpl rbind.
  destruct (parse_save_ok now (normalize line) s1) as [s2 ->]. simpl rbind.
  destruct (parse_damage_ok now (normalize line) s2) as [s3 ->]. simpl rbind.
  destruct (parse_potion_ok now (normalize line) s3) as [s4 ->]. simpl rbind.
  destruct (parse_undead_heal_ok now (normalize line) s4) as [s5 ->].
  simpl rbind. apply parse_kill_ok.
Qed.

Lemma parse_lines_ok lines : forall self,
  exists self', parse_lines lines self = Ok self'.
Proof.
  induction lines as [|[now line] lines IH]; intros self; simpl; [eauto|].
  destruct (parse_line_ok now line self) as [s1 ->]. simpl. apply IH.
Qed.

End Totality.

(* ================================================================== *)
(** ** Each step of [parse_line] as a reading and its effect *)

Section Steps.

Import Re NWNCombatTracker.

Lemma attack_step_eq now line self :
  attack_step now line self =
  match attack_of line with
  | Some (a, c, p) =>
      if player_on_target self (attacker a) (target a)
      then player_attack now a c p self
      else if _matches_target self (attacker a) && _is_player self (target a)
      then Ok (target_attack now a self)
      else Ok self
  | None =>
      match conceal_miss_of line with
      | Some (a, tg, c) =>
          if player_on_target self a tg
          then Ok (conceal_miss_effect now tg c self)
          else Ok self
      | None => Ok self
      end
  end.
Proof.
  unfold attack_step, attack_of.
  destruct (find_attack_ok line) as (om & conceal & pending & -> & H).
  simpl rbind. destruct om as [m|].
  - destruct (attack_match_read m (H m eq_refl)) as [a E].
    unfold parse_attack. rewrite E. reflexivity.
  - unfold parse_conceal_miss, conceal_miss_of.
    destruct (search pat_conceal_miss line) as [m|] eqn:S; [|reflexivity].
    pose proof (search_ok _ _ _ groups_ok_conceal_miss S) as MO.
    destruct (group_str_ok _ m MO "attacker" eq_refl eq_refl) as [a ->].
    destruct (group_str_ok _ m MO "target" eq_refl eq_refl) as [tg ->].
    destruct (group_int_ok _ m MO "conceal" eq_refl eq_refl eq_refl) as [c ->].
    reflexivity.
Qed.

Lemma parse_save_eq now line self :
  parse_save now line self =
  match save_of line with
  | Some (tg, key, b) =>
      if _matches_target self tg then Ok (save_effect now tg key b self)
      else Ok self
  | None => Ok self
  end.
Proof.
  unfold parse_save, save_of.
  destruct (search pat_save line) as [m|] eqn:S; [|reflexivity].
  pose proof (search_ok _ _ _ groups_ok_save S) as MO.
  destruct (group_str_ok _ m MO "target" eq_refl eq_refl) as [tg ->].
  destruct (group_str_ok _ m MO "save_type" eq_refl eq_refl) as [st ->].
  destruct (group_int_ok _ m MO "bonus" eq_refl eq_refl eq_refl) as [b ->].
  simpl rbind. unfold save_effect.
  destruct (_matches_target self _); [|reflexivity].
  destruct (target_saves _); reflexivity.
Qed.

Lemma parse_damage_eq now line self :
  parse_damage now line self =
  match damage_of line with
  | Some (a, tg, amount, breakdown) =>
      if player_on_target self a tg
      then damage_dealt_by_player now tg amount breakdown self
      else if _matches_target self a && _is_player self tg
      then damage_taken_by_player now a amount breakdown self
      else Ok self
  | None => Ok self
  end.
Proof.
  unfold parse_damage, damage_of.
  destruct (search pat_damage line) as [m|] eqn:S; [|reflexivity].
  pose proof (search_ok _ _ _ groups_ok_damage S) as MO.
  destruct (group_str_ok _ m MO "attacker" eq_refl eq_refl) as [a ->].
  destruct (group_str_ok _ m MO "target" eq_refl eq_refl) as [tg ->].
  destruct (group_int_ok _ m MO "amount" eq_refl eq_refl eq_refl) as [n ->].
  destruct (group_any _ m MO "breakdown" eq_refl) as (o & -> & _).
  reflexivity.
Qed.

Lemma parse_potion_eq now line self :
  parse_potion now line self =
  match potion_of line with
  | Some user =>
      if _is_player self user then Ok (player_potion_effect self)
      else if _matches_target self user
      then Ok (target_heal_effect now user self)
      else Ok self
  | None => Ok self
  end.
Proof.
  unfold parse_potion, potion_of.
  destruct (search pat_potion line) as [m|] eqn:S; [|reflexivity].
  pose proof (search_ok _ _ _ groups_ok_potion S) as MO.
  destruct (group_str_ok _ m MO "user" eq_refl eq_refl) as [u ->].
  reflexivity.
Qed.

Lemma parse_undead_heal_eq now line self :
  parse_undead_heal now line self =
  match heal_of line with
  | Some caster =>
      if _matches_target self caster
      then Ok (target_heal_effect now caster self)
      else Ok self
  | None => Ok self
  end.
Proof.
  unfold parse_undead_heal, heal_of.
  destruct (search pat_undead_heal line) as [m|] eqn:S; [|reflexivity].
  pose proof (search_ok _ _ _ groups_ok_undead_heal S) as MO.
  destruct (group_str_ok _ m MO "caster" eq_refl eq_refl) as [c ->].
  reflexivity.
Qed.

Lemma parse_kill_eq now line self :
  parse_kill now line self =
  match kill_of line with
  | Some (killer, tg) =>
      if player_on_target self killer tg then Ok (kill_effect now self)
      else Ok self
  | None => Ok self
  end.
Proof.
  unfold parse_kill, kill_of.
  destruct (search pat_kill line) as [m|] eqn:S; [|reflexivity].
  pose proof (search_ok _ _ _ groups_ok_kill S) as MO.
  destruct (group_str_ok _ m MO "killer" eq_refl eq_refl) as [k ->].
  destruct (group_str_ok _ m MO "target" eq_refl eq_refl) as [tg ->].
  reflexivity.
Qed.

End Steps.

(* ================================================================== *)
(** ** What each step leaves alone *)

Lemma Ok_inj {A : Type} (x y : A) : Ok x = Ok y -> x = y.
Proof. intros H. inversion H. reflexivity. Qed.

(** A scrutinee that holds no other case analysis. *)
Ltac plain x :=
  lazymatch x with
  | context [match _ with _ => _ end] => fail
  | _ => idtac
  end.

(** Take a successful run apart, one test after the other. *)
Ltac inv_ok H :=
  repeat
    match type of H with
    | Ok _ = Ok _ => apply Ok_inj in H; subst
    | Raise _ = Ok _ => discriminate H
    | context [rbind (Ok _) _] => progress simpl rbind in H
    | context [rbind (Raise _) _] => progress simpl rbind in H
    | context [match ?x with _ => _ end] => plain x; destruct x eqn:?
    | context [rbind ?x _] =>
        lazymatch x with
        | rbind _ _ => fail
        | _ => idtac
        end;
        plain x; destruct x eqn:?; simpl rbind in H
    end.

(** An attribute read through a chain of assignments. *)
Ltac frame :=
  unfold conceal_miss_effect, save_effect, target_heal_effect,
    player_potion_effect, kill_effect, NWNCombatTracker.target_attack,
    NWNCombatTracker._set_target, NWNCombatTracker._update_encounter_time;
  simpl;
  repeat (match goal with
          | |- context [match ?x with _ => _ end] =>
              plain x; destruct x eqn:?
          end; simpl);
  first [reflexivity | congruence].

Section Frames.

Import NWNCombatTracker.

Lemma parse_save_attack_view now line s s' :
  parse_save now line s = Ok s' -> attack_view s' = attack_view s.
Proof.
  rewrite parse_save_eq. intros H. inv_ok H; try reflexivity.
  unfold attack_view. frame.
Qed.

Lemma damage_dealt_attack_view now tg amount bd s s' :
  damage_dealt_by_player now tg amount bd s = Ok s' ->
  attack_view s' = attack_view s.
Proof.
  unfold damage_dealt_by_player. intros H. inv_ok H; unfold attack_view; frame.
Qed.

Lemma damage_taken_attack_view now a amount bd s s' :
  damage_taken_by_player now a amount bd s = Ok s' ->
  attack_view s' = attack_view s.
Proof.
  unfold damage_taken_by_player. intros H. inv_ok H; unfold attack_view; frame.
Qed.

Lemma parse_damage_attack_view now line s s' :
  parse_damage now line s = Ok s' -> attack_view s' = attack_view s.
Proof.
  rewrite parse_damage_eq. intros H.
  destruct (damage_of line) as [[[[a tg] n] bd]|]; [|inv_ok H; reflexivity].
  destruct (player_on_target s a tg);
    [eapply damage_dealt_attack_view; eassumption|].
  destruct (_ && _); [eapply damage_taken_attack_view; eassumption|].
  inv_ok H. reflexivity.
Qed.

Lemma parse_potion_attack_view now line s s' :
  parse_potion now line s = Ok s' -> attack_view s' = attack_view s.
Proof.
  rewrite parse_potion_eq. intros H. inv_ok H; try reflexivity;
    unfold attack_view; frame.
Qed.

Lemma parse_undead_heal_attack_view now line s s' :
  parse_undead_heal now line s = Ok s' -> attack_view s' = attack_view s.
Proof.
  rewrite parse_undead_heal_eq. intros H. inv_ok H; try reflexivity;
    unfold attack_view; frame.
Qed.

Lemma parse_kill_attack_view now line s s' :
  parse_kill now line s = Ok s' -> attack_view s' = attack_view s.
Proof.
  rewrite parse_kill_eq. intros H. inv_ok H; try reflexivity.
Qed.

(** The steps after the attack forms leave the attack view alone. *)
Lemma after_attack_view now line s1 s2 s3 s4 s5 s' :
  parse_save now line s1 = Ok s2 -> parse_damage now line s2 = Ok s3 ->
  parse_potion now line s3 = Ok s4 -> parse_undead_heal now line s4 = Ok s5 ->
  parse_kill now line s5 = Ok s' ->
  attack_view s' = attack_view s1.
Proof.
  intros H2 H3 H4 H5 H6.
  rewrite (parse_kill_attack_view _ _ _ _ H6),
    (parse_undead_heal_attack_view _ _ _ _ H5),
    (parse_potion_attack_view _ _ _ _ H4),
    (parse_damage_attack_view _ _ _ _ H3).
  eapply parse_save_attack_view; eassumption.
Qed.

(** [parse_line] as its steps. *)
Lemma parse_line_steps now line s s' :
  parse_line now line s = Ok s' ->
  (Py.truthy (normalize line) = false /\ s' = s)
  \/ (Py.truthy (normalize line) = true
      /\ exists s1 s2 s3 s4 s5,
           attack_step now (normalize line) s = Ok s1
           /\ parse_save now (normalize line) s1 = Ok s2
           /\ parse_damage now (normalize line) s2 = Ok s3
           /\ parse_potion now (normalize line) s3 = Ok s4
           /\ parse_undead_heal now (normalize line) s4 = Ok s5
           /\ parse_kill now (normalize line) s5 = Ok s').
Proof.
  unfold parse_line. intros H.
  destruct (Py.truthy (normalize line)); simpl in H.
  - right. split; [reflexivity|].
    destruct (attack_step _ _ _) as [s1|] eqn:E1; [|discriminate].
    simpl in H.
    destruct (parse_save _ _ s1) as [s2|] eqn:E2; [|discriminate].
    simpl in H.
    destruct (parse_damage _ _ s2) as [s3|] eqn:E3; [|discriminate].
    simpl in H.
    destruct (parse_potion _ _ s3) as [s4|] eqn:E4; [|discriminate].
    simpl in H.
    destruct (parse_undead_heal _ _ s4) as [s5|] eqn:E5; [|discriminate].
    simpl in H. exists s1, s2, s3, s4, s5. auto 10.
  - left. inversion H. auto.
Qed.

End Frames.

(* ================================================================== *)
(** ** Identity and the encounter clock through the steps *)

Section Timing.

Import NWNCombatTracker.

Lemma is_player_identity s1 s name :
  identity s1 = identity s -> _is_player s1 name = _is_player s name.
Proof. unfold identity, _is_player. intros H. inversion H. congruence. Qed.

Lemma matches_target_identity s1 s name :
  identity s1 = identity s -> _matches_target s1 name = _matches_target s name.
Proof.
  intros H. unfold _matches_target.
  rewrite (is_player_identity _ _ _ H).
  unfold identity in H. inversion H as [[H1 H2 H3 H4 H5]].
  rewrite H2, H3, H4, H5. reflexivity.
Qed.

Lemma player_on_target_identity s1 s a tg :
  identity s1 = identity s -> player_on_target s1 a tg = player_on_target s a tg.
Proof.
  intros H. unfold player_on_target.
  rewrite (is_player_identity _ _ _ H), (matches_target_identity _ _ _ H).
  reflexivity.
Qed.

Lemma touch_touch now tm : touch now (touch now tm) = touch now tm.
Proof. destruct tm as [[st|] la]; reflexivity. Qed.

Ltac timing_goal :=
  unfold timing, touch, identity, NWNCombatTracker.player_attack,
    NWNCombatTracker.damage_dealt_by_player,
    NWNCombatTracker.damage_taken_by_player in *;
  simpl in *.

Lemma player_attack_timing now a c p s s' :
  player_attack now a c p s = Ok s' -> timing s' = touch now (timing s).
Proof.
  unfold player_attack. intros H. inv_ok H; unfold timing, touch; simpl; frame.
Qed.

Lemma target_attack_timing now a s :
  timing (target_attack now a s) = touch now (timing s).
Proof. unfold timing, touch; simpl; frame. Qed.

Lemma attack_step_timing now line s s' :
  attack_step now line s = Ok s' ->
  if attack_fires s line then timing s' = touch now (timing s) else s' = s.
Proof.
  rewrite attack_step_eq. unfold attack_fires. intros H.
  destruct (attack_of line) as [[[a c] p]|].
  - destruct (player_on_target s _ _); simpl.
    + eapply player_attack_timing; eassumption.
    + destruct (_ && _); inv_ok H; [apply target_attack_timing | reflexivity].
  - destruct (conceal_miss_of line) as [[[a tg] c]|]; [|inv_ok H; reflexivity].
    destruct (player_on_target s a tg); inv_ok H; [|reflexivity].
    unfold timing, touch; simpl; frame.
Qed.

Lemma parse_save_timing now line s s' :
  parse_save now line s = Ok s' ->
  if save_fires s line then timing s' = touch now (timing s) else s' = s.
Proof.
  rewrite parse_save_eq. unfold save_fires. intros H.
  destruct (save_of line) as [[[tg key] b]|]; [|inv_ok H; reflexivity].
  destruct (_matches_target s tg); inv_ok H; [|reflexivity].
  unfold timing, touch; simpl; frame.
Qed.

Lemma damage_dealt_timing now tg amount bd s s' :
  damage_dealt_by_player now tg amount bd s = Ok s' ->
  timing s' = touch now (timing s).
Proof.
  unfold damage_dealt_by_player. intros H.
  inv_ok H; unfold timing, touch; simpl; frame.
Qed.

Lemma damage_taken_timing now a amount bd s s' :
  damage_taken_by_player now a amount bd s = Ok s' ->
  timing s' = touch now (timing s).
Proof.
  unfold damage_taken_by_player. intros H.
  inv_ok H; unfold timing, touch; simpl; frame.
Qed.

Lemma parse_damage_timing now line s s' :
  parse_damage now line s = Ok s' ->
  if damage_fires s line then timing s' = touch now (timing s) else s' = s.
Proof.
  rewrite parse_damage_eq. unfold damage_fires. intros H.
  destruct (damage_of line) as [[[[a tg] n] bd]|]; [|inv_ok H; reflexivity].
  destruct (player_on_target s a tg); simpl.
  - eapply damage_dealt_timing; eassumption.
  - destruct (_ && _); [eapply damage_taken_timing; eassumption|].
    inv_ok H. reflexivity.
Qed.

Lemma parse_potion_timing now line s s' :
  parse_potion now line s = Ok s' ->
  if potion_fires s line then timing s' = touch now (timing s)
  else identity s' = identity s /\ timing s' = timing s.
Proof.
  rewrite parse_potion_eq. unfold potion_fires. intros H.
  destruct (potion_of line) as [u|]; [|inv_ok H; auto].
  destruct (_is_player s u); simpl; [inv_ok H; auto|].
  destruct (_matches_target s u); inv_ok H; [|auto].
  unfold timing, touch; simpl; frame.
Qed.

Lemma parse_undead_heal_timing now line s s' :
  parse_undead_heal now line s = Ok s' ->
  if heal_fires s line then timing s' = touch now (timing s) else s' = s.
Proof.
  rewrite parse_undead_heal_eq. unfold heal_fires. intros H.
  destruct (heal_of line) as [u|]; [|inv_ok H; auto].
  destruct (_matches_target s u); inv_ok H; [|auto].
  unfold timing, touch; simpl; frame.
Qed.

Lemma parse_kill_timing now line s s' :
  parse_kill now line s = Ok s' ->
  identity s' = identity s /\ timing s' = timing s.
Proof.
  rewrite parse_kill_eq. intros H. inv_ok H; auto.
Qed.

Lemma attack_fires_identity s1 s line :
  identity s1 = identity s -> attack_fires s1 line = attack_fires s line.
Proof.
  intros H. unfold attack_fires.
  destruct (attack_of line) as [[[a c] p]|].
  - rewrite (player_on_target_identity _ _ _ _ H),
      (is_player_identity _ _ _ H), (matches_target_identity _ _ _ H).
    reflexivity.
  - destruct (conceal_miss_of line) as [[[a tg] c]|]; [|reflexivity].
    apply player_on_target_identity, H.
Qed.

Lemma save_fires_identity s1 s line :
  identity s1 = identity s -> save_fires s1 line = save_fires s line.
Proof.
  intros H. unfold save_fires. destruct (save_of line) as [[[tg k] b]|];
    [apply matches_target_identity, H | reflexivity].
Qed.

Lemma damage_fires_identity s1 s line :
  identity s1 = identity s -> damage_fires s1 line = damage_fires s line.
Proof.
  intros H. unfold damage_fires.
  destruct (damage_of line) as [[[[a tg] n] bd]|]; [|reflexivity].
  rewrite (player_on_target_identity _ _ _ _ H),
    (is_player_identity _ _ _ H), (matches_target_identity _ _ _ H).
  reflexivity.
Qed.

Lemma potion_fires_identity s1 s line :
  identity s1 = identity s -> potion_fires s1 line = potion_fires s line.
Proof.
  intros H. unfold potion_fires. destruct (potion_of line) as [u|]; [|reflexivity].
  rewrite (is_player_identity _ _ _ H), (matches_target_identity _ _ _ H).
  reflexivity.
Qed.

Lemma heal_fires_identity s1 s line :
  identity s1 = identity s -> heal_fires s1 line = heal_fires s line.
Proof.
  intros H. unfold heal_fires. destruct (heal_of line) as [u|];
    [apply matches_target_identity, H | reflexivity].
Qed.


Lemma clock_after_step now s sk sk' (f g gk : bool) :
  clock_after now s sk f ->
  (identity sk = identity s -> gk = g) ->
  clock_after now sk sk' gk ->
  clock_after now s sk' (f || g).
Proof.
  unfold clock_after. intros Hf Hg Hk. destruct f; simpl.
  - destruct gk.
    + rewrite Hk, Hf. apply touch_touch.
    + destruct Hk as [_ Hk]. congruence.
  - destruct Hf as [Hi Ht]. rewrite <- (Hg Hi). destruct gk.
    + congruence.
    + destruct Hk as [Hi' Ht']. split; congruence.
Qed.

Lemma clock_after_same now s s' (g : bool) :
  (if g then timing s' = touch now (timing s) else s' = s) ->
  clock_after now s s' g.
Proof.
  unfold clock_after. destruct g; [auto|]. intros ->. auto.
Qed.

Lemma empty_line_silent s : touches_time s "" = false.
Proof. reflexivity. Qed.

Lemma not_truthy s : Py.truthy s = false -> s = ""%string.
Proof. destruct s; [reflexivity | discriminate]. Qed.

(** The encounter clock after [parse_line]. *)
Lemma parse_line_timing now line s s' :
  parse_line now line s = Ok s' ->
  timing s' = if touches_time s (normalize line) then touch now (timing s)
              else timing s.
Proof.
  intros H. apply parse_line_steps in H.
  destruct H as [[E ->] | [_ (s1 & s2 & s3 & s4 & s5 & H1 & H2 & H3 & H4 & H5 & H6)]].
  - apply not_truthy in E. rewrite E, empty_line_silent. reflexivity.
  - set (L := normalize line) in *.
    pose proof (clock_after_same _ _ _ _ (attack_step_timing _ _ _ _ H1)) as C1.
    pose proof (clock_after_same _ _ _ _ (parse_save_timing _ _ _ _ H2)) as C2.
    pose proof (clock_after_same _ _ _ _ (parse_damage_timing _ _ _ _ H3)) as C3.
    pose proof (parse_potion_timing _ _ _ _ H4) as C4.
    pose proof (clock_after_same _ _ _ _ (parse_undead_heal_timing _ _ _ _ H5)) as C5.
    pose proof (parse_kill_timing _ _ _ _ H6) as C6.
    pose proof (clock_after_step now s s1 s2 _ (save_fires s L) _ C1
                  (fun Hi => save_fires_identity _ _ _ Hi) C2) as D2.
    pose proof (clock_after_step now s s2 s3 _ (damage_fires s L) _ D2
                  (fun Hi => damage_fires_identity _ _ _ Hi) C3) as D3.
    pose proof (clock_after_step now s s3 s4 _ (potion_fires s L) _ D3
                  (fun Hi => potion_fires_identity _ _ _ Hi) C4) as D4.
    pose proof (clock_after_step now s s4 s5 _ (heal_fires s L) _ D4
                  (fun Hi => heal_fires_identity _ _ _ Hi) C5) as D5.
    pose proof (clock_after_step now s s5 s' _ false false D5
                  (fun _ => eq_refl) C6) as D6.
    rewrite orb_false_r in D6. unfold clock_after in D6.
    fold (touches_time s L) in D6.
    destruct (touches_time s L); [exact D6 | apply D6].
Qed.

End Timing.

(* ================================================================== *)
(** ** The bound opponent, the kill view and the ledgers through the steps *)

Section Bound.

Import NWNCombatTracker.

Lemma set_target_bound name s : bound s -> _set_target name s = s.
Proof. unfold bound, _set_target. intros ->. reflexivity. Qed.

(** With the opponent bound, assignments through [_set_target] vanish. *)
Ltac bframe Hb :=
  unfold conceal_miss_effect, save_effect, target_heal_effect,
    player_potion_effect, kill_effect, NWNCombatTracker.target_attack;
  rewrite ?(set_target_bound _ _ Hb);
  frame.


Lemma ac_tightens_trans a b c :
  ac_tightens a b -> ac_tightens b c -> ac_tightens a c.
Proof.
  destruct a, b, c; simpl; try tauto. intros [H1 H2] [H3 H4]. split.
  - eapply min_hit_tightens_trans; eassumption.
  - eapply max_miss_tightens_trans; eassumption.
Qed.

Lemma is_miss_not_hit a : is_miss a = true -> is_hit a = false.
Proof.
  unfold is_miss, is_hit. intros H.
  apply orb_prop in H. destruct H as [H | H];
    [apply orb_prop in H; destruct H as [H | H]|];
    apply String.eqb_eq in H; rewrite H; reflexivity.
Qed.

Lemma is_miss_not_crit a : is_miss a = true -> is_crit a = false.
Proof.
  unfold is_miss, is_crit. intros H.
  apply orb_prop in H. destruct H as [H | H];
    [apply orb_prop in H; destruct H as [H | H]|];
    apply String.eqb_eq in H; rewrite H; reflexivity.
Qed.

(** *** The attack forms *)



Lemma player_attack_ledger_view now a c p s s' :
  player_attack now a c p s = Ok s' -> ledger_view s' = ledger_view s.
Proof.
  unfold player_attack. intros H. inv_ok H; unfold ledger_view; frame.
Qed.



Ltac open_step E H :=
  rewrite E;
  unfold NWNCombatTracker.damage_dealt_by_player,
    NWNCombatTracker.damage_taken_by_player;
  intros H; inv_ok H; try reflexivity.



Lemma attack_step_ledger_view now line s s' :
  attack_step now line s = Ok s' -> ledger_view s' = ledger_view s.
Proof.
  rewrite attack_step_eq. intros H.
  destruct (attack_of line) as [[[a c] p]|].
  - destruct (player_on_target s _ _);
      [eapply player_attack_ledger_view; eassumption|].
    inv_ok H; try reflexivity. unfold ledger_view. frame.
  - inv_ok H; try reflexivity. unfold ledger_view. frame.
Qed.

(** *** The other steps *)

Lemma parse_save_quiet now line s s' :
  bound s -> parse_save now line s = Ok s' -> quiet s' = quiet s.
Proof. intros Hb. open_step parse_save_eq H. unfold quiet, identity. bframe Hb. Qed.


Lemma parse_save_ledger_view now line s s' :
  parse_save now line s = Ok s' -> ledger_view s' = ledger_view s.
Proof. open_step parse_save_eq H. unfold ledger_view. frame. Qed.

Lemma parse_damage_quiet now line s s' :
  bound s -> parse_damage now line s = Ok s' -> quiet s' = quiet s.
Proof.
  intros Hb. open_step parse_damage_eq H; unfold quiet, identity; bframe Hb.
Qed.


Lemma parse_potion_quiet now line s s' :
  bound s -> parse_potion now line s = Ok s' -> quiet s' = quiet s.
Proof.
  intros Hb. open_step parse_potion_eq H; unfold quiet, identity; bframe Hb.
Qed.


Lemma parse_potion_ledger_view now line s s' :
  parse_potion now line s = Ok s' -> ledger_view s' = ledger_view s.
Proof. open_step parse_potion_eq H; unfold ledger_view; frame. Qed.



Lemma parse_undead_heal_ledger_view now line s s' :
  parse_undead_heal now line s = Ok s' -> ledger_view s' = ledger_view s.
Proof. open_step parse_undead_heal_eq H; unfold ledger_view; frame. Qed.


Lemma parse_kill_ledger_view now line s s' :
  parse_kill now line s = Ok s' -> ledger_view s' = ledger_view s.
Proof. open_step parse_kill_eq H. Qed.


Lemma bound_identity s s' : identity s' = identity s -> bound s -> bound s'.
Proof. unfold identity, bound. intros H. inversion H. congruence. Qed.

End Bound.

(* ================================================================== *)
(** ** Damage routing, pending attacks and the exchange flags *)

Section Routing.

Import NWNCombatTracker.

Lemma single_type_spec breakdown :
  single_type breakdown
  = Ok match nonzero_components breakdown with
       | [x] => Some x
       | _ => None
       end.
Proof.
  unfold single_type, nonzero_components.
  destruct breakdown as [bd|]; [|reflexivity].
  destruct (Py.truthy bd); [|reflexivity].
  destruct (damage_components_ok bd) as [comps ->]. simpl rbind.
  destruct (List.filter _ comps) as [|x [|y l]]; reflexivity.
Qed.

Lemma dict_add_spec k amount (d : gmap string Z) :
  dict_add k amount d = Ok (added k amount d).
Proof.
  unfold dict_add, added. destruct (d !! k) as [v|] eqn:E.
  - rewrite E. reflexivity.
  - rewrite lookup_insert_eq, insert_insert_eq. reflexivity.
Qed.

(** Lines 395 to 430 route the amount as [damage_routed] says. *)
Lemma damage_dealt_routes now tg amount breakdown s s' :
  damage_dealt_by_player now tg amount breakdown s = Ok s' ->
  damage_routed amount breakdown s s'.
Proof.
  unfold damage_dealt_by_player, damage_routed.
  rewrite single_type_spec. simpl rbind.
  unfold _set_target, _update_encounter_time, added.
  destruct (nonzero_components breakdown) as [|[dtype n] [|y l]];
    destruct (negb (Py.truthy (target_name s))); simpl;
    destruct (encounter_start s); simpl;
    destruct (last_attack_was_player s); simpl;
    destruct (last_player_hit_was_crit s); simpl;
    rewrite ?dict_add_spec; simpl;
    intros H; inversion H; subst; simpl; auto 10.
Qed.

Lemma parse_damage_routes now line s s' a tg amount breakdown :
  damage_of line = Some (a, tg, amount, breakdown) ->
  player_on_target s a tg = true ->
  parse_damage now line s = Ok s' ->
  damage_routed amount breakdown s s'.
Proof.
  intros Hd Hp. rewrite parse_damage_eq, Hd, Hp.
  apply damage_dealt_routes.
Qed.

(** [damage_routed] reads only the ledgers of the tracker after. *)
Lemma damage_routed_ledger amount breakdown s s1 s2 :
  ledger_view s2 = ledger_view s1 ->
  damage_routed amount breakdown s s1 -> damage_routed amount breakdown s s2.
Proof.
  unfold ledger_view, damage_routed. intros E. inversion E as [[E1 E2 E3 E4 E5 E6 E7 E8 E9]].
  rewrite E1, E2, E3, E4, E5, E6, E7. tauto.
Qed.

(** *** Pending attacks *)

Lemma int_accepts_nonempty w n : Py.int w = Ok n -> Py.truthy w = true.
Proof. destruct w; [discriminate | reflexivity]. Qed.

(** A pattern whose [bonus] group is mandatory gives an attack with a
    bonus. *)
Lemma read_attack_bonus r m a :
  match_ok r m ->
  existsb (String.eqb "bonus") (Re.names r) = true ->
  existsb (String.eqb "bonus") (mandatory r) = true ->
  read_attack m = Ok a -> exists b, bonus a = Some b.
Proof.
  intros MO Hn Hm H.
  destruct (group_present r m MO "bonus" Hn Hm) as (w & E & S).
  unfold cap_shape in S. simpl in S. destruct S as [n Hw].
  unfold read_attack in H. rewrite E in H.
  destruct (group_str m "attacker"); [|discriminate]. simpl rbind in H.
  destruct (group_str m "target"); [|discriminate]. simpl rbind in H.
  destruct (if Re.has_group "outcome" m then _ else _); [|discriminate].
  simpl rbind in H.
  destruct (Re.group m "roll"); [|discriminate]. simpl rbind in H.
  destruct (Re.group m "total"); [|discriminate]. simpl rbind in H.
  destruct (int_if _) as [r0|]; [|discriminate]. simpl rbind in H.
  unfold int_if at 1 in H.
  rewrite (int_accepts_nonempty _ _ Hw), Hw in H. simpl rbind in H.
  destruct a4 as [w'|]; [destruct (Py.truthy w'); [destruct (Py.int w')|]|];
    simpl in H; inversion H; simpl; eauto.
Qed.

(** A pending attack carries a concealment percentage and a bonus. *)
Lemma pending_reading line a c :
  attack_of line = Some (a, c, true) ->
  exists cv b, c = Some cv /\ bonus a = Some b.
Proof.
  unfold attack_of, find_attack.
  destruct (Re.search pat_attack_conceal line) as [m|] eqn:S1.
  - destruct (group_int m "conceal"); simpl; [|discriminate].
    destruct (read_attack m); intros H; inversion H.
  - destruct (Re.search pat_attack_conceal_pending line) as [m|] eqn:S2.
    + pose proof (search_ok _ _ _ groups_ok_attack_conceal_pending S2) as MO.
      destruct (group_int m "conceal") as [cv|]; simpl; [|discriminate].
      destruct (read_attack m) as [a'|] eqn:R; intros H; inversion H; subst.
      destruct (read_attack_bonus _ m a MO eq_refl eq_refl R) as [b Hb].
      eauto.
    + destruct (Re.search pat_attack line); [|discriminate].
      destruct (read_attack _); intros H; inversion H.
Qed.

(** A pending attack of the player: lines 317 to 327. *)
Lemma player_attack_pending now a cv b s s' :
  bonus a = Some b ->
  player_attack now a (Some cv) true s = Ok s' ->
  hits s' = hits s /\ misses s' = misses s /\ crits s' = crits s
  /\ conceals s' = conceals s
  /\ exchange_flags s' = exchange_flags s
  /\ target_conceal_pct s' = Some cv
  /\ AttackBonus.update now now b (attack_bonus s) = Ok (attack_bonus s').
Proof.
  intros Hb. unfold player_attack, exchange_flags. rewrite Hb.
  unfold _set_target, _update_encounter_time.
  destruct (negb (Py.truthy (target_name s))); simpl;
    destruct (encounter_start s); simpl;
    destruct (AttackBonus.update now now b (attack_bonus s)); simpl;
    intros H; inversion H; subst; simpl; auto 10.
Qed.

(** *** The exchange flags *)

Lemma attack_view_flags s s' :
  attack_view s' = attack_view s -> exchange_flags s' = exchange_flags s.
Proof.
  unfold attack_view, exchange_flags. intros H. inversion H. congruence.
Qed.

(** A player attack as its two halves, with the window update between
    them. *)
Lemma player_attack_eq now a c p s :
  player_attack now a c p s =
  match bonus a with
  | Some b =>
      let! ab := AttackBonus.update now now b
                   (attack_bonus (attack_prep now a c s)) in
      Ok (attack_resolve a p (set_attack_bonus ab (attack_prep now a c s)))
  | None => Ok (attack_resolve a p (attack_prep now a c s))
  end.
Proof.
  unfold player_attack, attack_resolve. fold (attack_prep now a c s).
  generalize (attack_prep now a c s). intros s0.
  destruct (bonus a) as [b|]; simpl rbind;
    [destruct (AttackBonus.update _ _ _ _) as [ab|]; simpl rbind;
       [|reflexivity]|];
    destruct (negb p), (is_hit a), (is_crit a), (is_miss a), (total a);
    simpl; try reflexivity; destruct (target_ac s0); reflexivity.
Qed.

Lemma attack_prep_flags now a c s :
  exchange_flags (attack_prep now a c s) = exchange_flags s.
Proof. unfold attack_prep, exchange_flags. frame. Qed.

Lemma attack_resolve_flags a p s :
  exchange_flags (attack_resolve a p s) =
  if negb p && is_hit a then (true, is_crit a) else exchange_flags s.
Proof.
  unfold attack_resolve, exchange_flags.
  destruct p, (is_hit a), (is_crit a), (is_miss a), (total a); simpl;
    try reflexivity; destruct (target_ac s); reflexivity.
Qed.

Lemma player_attack_flags now a c p s s' :
  player_attack now a c p s = Ok s' ->
  exchange_flags s' =
  if negb p && is_hit a then (true, is_crit a) else exchange_flags s.
Proof.
  rewrite player_attack_eq. intros H.
  destruct (bonus a) as [b|].
  - destruct (AttackBonus.update _ _ _ _) as [ab|]; [|discriminate].
    apply Ok_inj in H. subst s'. rewrite attack_resolve_flags.
    destruct (negb p && is_hit a); [reflexivity|].
    apply attack_prep_flags.
  - apply Ok_inj in H. subst s'. rewrite attack_resolve_flags.
    destruct (negb p && is_hit a); [reflexivity|].
    apply attack_prep_flags.
Qed.

Lemma target_attack_flags now a s :
  is_hit a = false -> is_crit a = false ->
  exchange_flags (target_attack now a s) = exchange_flags s.
Proof.
  intros Hh Hc. unfold target_attack, exchange_flags. rewrite Hh, Hc. frame.
Qed.

(** A miss, a parry or a resist leaves the two flags alone, whoever
    attacks. *)
Lemma attack_step_miss_flags now line s s' a c p :
  attack_of line = Some (a, c, p) -> is_miss a = true ->
  attack_step now line s = Ok s' ->
  exchange_flags s' = exchange_flags s.
Proof.
  intros Ha Hm. rewrite attack_step_eq, Ha. intros H.
  pose proof (is_miss_not_hit a Hm) as Hh.
  pose proof (is_miss_not_crit a Hm) as Hc.
  destruct (player_on_target s _ _).
  - rewrite (player_attack_flags _ _ _ _ _ _ H), Hh, andb_false_r. reflexivity.
  - destruct (_ && _); inv_ok H; [|reflexivity].
    apply target_attack_flags; assumption.
Qed.

Lemma attack_of_empty : attack_of "" = None.
Proof. reflexivity. Qed.

Lemma attack_of_truthy line x : attack_of line = Some x -> Py.truthy line = true.
Proof.
  destruct line; [|reflexivity]. rewrite attack_of_empty. discriminate.
Qed.

(** [parse_line] on a line with an attack: the attack forms, then steps
    that leave the attack view alone. *)
Lemma parse_line_attack now line s s' x :
  attack_of (normalize line) = Some x ->
  parse_line now line s = Ok s' ->
  exists s1, attack_step now (normalize line) s = Ok s1
             /\ attack_view s' = attack_view s1.
Proof.
  intros Ha H. apply parse_line_steps in H.
  destruct H as [[E _] | [_ (s1 & s2 & s3 & s4 & s5 & H1 & H2 & H3 & H4 & H5 & H6)]].
  - rewrite (attack_of_truthy _ _ Ha) in E. discriminate.
  - exists s1. split; [exact H1|]. eapply after_attack_view; eassumption.
Qed.

(** *** The bound opponent through [parse_line] *)

Lemma quiet_parts s s' :
  quiet s' = quiet s -> identity s' = identity s /\ target_ac s' = target_ac s.
Proof. unfold quiet. intros H. apply pair_equal_spec in H. exact H. Qed.



(** *** The kill view through [parse_line] *)




(** *** A damage line of the player through [parse_line] *)

Lemma damage_of_empty : damage_of "" = None.
Proof. reflexivity. Qed.

Lemma parse_line_damage_routes now line s s' a tg amount breakdown :
  damage_of (normalize line) = Some (a, tg, amount, breakdown) ->
  attack_fires s (normalize line) = false ->
  save_fires s (normalize line) = false ->
  player_on_target s a tg = true ->
  parse_line now line s = Ok s' ->
  damage_routed amount breakdown s s'.
Proof.
  intros Hd Ha Hs Hp H. apply parse_line_steps in H.
  destruct H as [[E _] | [_ (s1 & s2 & s3 & s4 & s5 & H1 & H2 & H3 & H4 & H5 & H6)]].
  - apply not_truthy in E. rewrite E, damage_of_empty in Hd. discriminate.
  - pose proof (attack_step_timing _ _ _ _ H1) as T1. rewrite Ha in T1. subst s1.
    pose proof (parse_save_timing _ _ _ _ H2) as T2. rewrite Hs in T2. subst s2.
    eapply damage_routed_ledger;
      [|eapply parse_damage_routes; eassumption].
    rewrite (parse_kill_ledger_view _ _ _ _ H6),
      (parse_undead_heal_ledger_view _ _ _ _ H5).
    eapply parse_potion_ledger_view; eassumption.
Qed.

(** *** Attack lines of the player through [parse_line] *)




End Routing.

(* ================================================================== *)
(** ** The line preprocessor *)

Section Prefix.

Import NWNCombatTracker.

Lemma match_here_lang r s c rest :
  Re.match_here r s = Some (c, rest) -> groups_ok (fun _ _ => True) r ->
  exists w, s = w ++ rest /\ lang r w.
Proof.
  intros H Hok. unfold Re.match_here in H.
  destruct (run_sound (fun _ _ => True) r Hok _ _ _ _ H)
    as (w & s' & d & E & L & _ & _ & A).
  unfold Re.accept in A. inversion A. subst. eauto.
Qed.

Lemma strip_prefix_none line :
  leading_prefix line = None -> _strip_prefix line = Py.strip line.
Proof.
  unfold leading_prefix, _strip_prefix, Re.sub_anchored. intros ->. reflexivity.
Qed.

Lemma strip_prefix_some line c rest :
  leading_prefix line = Some (c, rest) ->
  _strip_prefix line = Py.strip (string_of_list_ascii rest)
  /\ exists w, list_ascii_of_string line = w ++ rest /\ lang pat_prefix w.
Proof.
  unfold leading_prefix, _strip_prefix, Re.sub_anchored. intros H. rewrite H.
  split; [reflexivity|]. eapply match_here_lang; [exact H|].
  cbv [groups_ok pat_prefix]. repeat split.
Qed.

Lemma strip_prefix_stripped line : Py.strip (_strip_prefix line) = _strip_prefix line.
Proof. unfold _strip_prefix. apply strip_idem. Qed.

End Prefix.

(* ================================================================== *)
(** ** The attack forms, case by case *)

(** The outcomes of the attack forms, each with the tracker after. *)
Ltac attack_cases H :=
  rewrite attack_step_eq in H;
  destruct (attack_of _) as [[[? ?] ?]|];
  [ destruct (player_on_target _ _ _) eqn:?;
    [ rewrite player_attack_eq in H;
      destruct (NWNCombatTracker.bonus _);
      [ destruct (AttackBonus.update _ _ _ _); [|discriminate H] |];
      apply Ok_inj in H; subst
    | destruct (_ && _) eqn:?; apply Ok_inj in H; subst ]
  | destruct (conceal_miss_of _) as [[[? ?] ?]|];
    [ destruct (player_on_target _ _ _) eqn:? |];
    apply Ok_inj in H; subst ].

Ltac frame2 := unfold attack_resolve, attack_prep; frame.

(** [frame] once the opponent is bound ([Hb]), and the opening of a
    step by its equation [E]. *)
Ltac bound_frame Hb :=
  unfold conceal_miss_effect, save_effect, target_heal_effect,
    player_potion_effect, kill_effect, NWNCombatTracker.target_attack,
    attack_resolve, attack_prep;
  rewrite ?(set_target_bound _ _ Hb);
  frame.

Ltac step_cases E H :=
  rewrite E;
  unfold NWNCombatTracker.damage_dealt_by_player,
    NWNCombatTracker.damage_taken_by_player;
  intros H; inv_ok H; try reflexivity.

Section MoreFrames.

Import NWNCombatTracker.

(** *** The configuration *)

Lemma attack_step_config now line s s' :
  attack_step now line s = Ok s' -> config s' = config s.
Proof. intros H. attack_cases H; try reflexivity; unfold config; frame2. Qed.

Lemma parse_save_config now line s s' :
  parse_save now line s = Ok s' -> config s' = config s.
Proof. rewrite parse_save_eq. intros H. inv_ok H; try reflexivity. unfold config. frame. Qed.

Lemma parse_damage_config now line s s' :
  parse_damage now line s = Ok s' -> config s' = config s.
Proof.
  rewrite parse_damage_eq.
  unfold damage_dealt_by_player, damage_taken_by_player.
  intros H. inv_ok H; try reflexivity; unfold config; frame.
Qed.

Lemma parse_potion_config now line s s' :
  parse_potion now line s = Ok s' -> config s' = config s.
Proof. rewrite parse_potion_eq. intros H. inv_ok H; try reflexivity; unfold config; frame. Qed.

Lemma parse_undead_heal_config now line s s' :
  parse_undead_heal now line s = Ok s' -> config s' = config s.
Proof. rewrite parse_undead_heal_eq. intros H. inv_ok H; try reflexivity; unfold config; frame. Qed.

Lemma parse_kill_config now line s s' :
  parse_kill now line s = Ok s' -> config s' = config s.
Proof. rewrite parse_kill_eq. intros H. inv_ok H; try reflexivity. Qed.

Lemma parse_line_config now line s s' :
  parse_line now line s = Ok s' -> config s' = config s.
Proof.
  intros H. apply parse_line_steps in H.
  destruct H as [[_ ->] | [_ (s1 & s2 & s3 & s4 & s5 & H1 & H2 & H3 & H4 & H5 & H6)]];
    [reflexivity|].
  rewrite (parse_kill_config _ _ _ _ H6), (parse_undead_heal_config _ _ _ _ H5),
    (parse_potion_config _ _ _ _ H4), (parse_damage_config _ _ _ _ H3),
    (parse_save_config _ _ _ _ H2).
  eapply attack_step_config; eassumption.
Qed.

(** *** The counters *)

Lemma attack_step_counters now line s s' :
  attack_step now line s = Ok s' ->
  (hits s', misses s', crits s', conceals s')
  = (hits s, misses s, crits s, conceals s)
  \/ (hits s', misses s', crits s', conceals s')
     = (hits s + 1, misses s, crits s, conceals s)
  \/ (hits s', misses s', crits s', conceals s')
     = (hits s + 1, misses s, crits s + 1, conceals s)
  \/ (hits s', misses s', crits s', conceals s')
     = (hits s, misses s + 1, crits s, conceals s)
  \/ (hits s', misses s', crits s', conceals s')
     = (hits s, misses s, crits s, conceals s + 1).
Proof.
  intros H. attack_cases H; try (left; reflexivity).
  - unfold attack_resolve, attack_prep, _set_target, _update_encounter_time.
    repeat (match goal with
            | |- context [match ?x with _ => _ end] => plain x; destruct x
            end; simpl); tauto.
  - unfold attack_resolve, attack_prep, _set_target, _update_encounter_time.
    repeat (match goal with
            | |- context [match ?x with _ => _ end] => plain x; destruct x
            end; simpl); tauto.
  - left. frame.
  - do 4 right. frame.
Qed.

End MoreFrames.

(* ================================================================== *)
(** ** Invariants over a log *)

Section LogInvariants.

Import NWNCombatTracker.

(** What every line keeps, every log keeps. *)
Lemma parse_lines_inv (P : t -> Prop) :
  (forall now line s s', P s -> parse_line now line s = Ok s' -> P s') ->
  forall lines s s', P s -> parse_lines lines s = Ok s' -> P s'.
Proof.
  intros Hstep. induction lines as [|[now line] rest IH]; intros s s' Hs H.
  - simpl in H. apply Ok_inj in H. now subst.
  - simpl in H. destruct (parse_line now line s) as [s1|] eqn:E1; [|discriminate].
    simpl in H. eapply IH; [|exact H]. eapply Hstep; eassumption.
Qed.

Lemma parse_lines_config lines : forall s s',
  parse_lines lines s = Ok s' -> config s' = config s.
Proof.
  induction lines as [|[now line] rest IH]; intros s s' H.
  - simpl in H. apply Ok_inj in H. now subst.
  - simpl in H. destruct (parse_line now line s) as [s1|] eqn:E1; [|discriminate].
    simpl in H. rewrite (IH _ _ H). eapply parse_line_config; eassumption.
Qed.

Lemma attack_view_counters s s' :
  attack_view s' = attack_view s ->
  (hits s', misses s', crits s', conceals s')
  = (hits s, misses s, crits s, conceals s).
Proof. unfold attack_view. intros H. congruence. Qed.

Lemma parse_line_counters now line s s' :
  parse_line now line s = Ok s' ->
  (hits s', misses s', crits s', conceals s')
  = (hits s, misses s, crits s, conceals s)
  \/ (hits s', misses s', crits s', conceals s')
     = (hits s + 1, misses s, crits s, conceals s)
  \/ (hits s', misses s', crits s', conceals s')
     = (hits s + 1, misses s, crits s + 1, conceals s)
  \/ (hits s', misses s', crits s', conceals s')
     = (hits s, misses s + 1, crits s, conceals s)
  \/ (hits s', misses s', crits s', conceals s')
     = (hits s, misses s, crits s, conceals s + 1).
Proof.
  intros H. apply parse_line_steps in H.
  destruct H as [[_ ->] | [_ (s1 & s2 & s3 & s4 & s5 & H1 & H2 & H3 & H4 & H5 & H6)]];
    [left; reflexivity|].
  rewrite (attack_view_counters _ _
             (after_attack_view _ _ _ _ _ _ _ _ H2 H3 H4 H5 H6)).
  eapply attack_step_counters; eassumption.
Qed.

Lemma parse_line_counters_ok now line s s' :
  counters_ok s -> parse_line now line s = Ok s' -> counters_ok s'.
Proof.
  unfold counters_ok. intros Hs H. apply parse_line_counters in H.
  destruct H as [H|[H|[H|[H|H]]]]; injection H as -> -> -> ->; lia.
Qed.

Lemma fresh_counters_ok s : fresh s -> counters_ok s.
Proof.
  intros [(now & p & f & e & r & a & ->) | (s0 & ->)];
    unfold counters_ok; simpl; lia.
Qed.

End LogInvariants.

(* ================================================================== *)
(** ** The damage ledgers *)

Section Ledgers.

Import NWNCombatTracker.

Lemma sum_list_app l1 l2 : sum_list (l1 ++ l2) = sum_list l1 + sum_list l2.
Proof. induction l1 as [|x l1 IH]; simpl; [reflexivity | rewrite IH; lia]. Qed.

Lemma map_total_insert k v (d : gmap string Z) :
  d !! k = None -> map_total (<[k := v]> d) = v + map_total d.
Proof.
  intros H. unfold map_total.
  rewrite map_fold_insert_L; [reflexivity | intros; lia | exact H].
Qed.

Lemma map_total_added k amount (d : gmap string Z) :
  map_total (added k amount d) = map_total d + amount.
Proof.
  unfold added. destruct (d !! k) as [v|] eqn:E; simpl.
  - rewrite <- (insert_delete_id d k v E) at 2.
    rewrite <- insert_delete_eq.
    rewrite !map_total_insert by apply lookup_delete_eq. lia.
  - rewrite map_total_insert by exact E. lia.
Qed.

Lemma ledger_ok_view s s' :
  ledger_view s' = ledger_view s -> ledger_ok s -> ledger_ok s'.
Proof.
  unfold ledger_view, ledger_ok. intros H.
  injection H as -> -> -> -> -> -> -> _ _. tauto.
Qed.

Lemma damage_routed_ledger_ok amount breakdown s s' :
  damage_routed amount breakdown s s' -> ledger_ok s -> ledger_ok s'.
Proof.
  unfold damage_routed, ledger_ok. intros R (L1 & L2 & L3).
  destruct (nonzero_components breakdown) as [|[dtype n] [|? ?]].
  - destruct R as (-> & -> & -> & -> & -> & R).
    destruct (last_player_hit_was_crit s); destruct R as [-> ->];
      rewrite ?sum_list_app; simpl; repeat split; lia.
  - destruct R as (-> & -> & -> & R).
    destruct (last_attack_was_player s); destruct R as (-> & -> & -> & ->);
      rewrite ?map_total_added; repeat split; lia.
  - destruct R as (-> & -> & -> & -> & -> & R).
    destruct (last_player_hit_was_crit s); destruct R as [-> ->];
      rewrite ?sum_list_app; simpl; repeat split; lia.
Qed.

(** Damage taken leaves the ledgers of damage dealt alone. *)
Lemma damage_taken_dealt now a amount bd s s' :
  damage_taken_by_player now a amount bd s = Ok s' ->
  (damage_dealt s', damage_dealt_crits s', damage_dealt_normal s',
   shield_damage_by_type s', shield_damage_total s',
   weapon_buff_damage_by_type s', weapon_buff_damage_total s')
  = (damage_dealt s, damage_dealt_crits s, damage_dealt_normal s,
     shield_damage_by_type s, shield_damage_total s,
     weapon_buff_damage_by_type s, weapon_buff_damage_total s).
Proof.
  unfold damage_taken_by_player. intros H. inv_ok H; frame.
Qed.

Lemma parse_damage_ledger_ok now line s s' :
  ledger_ok s -> parse_damage now line s = Ok s' -> ledger_ok s'.
Proof.
  intros L. rewrite parse_damage_eq.
  destruct (damage_of line) as [[[[a tg] amount] bd]|];
    [|intros H; apply Ok_inj in H; now subst].
  destruct (player_on_target s a tg).
  - intros H. eapply damage_routed_ledger_ok; [|exact L].
    eapply damage_dealt_routes; eassumption.
  - destruct (_ && _); [|intros H; apply Ok_inj in H; now subst].
    intros H. apply damage_taken_dealt in H.
    unfold ledger_ok in *. injection H as -> -> -> -> -> -> ->. exact L.
Qed.

Lemma parse_line_ledger_ok now line s s' :
  ledger_ok s -> parse_line now line s = Ok s' -> ledger_ok s'.
Proof.
  intros L H. apply parse_line_steps in H.
  destruct H as [[_ ->] | [_ (s1 & s2 & s3 & s4 & s5 & H1 & H2 & H3 & H4 & H5 & H6)]];
    [exact L|].
  apply attack_step_ledger_view in H1. apply parse_save_ledger_view in H2.
  apply parse_potion_ledger_view in H4.
  apply parse_undead_heal_ledger_view in H5.
  apply parse_kill_ledger_view in H6.
  eapply ledger_ok_view; [exact H6|]. eapply ledger_ok_view; [exact H5|].
  eapply ledger_ok_view; [exact H4|].
  eapply parse_damage_ledger_ok; [|exact H3].
  eapply ledger_ok_view; [exact H2|]. eapply ledger_ok_view; [exact H1|].
  exact L.
Qed.

Lemma fresh_ledger_ok s : fresh s -> ledger_ok s.
Proof.
  intros [(now & p & f & e & r & a & ->) | (s0 & ->)];
    unfold ledger_ok, map_total; simpl; rewrite map_fold_empty; auto.
Qed.

End Ledgers.

(* ================================================================== *)
(** ** Amounts are not negative *)

Section Amounts.

Import NWNCombatTracker.

Lemma digits_val_lower l : forall acc n,
  0 <= acc -> Py.digits_val acc l = Some n -> 0 <= n.
Proof.
  induction l as [|a l IH]; intros acc n Hacc H; simpl in H.
  - injection H as <-. exact Hacc.
  - destruct (Py.isdigit a) eqn:Ha; [|discriminate].
    eapply IH; [|exact H].
    unfold Py.isdigit in Ha. apply andb_prop in Ha. destruct Ha as [Ha _].
    apply N.leb_le in Ha. lia.
Qed.

Lemma int_digits_lower w n :
  forallb Py.isdigit (list_ascii_of_string w) = true ->
  Py.int w = Ok n -> 0 <= n.
Proof.
  unfold Py.int, Py.int_l. destruct (list_ascii_of_string w) as [|a l] eqn:E;
    [discriminate|].
  intros Hd. pose proof Hd as Hd'. simpl in Hd'. apply andb_prop in Hd'.
  destruct Hd' as [Ha _]. rewrite (isdigit_not_minus _ Ha).
  destruct (Py.digits_val 0 (a :: l)) as [v|] eqn:Ev; [|discriminate].
  intros H. apply Ok_inj in H. subst v.
  eapply digits_val_lower; [|exact Ev]. lia.
Qed.

Lemma lang_num_digits w :
  lang num w ->
  forallb Py.isdigit (list_ascii_of_string (string_of_list_ascii w)) = true.
Proof. intros [_ Hd]. rewrite to_list_of_list. exact Hd. Qed.

Lemma groups_digits_damage : groups_ok digit_shape pat_damage.
Proof.
  cbv [groups_ok pat_damage Re.opt].
  repeat match goal with
    | |- _ /\ _ => split
    | |- True => exact I
    | |- forall w, lang num w -> digit_shape _ _ => exact lang_num_digits
    | |- forall w, _ -> digit_shape _ _ => intros ? ?; exact I
    | |- _ => exact I
    | |- _ => solve [cbv; tauto]
    end.
Qed.

(** The amount of a damage line is a run of digits, so it is not
    negative. *)
Lemma damage_of_amount line a tg amount bd :
  damage_of line = Some (a, tg, amount, bd) -> 0 <= amount.
Proof.
  unfold damage_of, Re.search.
  destruct (Re.search_l pat_damage _) as [[c rest]|] eqn:E; [|discriminate].
  simpl.
  destruct (search_l_sound digit_shape _ _ _ _ groups_digits_damage E) as [C _].
  destruct (group_str _ "attacker"); [|discriminate].
  destruct (group_str _ "target"); [|discriminate].
  unfold group_int, Re.group. simpl.
  destruct (Re.lookup_cap "amount" c) as [w|] eqn:L; simpl; [|discriminate].
  destruct (Py.int w) as [n|] eqn:I; [|discriminate].
  pose proof (lookup_cap_ok digit_shape _ _ _ C L) as D.
  destruct (Re.lookup_cap "breakdown" c); intros H; injection H as _ _ <- _;
    (eapply int_digits_lower; [exact D | exact I]).
Qed.

End Amounts.

(* ================================================================== *)
(** ** The ledgers only grow *)

Section Growth.

Import NWNCombatTracker.

Lemma ledger_grows_refl s : ledger_grows s s.
Proof.
  unfold ledger_grows. repeat split; try lia.
  exists []. rewrite app_nil_r. split; [reflexivity | constructor].
Qed.

Lemma ledger_grows_trans s1 s2 s3 :
  ledger_grows s1 s2 -> ledger_grows s2 s3 -> ledger_grows s1 s3.
Proof.
  unfold ledger_grows.
  intros (A1 & A2 & A3 & l1 & A4 & A5) (B1 & B2 & B3 & l2 & B4 & B5).
  repeat split; try lia.
  exists (l1 ++ l2). rewrite B4, A4, app_assoc. split; [reflexivity|].
  apply List.Forall_app. split; assumption.
Qed.

Lemma ledger_grows_view s s' :
  ledger_view s' = ledger_view s -> ledger_grows s s'.
Proof.
  unfold ledger_view, ledger_grows. intros H.
  injection H as -> _ _ _ -> _ -> -> _. repeat split; try lia.
  exists []. rewrite app_nil_r. split; [reflexivity | constructor].
Qed.

Lemma damage_dealt_taken now tg amount bd s s' :
  damage_dealt_by_player now tg amount bd s = Ok s' ->
  damage_taken s' = damage_taken s.
Proof.
  unfold damage_dealt_by_player. intros H. inv_ok H; frame.
Qed.

Lemma damage_taken_grows now a amount bd s s' :
  damage_taken_by_player now a amount bd s = Ok s' ->
  damage_taken s' = damage_taken s ++ [amount].
Proof.
  unfold damage_taken_by_player. intros H. inv_ok H; frame.
Qed.

Lemma parse_damage_grows now line s s' :
  parse_damage now line s = Ok s' -> ledger_grows s s'.
Proof.
  rewrite parse_damage_eq.
  destruct (damage_of line) as [[[[a tg] amount] bd]|] eqn:D;
    [|intros H; apply Ok_inj in H; subst; apply ledger_grows_refl].
  apply damage_of_amount in D.
  destruct (player_on_target s a tg).
  - intros H. pose proof (damage_dealt_taken _ _ _ _ _ _ H) as T.
    apply damage_dealt_routes in H. unfold damage_routed in H.
    unfold ledger_grows. rewrite T.
    assert (G : exists l, damage_taken s = damage_taken s ++ l
                          /\ Forall (fun x => 0 <= x) l).
    { exists []. rewrite app_nil_r. split; [reflexivity | constructor]. }
    destruct (nonzero_components bd) as [|[dtype n] [|? ?]].
    + destruct H as (-> & -> & _ & -> & _). repeat split; try lia. exact G.
    + destruct H as (-> & _ & _ & H).
      destruct (last_attack_was_player s); destruct H as (-> & _ & -> & _);
        repeat split; try lia; exact G.
    + destruct H as (-> & -> & _ & -> & _). repeat split; try lia. exact G.
  - destruct (_ && _);
      [|intros H; apply Ok_inj in H; subst; apply ledger_grows_refl].
    intros H. pose proof (damage_taken_grows _ _ _ _ _ _ H) as T.
    apply damage_taken_dealt in H. injection H as E1 _ _ _ E2 _ E3.
    unfold ledger_grows. rewrite E1, E2, E3, T. repeat split; try lia.
    exists [amount]. split; [reflexivity|]. constructor; [exact D | constructor].
Qed.

Lemma parse_line_grows now line s s' :
  parse_line now line s = Ok s' -> ledger_grows s s'.
Proof.
  intros H. apply parse_line_steps in H.
  destruct H as [[_ ->] | [_ (s1 & s2 & s3 & s4 & s5 & H1 & H2 & H3 & H4 & H5 & H6)]];
    [apply ledger_grows_refl|].
  apply attack_step_ledger_view, ledger_grows_view in H1.
  apply parse_save_ledger_view, ledger_grows_view in H2.
  apply parse_damage_grows in H3.
  apply parse_potion_ledger_view, ledger_grows_view in H4.
  apply parse_undead_heal_ledger_view, ledger_grows_view in H5.
  apply parse_kill_ledger_view, ledger_grows_view in H6.
  eapply ledger_grows_trans; [exact H1|].
  eapply ledger_grows_trans; [exact H2|].
  eapply ledger_grows_trans; [exact H3|].
  eapply ledger_grows_trans; [exact H4|].
  eapply ledger_grows_trans; [exact H5|]. exact H6.
Qed.

End Growth.

(* ================================================================== *)
(** ** Saving throws *)

Section Saves.

Import NWNCombatTracker.

Lemma update_save_fields key b sv :
  EnemySaves.name (EnemySaves.update_save key b sv) = EnemySaves.name sv
  /\ EnemySaves.fortitude (EnemySaves.update_save key b sv)
     = (if String.eqb key "fort"
        then if EnemySaves.improves (EnemySaves.fortitude sv) b
             then Some b else EnemySaves.fortitude sv
        else EnemySaves.fortitude sv)
  /\ EnemySaves.reflex (EnemySaves.update_save key b sv)
     = (if String.eqb key "ref"
        then if EnemySaves.improves (EnemySaves.reflex sv) b
             then Some b else EnemySaves.reflex sv
        else EnemySaves.reflex sv)
  /\ EnemySaves.will (EnemySaves.update_save key b sv)
     = (if String.eqb key "will"
        then if EnemySaves.improves (EnemySaves.will sv) b
             then Some b else EnemySaves.will sv
        else EnemySaves.will sv).
Proof.
  unfold EnemySaves.update_save.
  destruct (String.eqb key "fort") eqn:F.
  { apply String.eqb_eq in F. subst key. simpl.
    destruct (EnemySaves.improves _ _); simpl; auto. }
  destruct (String.eqb key "ref") eqn:R.
  { apply String.eqb_eq in R. subst key. simpl.
    destruct (EnemySaves.improves _ _); simpl; auto. }
  destruct (String.eqb key "will") eqn:W; [|auto].
  destruct (EnemySaves.improves _ _); simpl; auto.
Qed.

Lemma improves_max hs old b :
  is_max_of hs old ->
  is_max_of (hs ++ [b]) (if EnemySaves.improves old b then Some b else old).
Proof.
  unfold EnemySaves.improves. destruct old as [v|]; simpl.
  - intros [Hin Hall]. destruct (b >? v) eqn:E.
    + apply Z.gtb_lt in E. split; [apply in_or_app; right; left; reflexivity|].
      apply List.Forall_app. split.
      * eapply List.Forall_impl; [|exact Hall]. simpl. intros; lia.
      * constructor; [lia | constructor].
    + assert (b <= v) by (destruct (Z.gtb_spec b v); [discriminate | lia]).
      split; [apply in_or_app; left; exact Hin|].
      apply List.Forall_app. split; [exact Hall|].
      constructor; [lia | constructor].
  - intros ->. simpl. split; [left; reflexivity|].
    constructor; [lia | constructor].
Qed.

Lemma improves_rises old b :
  rises old (if EnemySaves.improves old b then Some b else old).
Proof.
  unfold EnemySaves.improves, rises. destruct old as [v|]; [|exact I].
  destruct (b >? v) eqn:E; [apply Z.gtb_lt in E; lia | lia].
Qed.

Lemma rises_refl o : rises o o.
Proof. destruct o; simpl; [lia | exact I]. Qed.

Lemma rises_trans a b c : rises a b -> rises b c -> rises a c.
Proof. destruct a, b, c; simpl; try tauto; lia. Qed.

Lemma improves_step key k b hs old rest :
  is_max_of hs old ->
  exists hs',
    hs ++ (if String.eqb k key then b :: rest else rest) = hs' ++ rest
    /\ is_max_of hs'
         (if String.eqb k key
          then if EnemySaves.improves old b then Some b else old
          else old).
Proof.
  intros H. destruct (String.eqb k key).
  - exists (hs ++ [b]). split; [rewrite <- app_assoc; reflexivity|].
    apply improves_max, H.
  - exists hs. split; [reflexivity | exact H].
Qed.

Lemma update_saves_max calls : forall sv fs rs ws,
  is_max_of fs (EnemySaves.fortitude sv) ->
  is_max_of rs (EnemySaves.reflex sv) ->
  is_max_of ws (EnemySaves.will sv) ->
  EnemySaves.name (update_saves calls sv) = EnemySaves.name sv
  /\ is_max_of (fs ++ bonuses_of "fort" calls)
       (EnemySaves.fortitude (update_saves calls sv))
  /\ is_max_of (rs ++ bonuses_of "ref" calls)
       (EnemySaves.reflex (update_saves calls sv))
  /\ is_max_of (ws ++ bonuses_of "will" calls)
       (EnemySaves.will (update_saves calls sv)).
Proof.
  induction calls as [|[k b] calls IH]; intros sv fs rs ws Hf Hr Hw.
  - simpl. rewrite !app_nil_r. auto.
  - unfold update_saves. simpl fold_left. fold (update_saves calls).
    destruct (update_save_fields k b sv) as (En & Ef & Er & Ew).
    rewrite <- En. simpl bonuses_of.
    destruct (improves_step "fort" k b fs _ (bonuses_of "fort" calls) Hf)
      as (fs' & -> & Hf').
    destruct (improves_step "ref" k b rs _ (bonuses_of "ref" calls) Hr)
      as (rs' & -> & Hr').
    destruct (improves_step "will" k b ws _ (bonuses_of "will" calls) Hw)
      as (ws' & -> & Hw').
    apply IH; [rewrite Ef | rewrite Er | rewrite Ew]; assumption.
Qed.

Lemma saves_rise_refl o : saves_rise o o.
Proof.
  destruct o; simpl; [|exact I]. repeat split; apply rises_refl.
Qed.

Lemma saves_rise_trans a b c :
  saves_rise a b -> saves_rise b c -> saves_rise a c.
Proof.
  destruct a, b, c; simpl; try tauto.
  intros (N1 & F1 & R1 & W1) (N2 & F2 & R2 & W2).
  split; [congruence|]. repeat split; eapply rises_trans; eassumption.
Qed.

Lemma update_save_rises key b sv :
  saves_rise (Some sv) (Some (EnemySaves.update_save key b sv)).
Proof.
  simpl. destruct (update_save_fields key b sv) as (En & Ef & Er & Ew).
  rewrite En, Ef, Er, Ew. split; [reflexivity|].
  repeat split;
    match goal with
    | |- context [String.eqb key ?k] => destruct (String.eqb key k)
    end; first [apply improves_rises | apply rises_refl].
Qed.

(** What the steps other than a save leave alone once the opponent is
    bound. *)
Lemma attack_step_saves now line s s' :
  bound s -> attack_step now line s = Ok s' ->
  identity s' = identity s /\ target_saves s' = target_saves s.
Proof.
  intros Hb H.
  assert (Q : (identity s', target_saves s') = (identity s, target_saves s)).
  { attack_cases H; try reflexivity;
      unfold identity; bound_frame Hb. }
  apply pair_equal_spec in Q. exact Q.
Qed.

Lemma parse_save_saves now line s s' :
  bound s -> parse_save now line s = Ok s' ->
  saves_rise (target_saves s) (target_saves s').
Proof.
  intros Hb. rewrite parse_save_eq.
  destruct (save_of line) as [[[tg key] b]|];
    [|intros H; apply Ok_inj in H; subst; apply saves_rise_refl].
  destruct (_matches_target s tg);
    [|intros H; apply Ok_inj in H; subst; apply saves_rise_refl].
  intros H. apply Ok_inj in H. subst s'. unfold save_effect.
  rewrite (set_target_bound _ _ Hb).
  unfold _update_encounter_time.
  destruct (encounter_start s); simpl;
    (destruct (target_saves s) as [sv|] eqn:E; simpl;
     [apply update_save_rises | rewrite ?E; exact I]).
Qed.

Lemma parse_damage_saves now line s s' :
  bound s -> parse_damage now line s = Ok s' ->
  target_saves s' = target_saves s.
Proof. intros Hb. step_cases parse_damage_eq H; bound_frame Hb. Qed.

Lemma parse_potion_saves now line s s' :
  bound s -> parse_potion now line s = Ok s' ->
  target_saves s' = target_saves s.
Proof. intros Hb. step_cases parse_potion_eq H; bound_frame Hb. Qed.

Lemma parse_undead_heal_saves now line s s' :
  bound s -> parse_undead_heal now line s = Ok s' ->
  target_saves s' = target_saves s.
Proof. intros Hb. step_cases parse_undead_heal_eq H; bound_frame Hb. Qed.

Lemma parse_kill_saves now line s s' :
  parse_kill now line s = Ok s' -> target_saves s' = target_saves s.
Proof. step_cases parse_kill_eq H. Qed.

Lemma parse_line_saves now line s s' :
  bound s -> parse_line now line s = Ok s' ->
  saves_rise (target_saves s) (target_saves s').
Proof.
  intros Hb H. apply parse_line_steps in H.
  destruct H as [[_ ->] | [_ (s1 & s2 & s3 & s4 & s5 & H1 & H2 & H3 & H4 & H5 & H6)]];
    [apply saves_rise_refl|].
  destruct (attack_step_saves _ _ _ _ Hb H1) as [I1 A1].
  pose proof (bound_identity _ _ I1 Hb) as B1.
  pose proof (parse_save_saves _ _ _ _ B1 H2) as A2.
  destruct (quiet_parts _ _ (parse_save_quiet _ _ _ _ B1 H2)) as [I2 _].
  pose proof (bound_identity _ _ I2 B1) as B2.
  pose proof (parse_damage_saves _ _ _ _ B2 H3) as A3.
  destruct (quiet_parts _ _ (parse_damage_quiet _ _ _ _ B2 H3)) as [I3 _].
  pose proof (bound_identity _ _ I3 B2) as B3.
  pose proof (parse_potion_saves _ _ _ _ B3 H4) as A4.
  destruct (quiet_parts _ _ (parse_potion_quiet _ _ _ _ B3 H4)) as [I4 _].
  pose proof (bound_identity _ _ I4 B3) as B4.
  pose proof (parse_undead_heal_saves _ _ _ _ B4 H5) as A5.
  pose proof (parse_kill_saves _ _ _ _ H6) as A6.
  rewrite A6, A5, A4, A3, <- A1. exact A2.
Qed.

End Saves.
(* ================================================================== *)
(** ** The claims *)

(** C1, as stated, fails.  One observation of bonus 5 at time 0, then a
    refresh 31 seconds later: no observation is left in the window, and
    [max_observed] is still the bonus of the observation that left it. *)
Lemma attack_bonus_window_stale :
  let cs := [AbUpdate 0 0 5; AbRefresh 31000000] in
  clock_ok 0 cs
  /\ exists ab,
       ab_run cs (AttackBonus.init 0) = Ok ab
       /\ in_window 30 (last_reading 0 cs) (observations cs) = []
       /\ AttackBonus.max_observed ab = 5
       /\ ~ is_max_of
              (map snd (in_window 30 (last_reading 0 cs) (observations cs)))
              (Some (AttackBonus.max_observed ab)).
Proof.
  split; [simpl; lia|].
  eexists. split; [reflexivity|]. split; [reflexivity|].
  split; [reflexivity|]. intros [H _]. exact H.
Qed.

(** C1 (amended).  On a fresh [AttackBonus], any calls of [update] and
    [refresh] under a clock that does not run backwards return
    normally; after the last call, at clock reading [t], the list kept is
    exactly the observations newer than [t - window]; when that list is
    not empty, [max_observed] is its greatest bonus; when it is empty,
    [refresh] has left [max_observed] as it was and [update] has set it
    to the new bonus. *)
Theorem attack_bonus_window (ab0 : AttackBonus.t) (t0 : Z)
    (cs : list ab_call) (c : ab_call) :
  AttackBonus.recent_attacks ab0 = [] ->
  clock_ok t0 (cs ++ [c]) ->
  exists before after,
    ab_run cs ab0 = Ok before
    /\ ab_apply before c = Ok after
    /\ ab_run (cs ++ [c]) ab0 = Ok after
    /\ let live := in_window (AttackBonus.window_seconds ab0)
                     (last_reading t0 (cs ++ [c]))
                     (observations (cs ++ [c])) in
       AttackBonus.recent_attacks after = live
       /\ (live <> [] ->
           is_max_of (map snd live) (Some (AttackBonus.max_observed after)))
       /\ (live = [] ->
           AttackBonus.max_observed after
           = match c with
             | AbUpdate _ _ bonus => bonus
             | AbRefresh _ => AttackBonus.max_observed before
             end).
Proof.
  intros Hfresh Hclk. apply clock_ok_app in Hclk. destruct Hclk as [Hcs Hc].
  destruct (ab_run_window cs ab0 [] t0) as (before & E & W & R);
    [rewrite Hfresh; reflexivity | assumption |].
  simpl in R. exists before.
  rewrite ab_run_app, E, last_reading_app, observations_app. simpl rbind.
  destruct c as [now now' b | now]; simpl in Hc |- *.
  - destruct (update_spec now now' b before) as (after & E' & R' & W' & _ & _ & M & M0).
    rewrite R, W, in_window_app, in_window_later in R', M, M0 by lia.
    rewrite <- in_window_app in R', M, M0.
    exists after. rewrite E'. auto 10.
  - destruct (refresh_spec now before) as (after & E' & R' & W' & _ & M & M0).
    rewrite R, W, in_window_later in R', M, M0 by lia.
    exists after. rewrite E', app_nil_r. auto 10.
Qed.

Lemma attack_bonus_window_witness :
  exists before after,
    ab_run [AbUpdate 0 0 5; AbUpdate 1000000 1000000 3] (AttackBonus.init 0)
      = Ok before
    /\ ab_apply before (AbRefresh 30500000) = Ok after
    /\ AttackBonus.recent_attacks after = [(1000000, 3)]
    /\ AttackBonus.max_observed after = 3.
Proof.
  destruct (attack_bonus_window (AttackBonus.init 0) 0
              [AbUpdate 0 0 5; AbUpdate 1000000 1000000 3]
              (AbRefresh 30500000))
    as (before & after & E1 & E2 & _ & R & M & _);
    [reflexivity | simpl; lia |].
  exists before, after. split; [exact E1|]. split; [exact E2|].
  split; [exact R|].
  assert (L : in_window (AttackBonus.window_seconds (AttackBonus.init 0))
                (last_reading 0
                   ([AbUpdate 0 0 5; AbUpdate 1000000 1000000 3]
                      ++ [AbRefresh 30500000]))
                (observations
                   ([AbUpdate 0 0 5; AbUpdate 1000000 1000000 3]
                      ++ [AbRefresh 30500000])) = [(1000000, 3)])
    by reflexivity.
  rewrite L in M. destruct M as [[H | []] _]; [discriminate|]. simpl in H.
  symmetry. exact H.
Defined.

(** C4.  [get_ac_estimate] is a function of the two bounds alone, with
    the cases read in order: both known and [max_miss + 1 = min_hit]
    gives [min_hit]; both known with a gap between them gives the range
    from [max_miss + 1] to [min_hit]; both known and
    [max_miss >= min_hit] gives [~min_hit]; only [min_hit] known gives
    the at-most form, only [max_miss] known the greater-than form, and
    neither the unknown marker [?]. *)
Theorem ac_estimate_cases (ac : EnemyAC.t) :
  (forall ac', EnemyAC.min_hit ac' = EnemyAC.min_hit ac ->
     EnemyAC.max_miss ac' = EnemyAC.max_miss ac ->
     EnemyAC.get_ac_estimate ac' = EnemyAC.get_ac_estimate ac)
  /\ (forall h m, EnemyAC.min_hit ac = Some h -> EnemyAC.max_miss ac = Some m ->
        (m + 1 = h -> EnemyAC.get_ac_estimate ac = Py.str h)
        /\ (m < h -> m + 1 <> h ->
            EnemyAC.get_ac_estimate ac
            = (Py.str (m + 1) ++ "-" ++ Py.str h)%string)
        /\ (m >= h ->
            EnemyAC.get_ac_estimate ac = ("~" ++ Py.str h)%string))
  /\ (forall h, EnemyAC.min_hit ac = Some h -> EnemyAC.max_miss ac = None ->
        EnemyAC.get_ac_estimate ac = ("≤" ++ Py.str h)%string)
  /\ (forall m, EnemyAC.min_hit ac = None -> EnemyAC.max_miss ac = Some m ->
        EnemyAC.get_ac_estimate ac = (">" ++ Py.str m)%string)
  /\ (EnemyAC.min_hit ac = None -> EnemyAC.max_miss ac = None ->
        EnemyAC.get_ac_estimate ac = "?"%string).
Proof.
  unfold EnemyAC.get_ac_estimate. split; [|split; [|split; [|split]]].
  - intros ac' -> ->. reflexivity.
  - intros h m -> ->. split; [|split].
    + intros E. apply Z.eqb_eq in E. rewrite E. reflexivity.
    + intros L N. apply Z.eqb_neq in N. apply Z.ltb_lt in L.
      rewrite N, L. reflexivity.
    + intros G.
      assert (N : (m + 1 =? h) = false) by (apply Z.eqb_neq; lia).
      assert (L : (m <? h) = false) by (apply Z.ltb_ge; lia).
      rewrite N, L. reflexivity.
  - intros h -> ->. reflexivity.
  - intros m -> ->. reflexivity.
  - intros -> ->. reflexivity.
Qed.

Lemma ac_estimate_cases_witness :
  EnemyAC.get_ac_estimate (EnemyAC.mk "Korgan" (Some 35) (Some 34)) = "35"%string
  /\ EnemyAC.get_ac_estimate (EnemyAC.mk "Korgan" (Some 35) (Some 30)) = "31-35"%string
  /\ EnemyAC.get_ac_estimate (EnemyAC.mk "Korgan" (Some 35) (Some 36)) = "~35"%string
  /\ EnemyAC.get_ac_estimate (EnemyAC.mk "Korgan" (Some 35) None) = "≤35"%string
  /\ EnemyAC.get_ac_estimate (EnemyAC.mk "Korgan" None (Some 30)) = ">30"%string
  /\ EnemyAC.get_ac_estimate (EnemyAC.mk "Korgan" None None) = "?"%string.
Proof.
  split; [|split; [|split; [|split; [|split]]]].
  - destruct (ac_estimate_cases (EnemyAC.mk "Korgan" (Some 35) (Some 34)))
      as (_ & H & _).
    apply (H 35 34); reflexivity.
  - destruct (ac_estimate_cases (EnemyAC.mk "Korgan" (Some 35) (Some 30)))
      as (_ & H & _).
    apply (H 35 30); [reflexivity | reflexivity | lia | lia].
  - destruct (ac_estimate_cases (EnemyAC.mk "Korgan" (Some 35) (Some 36)))
      as (_ & H & _).
    apply (H 35 36); [reflexivity | reflexivity | lia].
  - destruct (ac_estimate_cases (EnemyAC.mk "Korgan" (Some 35) None))
      as (_ & _ & H & _).
    apply (H 35); reflexivity.
  - destruct (ac_estimate_cases (EnemyAC.mk "Korgan" None (Some 30)))
      as (_ & _ & _ & H & _).
    apply (H 30); reflexivity.
  - destruct (ac_estimate_cases (EnemyAC.mk "Korgan" None None))
      as (_ & _ & _ & _ & H).
    apply H; reflexivity.
Defined.

Section TrackerClaims.

Import NWNCombatTracker.








(** C6.  A line that the pending form reads (concealment percentage and
    roll, bonus and total, no outcome) with the player attacking the
    target is processed without raising; it leaves [hits], [misses] and
    [crits] as they are, records the percentage in
    [target_conceal_pct] and feeds the bonus to the rolling window. *)
Theorem pending_attack_counts_nothing (now : Z) (line : string) (s : t)
    (a : attack) (c : option Z) :
  attack_of (normalize line) = Some (a, c, true) ->
  player_on_target s (attacker a) (target a) = true ->
  exists s' pct b,
    parse_line now line s = Ok s'
    /\ c = Some pct /\ bonus a = Some b
    /\ hits s' = hits s /\ misses s' = misses s /\ crits s' = crits s
    /\ target_conceal_pct s' = Some pct
    /\ AttackBonus.update now now b (attack_bonus s) = Ok (attack_bonus s').
Proof.
  intros Ha Hp.
  destruct (parse_line_ok now line s) as [s' H].
  destruct (pending_reading _ _ _ Ha) as (pct & b & -> & Hb).
  destruct (parse_line_attack _ _ _ _ _ Ha H) as (s1 & H1 & V).
  rewrite attack_step_eq, Ha, Hp in H1.
  destruct (player_attack_pending _ _ _ _ _ _ Hb H1)
    as (P1 & P2 & P3 & _ & _ & P4 & P5).
  exists s', pct, b. unfold attack_view in V. inversion V.
  repeat split; congruence.
Qed.

Lemma pending_attack_counts_nothing_witness :
  let line :=
    "Azoni Stout attacks Korgan: *target concealed: 50%*: (15 + 22 = 37)"%string in
  exists s',
    parse_line 7 line engaged_tracker = Ok s'
    /\ hits s' = 1 /\ misses s' = 0 /\ crits s' = 0
    /\ target_conceal_pct s' = Some 50
    /\ AttackBonus.current (attack_bonus s') = 22.
Proof.
  intros line.
  assert (Ha : attack_of (normalize line)
               = Some ({| attacker := "Azoni Stout"; target := "Korgan";
                          outcome := ""; roll := Some 15;
                          bonus := Some 22; total := Some 37 |},
                       Some 50, true)) by (vm_compute; reflexivity).
  destruct (pending_attack_counts_nothing 7 line engaged_tracker _ _ Ha)
    as (s' & pct & b & H & Hc & Hb & H1 & H2 & H3 & H4 & H5);
    [vm_compute; reflexivity|].
  inversion Hc. inversion Hb. subst pct b.
  exists s'. split; [exact H|].
  rewrite H1, H2, H3, H4.
  destruct (update_spec 7 7 22 (attack_bonus engaged_tracker))
    as (ab' & E & _ & _ & Cur & _).
  rewrite E in H5. apply Ok_inj in H5. rewrite <- H5, Cur.
  repeat split; vm_compute; reflexivity.
Defined.

(** C7, as stated, fails.  The player hits Korgan at time 5 and kills
    him at time 6: the kill line is matched (the death flag and
    [kill_time] are set), and [encounter_last] is still 5. *)
Lemma kill_leaves_clock :
  let hit := "Azoni Stout attacks Korgan: *hit*: (15 + 20 = 35)"%string in
  let kill := "Azoni Stout killed Korgan."%string in
  observe (fun s => (kill_view s, timing s))
    (parse_lines [(5, hit); (6, kill)] lock_tracker)
  = Some ((true, Some 6), (Some 5, Some 5)).
Proof. vm_compute. reflexivity. Qed.

(** C7 (amended).  [encounter_start], once assigned, is not changed by
    any line.  A line that carries an attack or a concealment-only miss
    between the player and the target, a save of the target, damage
    between the two, a potion used by the target or an undead self-heal
    of the target sets [encounter_last] to the time of the line, and
    [encounter_start] too when it was not assigned.  Every other line,
    a kill line and a potion of the player among them, leaves both
    times as they are. *)
Theorem encounter_clock (now : Z) (line : string) (s s' : t) :
  parse_line now line s = Ok s' ->
  (forall start, encounter_start s = Some start ->
                 encounter_start s' = Some start)
  /\ (touches_time s (normalize line) = true ->
      encounter_last s' = Some now
      /\ (encounter_start s = None -> encounter_start s' = Some now))
  /\ (touches_time s (normalize line) = false ->
      encounter_start s' = encounter_start s
      /\ encounter_last s' = encounter_last s).
Proof.
  intros H. pose proof (parse_line_timing _ _ _ _ H) as T.
  unfold timing, touch in T. simpl in T.
  destruct (touches_time s (normalize line));
    apply pair_equal_spec in T; destruct T as [T1 T2].
  - split; [|split].
    + intros start E. rewrite T1, E. reflexivity.
    + intros _. split; [exact T2|]. intros E. rewrite T1, E. reflexivity.
    + discriminate.
  - split; [|split].
    + intros start E. rewrite T1. exact E.
    + discriminate.
    + intros _. auto.
Qed.

Lemma encounter_clock_witness :
  observe encounter_last
    (parse_line 9 "Korgan damages Azoni Stout: 42 (42 Physical)"
       engaged_tracker)
  = Some (Some 9).
Proof.
  destruct (parse_line 9 "Korgan damages Azoni Stout: 42 (42 Physical)"
              engaged_tracker) as [s'|e] eqn:E;
    [|vm_compute in E; discriminate].
  destruct (encounter_clock _ _ _ _ E) as (_ & H & _).
  destruct H as [H _]; [vm_compute; reflexivity|].
  simpl. rewrite H. reflexivity.
Defined.

(** C8, as stated, fails.  On a line with two prefixes the preprocessor
    removes the first one only, so a second application changes its
    output. *)
Lemma strip_prefix_twice :
  let line :=
    "[CHAT WINDOW TEXT] [Mon] [CHAT WINDOW TEXT] [Tue] hi"%string in
  _strip_prefix line = "[CHAT WINDOW TEXT] [Tue] hi"%string
  /\ _strip_prefix (_strip_prefix line) = "hi"%string
  /\ _strip_prefix (_strip_prefix line) <> _strip_prefix line.
Proof.
  split; [vm_compute; reflexivity|]. split; [vm_compute; reflexivity|].
  vm_compute. discriminate.
Qed.

(** C8 (amended).  The preprocessor never fails.  A line without a
    leading prefix is returned trimmed and otherwise unchanged; from a
    line with one, the text that the prefix pattern matches at its head
    is removed, once, and the rest is trimmed.  The output is trimmed;
    applying the preprocessor to its own output changes nothing when
    that output does not begin with a prefix again. *)
Theorem strip_prefix_once (line : string) :
  (leading_prefix line = None -> _strip_prefix line = Py.strip line)
  /\ (forall c rest,
        leading_prefix line = Some (c, rest) ->
        _strip_prefix line = Py.strip (string_of_list_ascii rest)
        /\ exists w, list_ascii_of_string line = w ++ rest
                     /\ lang pat_prefix w)
  /\ Py.strip (_strip_prefix line) = _strip_prefix line
  /\ (leading_prefix (_strip_prefix line) = None ->
      _strip_prefix (_strip_prefix line) = _strip_prefix line).
Proof.
  split; [apply strip_prefix_none|].
  split; [intros c rest; apply strip_prefix_some|].
  split; [apply strip_prefix_stripped|].
  intros H. rewrite (strip_prefix_none _ H). apply strip_prefix_stripped.
Qed.

Lemma strip_prefix_once_witness :
  let line :=
    "[CHAT WINDOW TEXT] [Wed Oct 01 12:00:00]  Azoni Stout killed Korgan. "%string in
  _strip_prefix line = "Azoni Stout killed Korgan."%string
  /\ _strip_prefix (_strip_prefix line) = _strip_prefix line.
Proof.
  intros line. split; [vm_compute; reflexivity|].
  apply (strip_prefix_once line). vm_compute. reflexivity.
Defined.



(** C10.  A line that an attack form reads as a miss, a parry or a
    resist leaves [last_attack_was_player] and
    [last_player_hit_was_crit] as they are, and so does any run of such
    lines.  After a resolved hit of the player and any number of such
    lines the two flags are still the ones the hit latched, so a damage
    line of the player that follows is routed by that hit: one nonzero
    component goes to the weapon-buff ledger, anything else to the crit
    list when the hit was critical and to the normal list when not. *)
Theorem miss_keeps_exchange_flags :
  (forall now line s s',
     miss_line line -> parse_line now line s = Ok s' ->
     exchange_flags s' = exchange_flags s)
  /\ (forall lines s s',
        Forall (fun x => miss_line (snd x)) lines ->
        parse_lines lines s = Ok s' ->
        exchange_flags s' = exchange_flags s)
  /\ (forall now line s s1 a c lines s2,
        attack_of (normalize line) = Some (a, c, false) ->
        player_on_target s (attacker a) (target a) = true ->
        is_hit a = true ->
        parse_line now line s = Ok s1 ->
        Forall (fun x => miss_line (snd x)) lines ->
        parse_lines lines s1 = Ok s2 ->
        exchange_flags s2 = (true, is_crit a)
        /\ forall now' dline s3 da dtg amount breakdown,
             damage_of (normalize dline) = Some (da, dtg, amount, breakdown) ->
             player_on_target s2 da dtg = true ->
             attack_fires s2 (normalize dline) = false ->
             save_fires s2 (normalize dline) = false ->
             parse_line now' dline s2 = Ok s3 ->
             match nonzero_components breakdown with
             | [_] =>
                 weapon_buff_damage_total s3
                 = weapon_buff_damage_total s2 + amount
                 /\ shield_damage_total s3 = shield_damage_total s2
                 /\ damage_dealt s3 = damage_dealt s2
             | _ =>
                 damage_dealt s3 = damage_dealt s2 + amount
                 /\ if is_crit a
                    then damage_dealt_crits s3
                         = damage_dealt_crits s2 ++ [amount]
                    else damage_dealt_normal s3
                         = damage_dealt_normal s2 ++ [amount]
             end).
Proof.
  assert (One : forall now line s s',
             miss_line line -> parse_line now line s = Ok s' ->
             exchange_flags s' = exchange_flags s).
  { intros now line s s' (a & c & p & Ha & Hm) H.
    destruct (parse_line_attack _ _ _ _ _ Ha H) as (s1 & H1 & V).
    rewrite (attack_view_flags _ _ V).
    eapply attack_step_miss_flags; eassumption. }
  assert (Many : forall lines s s',
             Forall (fun x => miss_line (snd x)) lines ->
             parse_lines lines s = Ok s' ->
             exchange_flags s' = exchange_flags s).
  { induction lines as [|[now line] lines IH]; intros s s' F H; simpl in H.
    - apply Ok_inj in H. subst. reflexivity.
    - inversion F as [|? ? Fx Fl]; subst. simpl in Fx.
      destruct (parse_line now line s) as [s1|] eqn:E; [|discriminate].
      simpl in H. rewrite (IH _ _ Fl H). eapply One; eassumption. }
  split; [exact One|]. split; [exact Many|].
  intros now line s s1 a c lines s2 Ha Hp Hh H F Hl.
  assert (Fl : exchange_flags s2 = (true, is_crit a)).
  { rewrite (Many _ _ _ F Hl).
    destruct (parse_line_attack _ _ _ _ _ Ha H) as (s0 & H0 & V).
    rewrite (attack_view_flags _ _ V).
    rewrite attack_step_eq, Ha, Hp in H0.
    rewrite (player_attack_flags _ _ _ _ _ _ H0), Hh. reflexivity. }
  split; [exact Fl|].
  intros now' dline s3 da dtg amount breakdown Hd Hpd Had Hsd H3.
  pose proof (parse_line_damage_routes _ _ _ _ _ _ _ _ Hd Had Hsd Hpd H3) as R.
  unfold damage_routed in R. unfold exchange_flags in Fl.
  apply pair_equal_spec in Fl. destruct Fl as [F1 F2]. rewrite F1, F2 in R.
  destruct (nonzero_components breakdown) as [|[dtype n] [|y l]].
  - destruct R as (R1 & _ & _ & _ & _ & R2). split; [exact R1|].
    destruct (is_crit a); apply R2.
  - destruct R as (R1 & _ & _ & R2 & _ & R3 & _). auto.
  - destruct R as (R1 & _ & _ & _ & _ & R2). split; [exact R1|].
    destruct (is_crit a); apply R2.
Qed.

Lemma miss_keeps_exchange_flags_witness :
  let crit := "Azoni Stout attacks Korgan: *critical hit*: (19 + 20 = 39)"%string in
  let miss := "Azoni Stout attacks Korgan: *miss*: (3 + 20 = 23)"%string in
  exists s1 s2,
    parse_line 5 crit lock_tracker = Ok s1
    /\ parse_lines [(6, miss); (7, miss)] s1 = Ok s2
    /\ exchange_flags s2 = (true, true).
Proof.
  intros crit miss.
  destruct (parse_line 5 crit lock_tracker) as [s1|e] eqn:E1;
    [|vm_compute in E1; discriminate].
  destruct (parse_lines [(6, miss); (7, miss)] s1) as [s2|e] eqn:E2;
    [|destruct (parse_lines_ok [(6, miss); (7, miss)] s1) as [x Hx];
      congruence].
  exists s1, s2. split; [reflexivity|]. split; [exact E2|].
  destruct miss_keeps_exchange_flags as (_ & _ & H).
  assert (Ha : attack_of (normalize crit)
               = Some ({| attacker := "Azoni Stout"; target := "Korgan";
                          outcome := "critical hit"; roll := Some 19;
                          bonus := Some 20; total := Some 39 |},
                       None, false)) by (vm_compute; reflexivity).
  assert (Hm : miss_line miss).
  { exists {| attacker := "Azoni Stout"; target := "Korgan";
              outcome := "miss"; roll := Some 3;
              bonus := Some 20; total := Some 23 |}, None, false.
    split; vm_compute; reflexivity. }
  destruct (H 5 crit lock_tracker s1 _ _ [(6, miss); (7, miss)] s2 Ha)
    as [Fl _];
    [vm_compute; reflexivity | reflexivity | exact E1
     | repeat constructor; exact Hm | exact E2 |].
  exact Fl.
Defined.

End TrackerClaims.
